(** * Ot2Rec.recon: resumable reconstruction bookkeeping

    A shallow embedding of [src/Ot2Rec/recon.py] (class [Recon]): the
    derivation of per-tilt-series output paths, the reconciliation of the
    persisted completion record against the file system
    ([_check_reconned_images]) and the execution loop ([recon_stack],
    [update_recon_metadata], [export_metadata]).

    pandas DataFrames are modelled as lists of rows carrying their index
    label, because the source filters frames with boolean Series taken
    from a *different* frame ([df[merged['_merge'] == 'left_only']]),
    which pandas aligns by index label. *)

From Stdlib Require Import ZArith Ascii String DecimalString DecimalFacts DecimalN.
From stdpp Require Import base option list strings gmap sorting.

Local Open Scope string_scope.
#[local] Set Warnings "-clear-no-such-hyp".

(* ===================================================================== *)
(** ** Python string primitives used by the source *)
(* ===================================================================== *)

Module PyStr.

(** [s.endswith(c)] for a one-character [c]. *)
Fixpoint endswith (s : string) (c : ascii) : bool :=
  match s with
  | EmptyString => false
  | String a s' =>
      match s' with
      | EmptyString => Ascii.eqb a c
      | String _ _ => endswith s' c
      end
  end.

(** [s[:-1]]: all but the last character (the empty string stays empty). *)
Fixpoint drop_last (s : string) : string :=
  match s with
  | EmptyString => EmptyString
  | String a s' =>
      match s' with
      | EmptyString => EmptyString
      | String _ _ => String a (drop_last s')
      end
  end.

(** The idiom [if s.endswith(c): s = s[:-1]]. *)
Definition strip_trailing (c : ascii) (s : string) : string :=
  if endswith s c then drop_last s else s.

(** Decimal digits of a natural number, ["0"] for zero. *)
Definition digits (n : N) : string := NilZero.string_of_uint (N.to_uint n).

Fixpoint zeros (k : nat) : string :=
  match k with
  | O => EmptyString
  | S k' => String "0"%char (zeros k')
  end.

Definition zero_pad (w : nat) (s : string) : string :=
  zeros (w - String.length s) +:+ s.

(** [format(z, '0wd')]: sign-aware zero padding to total width [w]. *)
Definition format_0wd (w : nat) (z : Z) : string :=
  if (z <? 0)%Z
  then "-" +:+ zero_pad (w - 1) (digits (Z.abs_N z))
  else zero_pad w (digits (Z.to_N z)).

(** [f"{z:02d}"]. *)
Definition format_02d (z : Z) : string := format_0wd 2 z.

End PyStr.

(* ===================================================================== *)
(** ** Rows and frames *)
(* ===================================================================== *)

(** One row of [_recon_images] / [meta_out]: the columns
    ['ts', 'align_output', 'recon_output']. *)
Record Row := mkRow {
  ts : Z;
  align_output : string;
  recon_output : string;
}.

Global Instance Row_eq_dec : EqDecision Row.
Proof. solve_decision. Defined.

(** A DataFrame over those columns: rows in order, each with its index
    label. *)
Abbreviation Frame := (list (nat * Row)).

Inductive Exn :=
  | MergeError          (* pandas: no common columns to perform merge on *)
  | IndexingError       (* pandas: unalignable boolean Series as indexer *)
  | YAMLError           (* the record file does not parse *)
  | KeyError (key : Z)
  | ValueError (msg : string).

Inductive Res (A : Type) :=
  | Ok (a : A)
  | Raise (e : Exn).
Arguments Ok {A} a.
Arguments Raise {A} e.

Global Instance Res_ret : MRet Res := fun _ a => Ok a.
Global Instance Res_bind : MBind Res := fun _ _ k c =>
  match c with
  | Ok a => k a
  | Raise e => Raise e
  end.

Module Pandas.

Definition rows (f : Frame) : list Row := f.*2.
Definition index (f : Frame) : list nat := f.*1.

(** A fresh [RangeIndex]: labels [0 .. n-1]. *)
Definition range_index (l : list Row) : Frame := zip (seq 0 (length l)) l.

(** [a.append(b, ignore_index=True)]. *)
Definition append_ignore_index (a b : Frame) : Frame :=
  range_index (rows a ++ rows b).

(** [f.drop_duplicates()]: the first occurrence of every row is kept,
    with its label; later occurrences are dropped. *)
Fixpoint drop_duplicates_seen (seen : list Row) (f : Frame) : Frame :=
  match f with
  | [] => []
  | (i, r) :: f' =>
      if bool_decide (r ∈ seen) then drop_duplicates_seen seen f'
      else (i, r) :: drop_duplicates_seen (r :: seen) f'
  end.

Definition drop_duplicates (f : Frame) : Frame := drop_duplicates_seen [] f.

(** [f.loc[mask]] / [f[mask]] where [mask] is computed row by row from
    [f] itself, so that labels agree. *)
Definition loc (p : Row → bool) (f : Frame) : Frame :=
  filter (λ x, p x.2) f.

(** Column access by name. *)
Inductive Cell := CInt (z : Z) | CStr (s : string).

Global Instance Cell_eq_dec : EqDecision Cell.
Proof. solve_decision. Defined.

Definition columns : list string := ["ts"; "align_output"; "recon_output"].

Definition cell (c : string) (r : Row) : option Cell :=
  if String.eqb c "ts" then Some (CInt (ts r))
  else if String.eqb c "align_output" then Some (CStr (align_output r))
  else if String.eqb c "recon_output" then Some (CStr (recon_output r))
  else None.

Definition agree_on (on : list string) (a b : Row) : bool :=
  forallb (λ c, bool_decide (cell c a = cell c b)) on.

(** Column union done by [append]/[concat]. *)
Definition union_columns (a b : list string) : list string :=
  a ++ filter (λ c, c ∉ a) b.

(** The join keys [merge] uses when no [on=] is given: the columns of the
    left frame that the right frame has too. *)
Definition common_columns (left right : list string) : list string :=
  filter (λ c, c ∈ right) left.

(** The [_merge] column of [left.merge(right, how='left', indicator=True)]
    on the keys [on]: the rows of the result follow the rows of [left];
    a left row without a match gives one ['left_only'] row ([true]), a
    left row with [k] matches gives [k] rows tagged ['both'] ([false]).
    The result has a fresh [RangeIndex], so the list position is the
    label. *)
Definition merge_left_only (on : list string) (left right : list Row) : list bool :=
  flat_map
    (λ l, match List.filter (agree_on on l) right with
          | [] => [true]
          | ms => (λ _, false) <$> ms
          end)
    left.

Definition merge_indicator (left_cols right_cols : list string)
    (left right : list Row) : Res (list bool) :=
  match common_columns left_cols right_cols with
  | [] => Raise MergeError
  | on => Ok (merge_left_only on left right)
  end.

(** [f[mask]] for a boolean Series [mask] with a [RangeIndex] of its own:
    pandas reindexes the mask on the labels of [f] and raises when a
    label of [f] is not a label of the mask. *)
Fixpoint getitem_bool (f : Frame) (mask : list bool) : Res Frame :=
  match f with
  | [] => Ok []
  | (i, r) :: f' =>
      match mask !! i with
      | None => Raise IndexingError
      | Some b =>
          rest ← getitem_bool f' mask;
          Ok (if (b : bool) then (i, r) :: rest else rest : Frame)
      end
  end.

(** [s.isin(values)]. *)
Definition isin (x : string) (values : list string) : bool :=
  bool_decide (x ∈ values).

(** Insertion into an ascending list, for [sort_values(ascending=True)]. *)
Fixpoint insert_sorted (x : Z) (l : list Z) : list Z :=
  match l with
  | [] => [x]
  | y :: l' => if (x <=? y)%Z then x :: l else y :: insert_sorted x l'
  end.

Definition sort_values (l : list Z) : list Z := foldr insert_sorted [] l.

(** [s.unique()]: values in order of first appearance. *)
Fixpoint unique_seen (seen : list Z) (l : list Z) : list Z :=
  match l with
  | [] => []
  | x :: l' =>
      if bool_decide (x ∈ seen) then unique_seen seen l'
      else x :: unique_seen (x :: seen) l'
  end.

Definition unique (l : list Z) : list Z := unique_seen [] l.

End Pandas.

(* ===================================================================== *)
(** ** The world outside the object, and the monad of effects *)
(* ===================================================================== *)

(** What the program does to its surroundings, oldest event first. *)
Inductive Event :=
  | EvMakedirs (path : string)
  | EvWriteAdoc (path : string)
  | EvRun (cmd : list string)
  | EvDump (yaml_file : string) (doc : Frame).

(** [files] tells which paths are regular files apart from the YAML
    documents, which are kept with their parsed content. *)
Record World := mkWorld {
  files : string → bool;
  yaml_docs : gmap string Frame;
  trace : list Event;
  logged : list string;
}.

(** [os.path.isfile]. *)
Definition isfile (w : World) (p : string) : bool :=
  bool_decide (is_Some (yaml_docs w !! p)) || files w p.

Definition M (A : Type) : Type := World → Res A * World.

Global Instance M_ret : MRet M := fun _ a w => (Ok a, w).
Global Instance M_bind : MBind M := fun _ _ k c w =>
  match c w with
  | (Ok a, w') => k a w'
  | (Raise e, w') => (Raise e, w')
  end.

(** The file-existence test as it stands now, for the [apply(lambda x:
    os.path.isfile(x))] over a column. *)
Definition isfile_now : M (string → bool) := fun w => (Ok (isfile w), w).
Definition raise {A} (e : Exn) : M A := fun w => (Raise e, w).
Definition lift {A} (r : Res A) : M A := fun w => (r, w).

Definition emit (e : Event) : M unit := fun w =>
  (Ok (), mkWorld (files w) (yaml_docs w) (trace w ++ [e]) (logged w)).

(** [self.logObj(msg)]. *)
Definition logObj (msg : string) : M unit := fun w =>
  (Ok (), mkWorld (files w) (yaml_docs w) (trace w) (logged w ++ [msg])).

(** [os.makedirs(path, exist_ok=True)]; failures of the operating system
    (permissions, a file in the way) are outside the model. *)
Definition os_makedirs (path : string) : M unit := emit (EvMakedirs path).

(** Modelled from the spec: [metadata.read_md_yaml] is called by the
    source but is not defined in the sources at hand.  Following the
    spec's [load], it deserialises the persisted document into rows and
    aborts the run on a file that holds no such document. *)
Definition read_md_yaml (filename : string) : M Frame := fun w =>
  match yaml_docs w !! filename with
  | Some doc => (Ok doc, w)
  | None => (Raise YAMLError, w)
  end.

(** [yaml.dump(frame.to_dict(), f)] into a freshly opened [filename]:
    the document keeps every column as a mapping from index label to
    value, so rows come back with their labels. *)
Definition yaml_dump (filename : string) (doc : Frame) : M unit := fun w =>
  (Ok (), mkWorld (files w) (<[filename := doc]> (yaml_docs w))
                  (trace w ++ [EvDump filename doc]) (logged w)).

(** What one run of the external tool does. *)
Record ToolOutcome := mkOutcome {
  exit_status : Z;
  to_stdout : string;
  to_stderr : string;
  files_after : string → bool;
}.

(** [subprocess.CompletedProcess]. *)
Record CompletedProcess := mkCompleted {
  returncode : Z;
  cp_stdout : option string;
  cp_stderr : option string;
}.

(** Truth value of an [Optional[str]]. *)
Definition truthy (o : option string) : bool :=
  match o with
  | None => false
  | Some s => negb (String.eqb s "")
  end.

(* ===================================================================== *)
(** ** The [Recon] object *)
(* ===================================================================== *)

(** [params['System']]. *)
Record SystemParams := mkSystem {
  output_path : string;
  output_rootname : string;
  output_suffix : string;
  process_list : list Z;
}.

Record Recon := mkRecon {
  proj_name : string;
  params : SystemParams;
  meta_columns : list string;          (* self.meta.columns *)
  basis_folder : string;
  rootname : string;
  suffix : string;
  _path_dict : gmap Z string;
  _recon_images : Frame;
  meta_out : Frame;
  no_processes : bool;
  _process_list : list Z;
  stdout : option string;
}.

Definition set_names (self : Recon) (b r s : string) : Recon :=
  mkRecon (proj_name self) (params self) (meta_columns self) b r s
    (_path_dict self) (_recon_images self) (meta_out self)
    (no_processes self) (_process_list self) (stdout self).

Definition set_path_dict (self : Recon) (d : gmap Z string) : Recon :=
  mkRecon (proj_name self) (params self) (meta_columns self)
    (basis_folder self) (rootname self) (suffix self)
    d (_recon_images self) (meta_out self)
    (no_processes self) (_process_list self) (stdout self).

Definition set_recon_images (self : Recon) (f : Frame) : Recon :=
  mkRecon (proj_name self) (params self) (meta_columns self)
    (basis_folder self) (rootname self) (suffix self)
    (_path_dict self) f (meta_out self)
    (no_processes self) (_process_list self) (stdout self).

Definition set_meta_out (self : Recon) (f : Frame) : Recon :=
  mkRecon (proj_name self) (params self) (meta_columns self)
    (basis_folder self) (rootname self) (suffix self)
    (_path_dict self) (_recon_images self) f
    (no_processes self) (_process_list self) (stdout self).

Definition set_no_processes (self : Recon) (b : bool) : Recon :=
  mkRecon (proj_name self) (params self) (meta_columns self)
    (basis_folder self) (rootname self) (suffix self)
    (_path_dict self) (_recon_images self) (meta_out self)
    b (_process_list self) (stdout self).

Definition set_process_list (self : Recon) (l : list Z) : Recon :=
  mkRecon (proj_name self) (params self) (meta_columns self)
    (basis_folder self) (rootname self) (suffix self)
    (_path_dict self) (_recon_images self) (meta_out self)
    (no_processes self) l (stdout self).

Definition set_stdout (self : Recon) (o : option string) : Recon :=
  mkRecon (proj_name self) (params self) (meta_columns self)
    (basis_folder self) (rootname self) (suffix self)
    (_path_dict self) (_recon_images self) (meta_out self)
    (no_processes self) (_process_list self) o.

Module PyRepr.

(** [str(z)] for an integer. *)
Definition str_int (z : Z) : string := PyStr.format_0wd 0 z.

Fixpoint join (sep : string) (l : list string) : string :=
  match l with
  | [] => EmptyString
  | [x] => x
  | x :: l' => x +:+ sep +:+ join sep l'
  end.

(** [f"{l}"] for a list of plain strings. *)
Definition repr_str_list (l : list string) : string :=
  "[" +:+ join ", " ((λ x, "'" +:+ x +:+ "'") <$> l) +:+ "]".

End PyRepr.

Section Recon.

(** [mp.cpu_count()]. *)
Variable cpu_count : nat.

(** The external program [batchruntomo]: what it does when started with
    a command line in a given world. *)
Variable batchruntomo_tool : World → list string → ToolOutcome.

(** How the child's two streams interleave when they share one pipe. *)
Variable interleave : string → string → string.

(** [subprocess.run(cmd, stdout=PIPE, stderr=STDOUT, encoding='ascii')]:
    the error stream is redirected into the output pipe, so the
    [CompletedProcess] captures both in [stdout] and its [stderr] is
    [None].  The text of a [ToolOutcome] is what the child wrote, taken
    to be ASCII; on any other byte [subprocess.run] raises while
    decoding, a failure that is outside the model. *)
Definition subprocess_run (cmd : list string) : M CompletedProcess := fun w =>
  let o := batchruntomo_tool w cmd in
  (Ok (mkCompleted (exit_status o)
                   (Some (interleave (to_stdout o) (to_stderr o)))
                   None),
   mkWorld (files_after o) (yaml_docs w) (trace w ++ [EvRun cmd]) (logged w)).

(** [f"{self.basis_folder}/{self.rootname}_{curr_ts:02d}{self.suffix}"]. *)
Definition subfolder_name (basis root suff : string) (curr_ts : Z) : string :=
  basis +:+ "/" +:+ root +:+ "_" +:+ PyStr.format_02d curr_ts +:+ suff.

Definition subfolder_of (self : Recon) (curr_ts : Z) : string :=
  subfolder_name (basis_folder self) (rootname self) (suffix self) curr_ts.

(** The [pd.Series] appended for [curr_ts]. *)
Definition series_of (basis root suff : string) (curr_ts : Z) : Row :=
  let subfolder := subfolder_name basis root suff curr_ts in
  {| ts := curr_ts;
     align_output := subfolder +:+ "/" +:+ root +:+ "_"
                       +:+ PyStr.format_02d curr_ts +:+ suff +:+ "_ali.mrc";
     recon_output := subfolder +:+ "/" +:+ root +:+ "_"
                       +:+ PyStr.format_02d curr_ts +:+ suff +:+ "_rec.mrc" |}.

Definition recon_row (self : Recon) (curr_ts : Z) : Row :=
  series_of (basis_folder self) (rootname self) (suffix self) curr_ts.

(** First loop of [_get_internal_metadata]. *)
Fixpoint make_folders (self : Recon) (todo : list Z) : M Recon :=
  match todo with
  | [] => mret self
  | curr_ts :: todo' =>
      let subfolder := subfolder_of self curr_ts in
      _ ← os_makedirs subfolder;
      make_folders
        (set_path_dict self (<[curr_ts := subfolder]> (_path_dict self))) todo'
  end.

(** Second loop of [_get_internal_metadata]. *)
Fixpoint collect_rows (self : Recon) (todo : list Z) : Recon :=
  match todo with
  | [] => self
  | curr_ts :: todo' =>
      collect_rows
        (set_recon_images self
           (Pandas.range_index
              (Pandas.rows (_recon_images self) ++ [recon_row self curr_ts])))
        todo'
  end.

Definition _get_internal_metadata (self : Recon) : M Recon :=
  let self :=
    set_names self
      (PyStr.strip_trailing "/" (output_path (params self)))
      (PyStr.strip_trailing "_" (output_rootname (params self)))
      (PyStr.strip_trailing "_" (output_suffix (params self))) in
  self ← make_folders (set_path_dict self ∅) (process_list (params self));
  mret (collect_rows (set_recon_images self []) (process_list (params self))).

Definition record_file (self : Recon) : string :=
  proj_name self +:+ "_recon_mdout.yaml".

(** Rows of [_missing] gathered per requested id (lines 123-126). *)
Definition missing_specified (todo : list Z) (_missing : Frame) : list Row :=
  flat_map
    (λ curr_ts, Pandas.rows (filter (λ x, ts x.2 = curr_ts) _missing))
    todo.

(** Columns of [_missing_specified]: those of [self.meta], joined with
    the record's columns by every [append]. *)
Definition missing_specified_columns (meta_cols : list string) (todo : list Z)
    : list string :=
  foldl (λ cols _, Pandas.union_columns cols Pandas.columns) meta_cols todo.

(** Lines 117-131. *)
Definition prune_record (self : Recon) (meta_out0 : Frame) : M Frame :=
  if bool_decide (0 < length meta_out0) then
    exists_now ← isfile_now;
    let _missing :=
      Pandas.loc (λ r, negb (exists_now (recon_output r))) meta_out0 in
    let _missing_specified :=
      missing_specified (process_list (params self)) _missing in
    _merged ← lift (Pandas.merge_indicator Pandas.columns
                      (missing_specified_columns (meta_columns self)
                         (process_list (params self)))
                      (Pandas.rows meta_out0) _missing_specified);
    kept ← lift (Pandas.getitem_bool meta_out0 _merged);
    _ ← (if bool_decide (0 < length _missing_specified)
         then logObj ("Info: "
                +:+ PyRepr.str_int (Z.of_nat (length _missing_specified))
                +:+ " images in record missing in folder. Will be added back for processing.")
         else mret ());
    mret kept
  else mret meta_out0.

(** Lines 133-143. *)
Definition prune_work (self : Recon) : M Recon :=
  let images := _recon_images self in
  let _ignored :=
    Pandas.loc
      (λ r, Pandas.isin (recon_output r)
              (recon_output <$> Pandas.rows (meta_out self)))
      images in
  self ← (if bool_decide (0 < length _ignored)
             && bool_decide (length _ignored < length images)
          then
            _ ← logObj ("Info: " +:+ PyRepr.str_int (Z.of_nat (length _ignored))
                        +:+ " images had been processed and will be omitted.");
            mret self
          else if bool_decide (length _ignored = length images)
          then
            _ ← logObj "Info: All specified images had been processed. Nothing will be done.";
            mret (set_no_processes self true)
          else mret self);
  _merged ← lift (Pandas.merge_indicator Pandas.columns Pandas.columns
                    (Pandas.rows images) (Pandas.rows _ignored));
  remaining ← lift (Pandas.getitem_bool images _merged);
  mret (set_process_list (set_recon_images self remaining)
          (Pandas.unique (Pandas.sort_values (ts <$> Pandas.rows remaining)))).

Definition _check_reconned_images (self : Recon) : M Recon :=
  exists_now ← isfile_now;
  loaded ← (if (exists_now (record_file self) : bool)
            then read_md_yaml (record_file self)
            else mret []);
  pruned ← prune_record self (Pandas.drop_duplicates loaded);
  prune_work (set_meta_out self pruned).

(** The object as [__init__] finds it once [proj_name], [meta] and
    [params] are set: nothing else is assigned yet. *)
Definition blank (project_name : string) (md_columns : list string)
    (sp : SystemParams) : Recon :=
  mkRecon project_name sp md_columns "" "" "" ∅ [] [] false [] None.

(** [Recon.__init__]; [md_columns] stands for the columns of [md_in]. *)
Definition __init__ (project_name : string) (md_columns : list string)
    (params_in : SystemParams) : M Recon :=
  let self := blank project_name md_columns params_in in
  self ← _get_internal_metadata self;
  let self := set_no_processes self false in
  let self := set_process_list self (process_list (params self)) in
  _check_reconned_images self.

(** [_get_adoc]: writes the directive file; its text is a substitution
    into a fixed template and plays no part here.  The parameters under
    [params['BatchRunTomo']] that it reads, and the [KeyError] of a
    missing one, are outside the model. *)
Definition _get_adoc (self : Recon) : M unit := fun w =>
  (Ok (),
   mkWorld (λ p, String.eqb p "./recon.adoc" || files w p) (yaml_docs w)
           (trace w ++ [EvWriteAdoc "./recon.adoc"]) (logged w)).

(** The command line, once [self._path_dict[curr_ts]] has been read. *)
Definition brt_command (root : string) (curr_ts : Z) (location : string)
    : list string :=
  let temp_cpu := (λ i, PyRepr.str_int (Z.of_nat i)) <$> seq 1 cpu_count in
  ["batchruntomo";
   "-CPUMachineList"; PyRepr.repr_str_list temp_cpu;
   "-GPUMachineList"; "1";
   "-DirectiveFile"; "./recon.adoc";
   "-RootName"; root +:+ "_" +:+ PyStr.format_02d curr_ts;
   "-CurrentLocation"; location;
   "-StartingStep"; "8";
   "-EndingStep"; "20"].

Definition _get_brt_recon_command (self : Recon) (curr_ts : Z)
    : M (list string) :=
  match _path_dict self !! curr_ts with
  | None => raise (KeyError curr_ts)
  | Some location => mret (brt_command (rootname self) curr_ts location)
  end.

Definition update_recon_metadata (self : Recon) : M Recon :=
  exists_now ← isfile_now;
  let found :=
    Pandas.loc (λ r, exists_now (recon_output r)) (_recon_images self) in
  let self :=
    set_meta_out self (Pandas.append_ignore_index (meta_out self) found) in
  let self :=
    set_recon_images self
      (Pandas.loc (λ r, negb (exists_now (recon_output r))) (_recon_images self)) in
  mret (set_meta_out self (Pandas.drop_duplicates (meta_out self))).

Definition export_metadata (self : Recon) : M unit :=
  yaml_dump (record_file self) (meta_out self).

(** The body of the [for] loop of [recon_stack], over the items still to
    visit. *)
Fixpoint recon_loop (self : Recon) (todo : list Z) : M Recon :=
  match todo with
  | [] => mret self
  | curr_ts :: todo' =>
      cmd_ts ← _get_brt_recon_command self curr_ts;
      cmd ← _get_brt_recon_command self curr_ts;
      batchruntomo ← subprocess_run cmd;
      if truthy (cp_stderr batchruntomo)
      then raise (ValueError
                    ("Batchtomo: An error has occurred ("
                       +:+ PyRepr.str_int (returncode batchruntomo)
                       +:+ ") on stack" +:+ PyRepr.str_int curr_ts +:+ "."))
      else
        let self := set_stdout self (cp_stdout batchruntomo) in
        self ← update_recon_metadata self;
        _ ← export_metadata self;
        recon_loop self todo'
  end.

Definition recon_stack (self : Recon) : M Recon :=
  _ ← _get_adoc self;
  recon_loop self (_process_list self).

End Recon.

(* ===================================================================== *)
(** ** Vocabulary for the statements *)
(* ===================================================================== *)

(** The normalised components of the naming convention. *)
Definition basis_of (sp : SystemParams) : string :=
  PyStr.strip_trailing "/" (output_path sp).
Definition rootname_of (sp : SystemParams) : string :=
  PyStr.strip_trailing "_" (output_rootname sp).
Definition suffix_of (sp : SystemParams) : string :=
  PyStr.strip_trailing "_" (output_suffix sp).

(** The work item derived for a requested id. *)
Definition catalog_row (sp : SystemParams) (x : Z) : Row :=
  series_of (basis_of sp) (rootname_of sp) (suffix_of sp) x.

Definition catalog_folder (sp : SystemParams) (x : Z) : string :=
  subfolder_name (basis_of sp) (rootname_of sp) (suffix_of sp) x.

(** Name of the persisted completion record of a project. *)
Definition record_name (project_name : string) : string :=
  project_name +:+ "_recon_mdout.yaml".

(** The persisted record as it is loaded and de-duplicated (lines
    105-115), when the file parses. *)
Definition loaded_record (project_name : string) (w : World) : Frame :=
  Pandas.drop_duplicates (default [] (yaml_docs w !! record_name project_name)).

(** A frame whose labels are [0 .. n-1], as pandas numbers them. *)
Definition range_indexed (f : Frame) : Prop :=
  Pandas.index f = seq 0 (length f).

(** Inputs on which the boolean masks of lines 128 and 142 line up with
    the frames they filter: ids requested once each, a record file that
    parses, whose rows are numbered [0 .. n-1] once duplicates are
    dropped, and, when nothing is requested, an input metadata frame
    sharing a column with the record. *)
Record aligned_inputs (project_name : string) (md_columns : list string)
    (sp : SystemParams) (w : World) : Prop := {
  ids_once : NoDup (process_list sp);
  record_parses :
    isfile w (record_name project_name) = true →
    is_Some (yaml_docs w !! record_name project_name);
  record_numbered : range_indexed (loaded_record project_name w);
  merge_keys :
    process_list sp = [] →
    Pandas.common_columns Pandas.columns md_columns ≠ [];
}.

(** The world is as it was, apart from log lines. *)
Definition only_logged (w w' : World) : Prop :=
  files w' = files w ∧ yaml_docs w' = yaml_docs w ∧ trace w' = trace w.

(** The command lines handed to the external tool, in order. *)
Fixpoint runs (t : list Event) : list (list string) :=
  match t with
  | [] => []
  | EvRun cmd :: t' => cmd :: runs t'
  | _ :: t' => runs t'
  end.

(** The documents written to the record file, in order. *)
Fixpoint dumps (t : list Event) : list Frame :=
  match t with
  | [] => []
  | EvDump _ doc :: t' => doc :: dumps t'
  | _ :: t' => dumps t'
  end.

(** What [_get_internal_metadata] leaves in a freshly made object. *)
Definition catalogued (project_name : string) (md_columns : list string)
    (sp : SystemParams) : Recon :=
  mkRecon project_name sp md_columns (basis_of sp) (rootname_of sp) (suffix_of sp)
    (foldl (λ d x, <[x := catalog_folder sp x]> d) ∅ (process_list sp))
    (Pandas.range_index (catalog_row sp <$> process_list sp))
    [] false [] None.

(** The rows Pass 1 keeps: the output is there, or the id is not
    requested. *)
Definition survives (exists_now : string → bool) (todo : list Z) (r : Row)
    : bool :=
  exists_now (recon_output r) || bool_decide (ts r ∉ todo).

(** The catalogue rows Pass 2 keeps: the reconstruction path is not among
    the recorded ones. *)
Definition unrecorded (recorded : Frame) (r : Row) : bool :=
  negb (Pandas.isin (recon_output r)
          (recon_output <$> Pandas.rows recorded)).

(** The state [_check_reconned_images] leaves behind on aligned inputs. *)
Definition checked (self : Recon) (w : World) : Recon :=
  let pruned :=
    Pandas.loc (survives (isfile w) (process_list (params self)))
        (loaded_record (proj_name self) w) in
  let images := _recon_images self in
  let remaining := Pandas.loc (unrecorded pruned) images in
  let ignored :=
    Pandas.loc (λ r, Pandas.isin (recon_output r) (recon_output <$> Pandas.rows pruned)) images in
  set_process_list
    (set_recon_images
       (set_no_processes (set_meta_out self pruned)
          (bool_decide (length ignored = length images) || no_processes self))
       remaining)
    (Pandas.unique (Pandas.sort_values (ts <$> Pandas.rows remaining))).

(** The object [__init__] returns on aligned inputs. *)
Definition reconciled (project_name : string) (md_columns : list string)
    (sp : SystemParams) (w : World) : Recon :=
  checked (set_process_list (catalogued project_name md_columns sp)
             (process_list sp)) w.

(** Two worlds with the same files and the same documents. *)
Definition same_fs (w w' : World) : Prop :=
  files w = files w' ∧ yaml_docs w = yaml_docs w'.

(** A computation that leaves files and documents alone and whose result
    depends on nothing else. *)
Definition inert {A} (c : M A) : Prop :=
  (∀ w, same_fs w (c w).2)
  ∧ (∀ w w', same_fs w w' → (c w).1 = (c w').1).

(** The parts of the object that reconciliation and the loop never
    touch. *)
Definition same_config (s s' : Recon) : Prop :=
  proj_name s' = proj_name s ∧ params s' = params s
  ∧ basis_folder s' = basis_folder s ∧ rootname s' = rootname s
  ∧ suffix s' = suffix s ∧ _path_dict s' = _path_dict s.

(** A configured component with or without one trailing separator. *)
Definition with_trailing (b : bool) (s : string) (c : ascii) : string :=
  if b then s +:+ String c EmptyString else s.


(** Reading an id back from its decimal rendering, leading zeros
    allowed. *)
Definition read_int (s : string) : option Z :=
  option_map Z.of_int (NilEmpty.int_of_string s).

(* ===================================================================== *)
(** ** Concrete runs *)
(* ===================================================================== *)

Module Scenario.

(** Three tilt series under [out/], root name [ts]. *)
Definition sp123 : SystemParams := mkSystem "out/" "ts_" "" [1; 2; 3]%Z.
Definition sp1 : SystemParams := mkSystem "out/" "ts_" "" [1]%Z.
(** Only series 1, the root name given with two trailing underscores. *)
Definition sp1_twice_underscored : SystemParams :=
  mkSystem "out/" "ts__" "" [1]%Z.
Definition sp_none : SystemParams := mkSystem "out/" "ts_" "" [].
Definition sp_negative : SystemParams := mkSystem "out/" "ts_" "" [-1]%Z.

Definition row (x : Z) : Row := catalog_row sp123 x.

Definition world (existing : list string) (record : option Frame) : World :=
  mkWorld (λ p, bool_decide (p ∈ existing))
          (match record with
           | Some doc => {[ "p_recon_mdout.yaml" := doc ]}
           | None => ∅
           end)
          [] [].

(** First run: nothing on disk, no record. *)
Definition w_fresh : World := world [] None.

(** Series 2 was reconstructed earlier and its output is still there. *)
Definition w_done2 : World :=
  world [align_output (row 2); recon_output (row 2)] (Some [(0, row 2)]).

(** Series 2 is done and the record lists it twice. *)
Definition w_twice2 : World :=
  world [align_output (row 2); recon_output (row 2)]
        (Some [(0, row 2); (1, row 2)]).

(** Series 2 and 3 are done; the record lists series 2 twice, then
    series 3. *)
Definition w_twice2_then3 : World :=
  world [recon_output (row 2); recon_output (row 3)]
        (Some [(0, row 2); (1, row 2); (2, row 3)]).

(** Series 1 is requested twice; its recorded output has gone, the
    output of series 2 is there. *)
Definition sp112 : SystemParams := mkSystem "out/" "ts_" "" [1; 1; 2]%Z.
Definition w_lost1_done2 : World :=
  world [recon_output (row 2)] (Some [(0, row 1); (1, row 2)]).

(** The record lists series 2, whose output has gone. *)
Definition w_lost2 : World := world [] (Some [(0, row 2)]).

(** The record lists series 1 under its reconstruction path only; the
    aligned stack is recorded elsewhere. *)
Definition half_row1 : Row :=
  {| ts := 1; align_output := "elsewhere/ts_01_ali.mrc";
     recon_output := recon_output (row 1) |}.
Definition w_half1 : World :=
  world [recon_output (row 1)] (Some [(0, half_row1)]).

(** A tool that writes the reconstruction named by [-RootName] into the
    folder named by [-CurrentLocation]. *)
Definition rec_file_of (cmd : list string) : string :=
  nth 10 cmd "" +:+ "/" +:+ nth 8 cmd "" +:+ "_rec.mrc".

Definition tool_ok (w : World) (cmd : list string) : ToolOutcome :=
  mkOutcome 0 "done" ""
    (λ p, String.eqb p (rec_file_of cmd) || files w p).

(** The same tool, except that on series 2 it complains on its error
    stream and exits with status 1, leaving a reconstruction file
    behind. *)
Definition tool_fails_on_2 (w : World) (cmd : list string) : ToolOutcome :=
  if String.eqb (nth 8 cmd "") "ts_02"
  then mkOutcome 1 "" "ERROR: tilt.com failed"
         (λ p, String.eqb p (rec_file_of cmd) || files w p)
  else tool_ok w cmd.

Definition merged_streams (out err : string) : string := out +:+ err.

(** Construction followed by [recon_stack]. *)
Definition run (tool : World → list string → ToolOutcome)
    (sp : SystemParams) (w : World) : Res Recon * World :=
  (self ← __init__ "p" ["ts"] sp; recon_stack 2 tool merged_streams self) w.

End Scenario.

Module Outcome.

Import Scenario.

(** Construction when series 2 is already done: the object and the
    world it leaves. *)
Definition s_done2 : Recon := reconciled "p" ["ts"] sp123 w_done2.
Definition w_done2' : World := (__init__ "p" ["ts"] sp123 w_done2).2.

(** Reconciliation of the catalogue against a record with a repeated
    row. *)
Definition catalogue123 : Recon :=
  set_process_list (catalogued "p" ["ts"] sp123) (process_list sp123).
Definition s_twice2 : Recon := checked catalogue123 w_twice2.
Definition w_twice2' : World := (_check_reconned_images catalogue123 w_twice2).2.

(** Construction on a first run. *)
Definition s_fresh : Recon := reconciled "p" ["ts"] sp123 w_fresh.

End Outcome.


(* ===================================================================== *)
(** ** Further vocabulary *)
(* ===================================================================== *)

(** A computation that, whether it returns or raises, leaves files,
    documents and the trace alone and only adds lines to the log. *)
Definition quiet {A} (c : M A) : Prop :=
  ∀ w, only_logged w (c w).2 ∧ logged w `prefix_of` logged (c w).2.

(** A frame whose rows hold, as reconstruction path, the one derived for
    their own id under the naming of [sp]. *)
Definition follows_naming (sp : SystemParams) (f : Frame) : Prop :=
  ∀ r, r ∈ Pandas.rows f →
       recon_output r = recon_output (catalog_row sp (ts r)).

(** Successive documents none of which loses a row of the one before,
    starting from the rows [start]. *)
Fixpoint growing (start : list Row) (docs : list Frame) : Prop :=
  match docs with
  | [] => True
  | d :: docs' => start `prefix_of` Pandas.rows d ∧ growing (Pandas.rows d) docs'
  end.

(** The events of a loop that, for every item in turn, runs the tool
    and then writes a document to [yaml_file]. *)
Definition turns (cmd_of : Z → list string) (yaml_file : string)
    (todo : list Z) (docs : list Frame) : list Event :=
  flat_map (λ xd, [EvRun (cmd_of xd.1); EvDump yaml_file xd.2]) (zip todo docs).

(** A record and a list of pending items as the loop expects them: no
    repeated row on either side, and no pending item whose
    reconstruction path is a recorded one. *)
Definition ready (self : Recon) : Prop :=
  NoDup (Pandas.rows (meta_out self))
  ∧ NoDup (Pandas.rows (_recon_images self))
  ∧ ∀ r, r ∈ Pandas.rows (_recon_images self) →
         unrecorded (meta_out self) r = true.

(** The spec's words for de-duplication, "duplicates are collapsed
    preserving first-seen order", on plain lists of rows: [collapses l d]
    when [d] lists the rows of [l], each one where it is first seen,
    with its later copies dropped. *)
Inductive collapses : list Row → list Row → Prop :=
  | collapses_nil : collapses [] []
  | collapses_cons r l d :
      collapses (filter (λ x, x ≠ r) l) d → collapses (r :: l) (r :: d).

Module Misaligned.

Import Scenario.

(** Series 1 and 2 were reconstructed and recorded by an earlier run;
    the reconstruction of series 1 has been deleted since, both files of
    series 2 are there. *)
Definition w_lost1_kept2 : World :=
  world [align_output (row 2); recon_output (row 2)]
        (Some [(0, row 1); (1, row 2)]).

(** The record lists series 2 under label 1 and series 3 under label 0;
    the reconstruction of series 2 is missing, both files of series 3
    are there. *)
Definition w_swapped_labels : World :=
  world [align_output (row 3); recon_output (row 3)]
        (Some [(1, row 2); (0, row 3)]).

End Misaligned.

(** One step of evaluation in the monad, leaving everything else folded. *)
Ltac mstep :=
  cbv beta iota zeta
      delta [mbind M_bind mret M_ret lift raise isfile_now logObj emit
             os_makedirs yaml_dump fst snd].

Tactic Notation "mstep" "in" hyp(H) :=
  cbv beta iota zeta
      delta [mbind M_bind mret M_ret lift raise isfile_now logObj emit
             os_makedirs yaml_dump fst snd] in H.


(* ===================================================================== *)
(** ** The string primitives on examples *)
(* ===================================================================== *)

Example format_02d_5 : PyStr.format_02d 5 = "05".
Proof. reflexivity. Qed.
Example format_02d_0 : PyStr.format_02d 0 = "00".
Proof. reflexivity. Qed.
Example format_02d_123 : PyStr.format_02d 123 = "123".
Proof. reflexivity. Qed.
Example format_02d_neg : PyStr.format_02d (-1) = "-1".
Proof. reflexivity. Qed.
Example strip_one_only : PyStr.strip_trailing "/" "out//" = "out/".
Proof. reflexivity. Qed.

(* ===================================================================== *)
(** ** Facts about the pandas primitives *)
(* ===================================================================== *)

Section PandasFacts.

Import Pandas.

Lemma drop_duplicates_seen_sublist seen (f : Frame) :
  sublist (drop_duplicates_seen seen f) f.
Proof.
  revert seen. induction f as [|[i r] f IH]; intros seen; simpl.
  - constructor.
  - case_bool_decide.
    + apply sublist_cons, IH.
    + apply sublist_skip, IH.
Qed.

Lemma elem_of_drop_duplicates_seen seen (f : Frame) r :
  r ∈ rows (drop_duplicates_seen seen f) ↔ r ∈ rows f ∧ r ∉ seen.
Proof.
  unfold rows. revert seen. induction f as [|[i r'] f IH]; intros seen; simpl.
  - split; [by intros ?%elem_of_nil | by intros [?%elem_of_nil _]].
  - case_bool_decide as Hin; simpl.
    + rewrite IH, elem_of_cons. naive_solver.
    + rewrite !elem_of_cons, IH, elem_of_cons.
      destruct (decide (r = r')) as [->|?]; naive_solver.
Qed.

Lemma drop_duplicates_seen_NoDup seen (f : Frame) :
  NoDup (rows (drop_duplicates_seen seen f)).
Proof.
  revert seen. induction f as [|[i r] f IH]; intros seen; simpl.
  - constructor.
  - case_bool_decide as Hin; [apply IH|].
    unfold rows; simpl. constructor; [|apply IH].
    intros Hr. apply (elem_of_drop_duplicates_seen (r :: seen) f r) in Hr.
    destruct Hr as [_ Hr]. apply Hr. by left.
Qed.

Lemma drop_duplicates_NoDup (f : Frame) : NoDup (rows (drop_duplicates f)).
Proof. apply drop_duplicates_seen_NoDup. Qed.

Lemma elem_of_drop_duplicates (f : Frame) r :
  r ∈ rows (drop_duplicates f) ↔ r ∈ rows f.
Proof.
  unfold drop_duplicates. rewrite elem_of_drop_duplicates_seen.
  split; [by intros [? _] | intros ?; split; [done | by intros ?%elem_of_nil]].
Qed.

Lemma drop_duplicates_seen_ext seen seen' (f : Frame) :
  (∀ r, r ∈ seen ↔ r ∈ seen') →
  drop_duplicates_seen seen f = drop_duplicates_seen seen' f.
Proof.
  revert seen seen'. induction f as [|[i r] f IH]; intros seen seen' Heq; simpl.
  - done.
  - rewrite (bool_decide_ext (r ∈ seen) (r ∈ seen')) by apply Heq.
    case_bool_decide; [by apply IH|].
    f_equal. apply IH. intros x. rewrite !elem_of_cons, Heq. done.
Qed.

(** Seeing [r] beforehand amounts to erasing [r] from the frame. *)
Lemma drop_duplicates_seen_cons seen r (f : Frame) :
  drop_duplicates_seen (r :: seen) f
  = drop_duplicates_seen seen (filter (λ x, x.2 ≠ r) f).
Proof.
  revert seen. induction f as [|[i r'] f IH]; intros seen; simpl.
  - done.
  - rewrite filter_cons. simpl. destruct (decide (r' ≠ r)) as [Hne|Heq].
    + simpl. rewrite (bool_decide_ext (r' ∈ r :: seen) (r' ∈ seen))
        by (rewrite elem_of_cons; naive_solver).
      case_bool_decide; [apply IH|].
      f_equal. rewrite <- IH. apply drop_duplicates_seen_ext.
      intros x. rewrite !elem_of_cons. naive_solver.
    + apply dec_stable in Heq. subst r'.
      rewrite bool_decide_eq_true_2 by (apply elem_of_cons; by left).
      apply IH.
Qed.

Lemma drop_duplicates_seen_id seen (f : Frame) :
  NoDup (rows f) → (∀ r, r ∈ rows f → r ∉ seen) →
  drop_duplicates_seen seen f = f.
Proof.
  unfold rows. revert seen. induction f as [|[i r] f IH]; intros seen Hnd Hs; simpl.
  - done.
  - simpl in Hnd. apply NoDup_cons in Hnd as [Hr Hnd].
    rewrite bool_decide_eq_false_2 by (apply Hs; simpl; left).
    f_equal. apply IH; [done|].
    intros x Hx. rewrite elem_of_cons. intros [->|Hx']; [done|].
    eapply Hs; [|done]. simpl. by right.
Qed.

Lemma drop_duplicates_id (f : Frame) :
  NoDup (rows f) → drop_duplicates f = f.
Proof.
  intros. apply drop_duplicates_seen_id; [done|].
  by intros ? _ ?%elem_of_nil.
Qed.

Lemma rows_range_index (l : list Row) : rows (range_index l) = l.
Proof. unfold rows, range_index. apply snd_zip. by rewrite length_seq. Qed.

Lemma index_range_index (l : list Row) :
  index (range_index l) = seq 0 (length l).
Proof. unfold index, range_index. apply fst_zip. by rewrite length_seq. Qed.

Lemma length_range_index (l : list Row) : length (range_index l) = length l.
Proof.
  unfold range_index. rewrite length_zip_with, length_seq. lia.
Qed.

Lemma length_rows (f : Frame) : length (rows f) = length f.
Proof. unfold rows. apply length_fmap. Qed.

Lemma elem_of_rows_loc (p : Row → bool) (f : Frame) r :
  r ∈ rows (loc p f) ↔ r ∈ rows f ∧ p r = true.
Proof.
  unfold rows, loc. rewrite !list_elem_of_fmap. split.
  - intros ([i r'] & -> & [Hp Hin]%list_elem_of_filter). simpl in *.
    split; [exists (i, r'); by split | by apply Is_true_eq_true].
  - intros [([i r'] & -> & Hin) Hp]. exists (i, r'). split; [done|].
    apply list_elem_of_filter. split; [|done]. simpl in *. by rewrite Hp.
Qed.

Lemma loc_sublist (p : Row → bool) (f : Frame) : sublist (loc p f) f.
Proof. apply sublist_filter. Qed.

Lemma rows_sublist (f g : Frame) : sublist f g → sublist (rows f) (rows g).
Proof. unfold rows. apply fmap_sublist. Qed.

Lemma rows_NoDup_sublist (f g : Frame) :
  sublist f g → NoDup (rows g) → NoDup (rows f).
Proof. intros Hs Hnd. eapply sublist_NoDup; [done|]. by apply rows_sublist. Qed.

Lemma getitem_bool_sublist (f : Frame) mask g :
  getitem_bool f mask = Ok g → sublist g f.
Proof.
  revert g. induction f as [|[i r] f IH]; simpl; intros g.
  - intros [= <-]. constructor.
  - destruct (mask !! i) as [b|]; [|done].
    unfold mbind, Res_bind.
    destruct (getitem_bool f mask) as [rest|e]; [|done].
    intros [= <-]. destruct b; [apply sublist_skip | apply sublist_cons]; by apply IH.
Qed.

(** A mask computed row by row from a frame with a [RangeIndex] selects
    exactly the rows it marks. *)
Lemma getitem_bool_aligned (keep : Row → bool) (f : Frame) pre post :
  index f = seq (length pre) (length f) →
  getitem_bool f (pre ++ (keep <$> rows f) ++ post) = Ok (loc keep f).
Proof.
  unfold index, rows, loc. revert pre.
  induction f as [|[i r] f IH]; intros pre Hidx; simpl in *.
  - done.
  - injection Hidx as -> Hidx.
    rewrite lookup_app_r, Nat.sub_diag by lia. simpl.
    specialize (IH (pre ++ [keep r])%list).
    rewrite List.length_app in IH. simpl in IH.
    rewrite Nat.add_1_r, <- app_assoc in IH. simpl in IH.
    specialize (IH Hidx). unfold fmap in IH |- *. rewrite IH. simpl.
    rewrite filter_cons. simpl. by destruct (keep r).
Qed.

Lemma getitem_bool_range (keep : Row → bool) (f : Frame) :
  index f = seq 0 (length f) →
  getitem_bool f (keep <$> rows f) = Ok (loc keep f).
Proof.
  intros Hidx. pose proof (getitem_bool_aligned keep f [] []) as H.
  simpl in H. rewrite app_nil_r in H. by apply H.
Qed.

Lemma agree_on_columns a b : agree_on columns a b = true ↔ a = b.
Proof.
  destruct a as [t1 a1 r1], b as [t2 a2 r2]. unfold agree_on, columns, cell.
  simpl. rewrite !andb_true_iff, !bool_decide_eq_true. split.
  - intros ([= ->] & [= ->] & [= ->] & _). reflexivity.
  - intros [= -> -> ->]. repeat split.
Qed.

Lemma filter_agree_NoDup l (right : list Row) :
  NoDup right →
  List.filter (agree_on columns l) right
  = if bool_decide (l ∈ right) then [l] else [].
Proof.
  induction 1 as [|x right Hx Hnd IH]; cbn [List.filter].
  - done.
  - destruct (agree_on columns l x) eqn:E.
    + apply agree_on_columns in E. subst x.
      rewrite IH, (bool_decide_eq_false_2 (l ∈ right)) by done.
      rewrite bool_decide_eq_true_2 by (apply elem_of_cons; by left). done.
    + rewrite IH. rewrite (bool_decide_ext (l ∈ x :: right) (l ∈ right)); [done|].
      rewrite elem_of_cons.
      split; [|by right]. intros [->|?]; [|done].
      assert (agree_on columns x x = true) by by apply agree_on_columns.
      congruence.
Qed.

Lemma merge_left_only_NoDup (left right : list Row) :
  NoDup right →
  merge_left_only columns left right = (λ l, bool_decide (l ∉ right)) <$> left.
Proof.
  intros Hnd. unfold merge_left_only.
  induction left as [|l left IH]; [done|].
  rewrite fmap_cons. cbn [flat_map]. rewrite IH, filter_agree_NoDup by done.
  destruct (decide (l ∈ right)) as [Hin|Hin].
  - rewrite bool_decide_eq_true_2, bool_decide_eq_false_2 by tauto. done.
  - rewrite (bool_decide_eq_false_2 (l ∈ right)), bool_decide_eq_true_2 by tauto.
    done.
Qed.

Lemma merge_left_only_nil on (left : list Row) :
  merge_left_only on left [] = (λ _, true) <$> left.
Proof.
  unfold merge_left_only. induction left as [|l left IH]; [done|].
  rewrite fmap_cons. cbn [flat_map List.filter] in IH |- *. by rewrite IH.
Qed.

Lemma common_columns_self : common_columns columns columns = columns.
Proof. reflexivity. Qed.

Lemma union_columns_incl (a b : list string) c :
  c ∈ a ∨ c ∈ b → c ∈ union_columns a b.
Proof.
  unfold union_columns. rewrite elem_of_app, list_elem_of_filter.
  destruct (decide (c ∈ a)); naive_solver.
Qed.

End PandasFacts.

Section WorkListFacts.

Import Pandas.

Lemma filter_ext_in {A} (P1 P2 : A → Prop)
    `{!∀ x, Decision (P1 x), !∀ x, Decision (P2 x)} (l : list A) :
  (∀ x, x ∈ l → P1 x ↔ P2 x) → filter P1 l = filter P2 l.
Proof.
  induction l as [|a l IH]; intros Hiff; [done|].
  rewrite !filter_cons.
  assert (P1 a ↔ P2 a) as Ha by (apply Hiff; apply elem_of_cons; by left).
  rewrite IH by (intros x Hx; apply Hiff; apply elem_of_cons; by right).
  destruct (decide (P1 a)), (decide (P2 a)); tauto.
Qed.

Lemma elem_of_missing_specified todo (m : Frame) r :
  r ∈ missing_specified todo m ↔ r ∈ rows m ∧ ts r ∈ todo.
Proof.
  unfold missing_specified. rewrite list_elem_of_In, in_flat_map. split.
  - intros (curr_ts & Hin%list_elem_of_In & Hr%list_elem_of_In).
    unfold rows in *. apply list_elem_of_fmap in Hr as ([i r'] & -> & Hf).
    apply list_elem_of_filter in Hf as [Hts Hm]. simpl in *. subst curr_ts.
    split; [|done]. apply list_elem_of_fmap. by exists (i, r').
  - intros [Hr Hts]. exists (ts r). split; [by apply list_elem_of_In|].
    apply list_elem_of_In. unfold rows in *.
    apply list_elem_of_fmap in Hr as ([i r'] & -> & Hm).
    apply list_elem_of_fmap. exists (i, r'). split; [done|].
    apply list_elem_of_filter. by split.
Qed.

Lemma missing_specified_NoDup todo (m : Frame) :
  NoDup todo → NoDup (rows m) → NoDup (missing_specified todo m).
Proof.
  intros Htodo Hm. induction Htodo as [|x todo Hx Htodo IH].
  - constructor.
  - change (missing_specified (x :: todo) m)
      with (rows (filter (λ y, ts y.2 = x) m) ++ missing_specified todo m)%list.
    apply NoDup_app. split; [|split; [|done]].
    + eapply rows_NoDup_sublist; [apply sublist_filter | done].
    + intros r Hr Hr'. apply elem_of_missing_specified in Hr' as [_ Hts].
      unfold rows in Hr. apply list_elem_of_fmap in Hr as ([i r'] & -> & Hf).
      apply list_elem_of_filter in Hf as [Hts' _]. simpl in *. by subst x.
Qed.

Lemma elem_of_insert_sorted x y l :
  y ∈ insert_sorted x l ↔ y = x ∨ y ∈ l.
Proof.
  induction l as [|z l IH]; simpl.
  - rewrite list_elem_of_singleton, elem_of_nil. tauto.
  - destruct (x <=? z)%Z; rewrite !elem_of_cons; [tauto|].
    rewrite IH. tauto.
Qed.

Lemma elem_of_sort_values x l : x ∈ sort_values l ↔ x ∈ l.
Proof.
  unfold sort_values. induction l as [|z l IH]; simpl; [done|].
  rewrite elem_of_insert_sorted, IH, elem_of_cons. tauto.
Qed.

Lemma insert_sorted_sorted x l :
  StronglySorted Z.le l → StronglySorted Z.le (insert_sorted x l).
Proof.
  induction 1 as [|z l Hl IH Hz]; simpl.
  - repeat constructor.
  - destruct (x <=? z)%Z eqn:E.
    + apply Z.leb_le in E. constructor; [by constructor|].
      constructor; [done|]. eapply Forall_impl; [done|]. simpl. lia.
    + apply Z.leb_gt in E. constructor; [done|].
      apply Forall_forall. intros y [->|Hy]%elem_of_insert_sorted; [lia|].
      by eapply Forall_forall in Hz.
Qed.

Lemma sort_values_sorted l : StronglySorted Z.le (sort_values l).
Proof.
  unfold sort_values. induction l; simpl; [constructor|].
  by apply insert_sorted_sorted.
Qed.

Lemma unique_seen_sublist seen l : sublist (unique_seen seen l) l.
Proof.
  revert seen. induction l as [|x l IH]; intros seen; simpl; [constructor|].
  case_bool_decide; [apply sublist_cons | apply sublist_skip]; apply IH.
Qed.

Lemma elem_of_unique_seen seen l x :
  x ∈ unique_seen seen l ↔ x ∈ l ∧ x ∉ seen.
Proof.
  revert seen. induction l as [|y l IH]; intros seen; simpl.
  - rewrite elem_of_nil. tauto.
  - case_bool_decide as Hin.
    + rewrite IH, elem_of_cons. naive_solver.
    + rewrite !elem_of_cons, IH, elem_of_cons.
      destruct (decide (x = y)) as [->|?]; naive_solver.
Qed.

Lemma unique_seen_NoDup seen l : NoDup (unique_seen seen l).
Proof.
  revert seen. induction l as [|x l IH]; intros seen; simpl; [constructor|].
  case_bool_decide; [apply IH|]. constructor; [|apply IH].
  rewrite elem_of_unique_seen, elem_of_cons. naive_solver.
Qed.

Lemma elem_of_unique l x : x ∈ unique l ↔ x ∈ l.
Proof.
  unfold unique. rewrite elem_of_unique_seen, elem_of_nil. tauto.
Qed.

Lemma StronglySorted_sublist_le (l k : list Z) :
  sublist l k → StronglySorted Z.le k → StronglySorted Z.le l.
Proof.
  induction 1 as [|x l k Hs IH|x l k Hs IH]; intros Hk.
  - constructor.
  - apply StronglySorted_cons in Hk as [Hx Hk].
    constructor; [by apply IH|].
    apply Forall_forall. intros y Hy. eapply Forall_forall in Hx; [done|].
    by eapply sublist_subseteq.
  - apply StronglySorted_cons in Hk as [_ Hk]. by apply IH.
Qed.

Lemma StronglySorted_le_NoDup_lt (l : list Z) :
  StronglySorted Z.le l → NoDup l → StronglySorted Z.lt l.
Proof.
  induction 1 as [|x l Hl IH Hx]; intros Hnd; [constructor|].
  apply NoDup_cons in Hnd as [Hnin Hnd]. constructor; [by apply IH|].
  apply Forall_forall. intros y Hy.
  assert (x ≤ y)%Z by by eapply Forall_forall in Hx.
  assert (x ≠ y) by (intros ->; done). lia.
Qed.

(** Line 143: the work list is strictly ascending. *)
Lemma unique_sort_values_ascending l :
  StronglySorted Z.lt (unique (sort_values l)).
Proof.
  apply StronglySorted_le_NoDup_lt; [|apply unique_seen_NoDup].
  eapply StronglySorted_sublist_le; [apply unique_seen_sublist|].
  apply sort_values_sorted.
Qed.

End WorkListFacts.

(* ===================================================================== *)
(** ** Construction: the catalogue *)
(* ===================================================================== *)

Section Catalogue.

Import Pandas.

Lemma set_path_dict_same self : set_path_dict self (_path_dict self) = self.
Proof. by destruct self. Qed.

Lemma make_folders_spec self todo w :
  make_folders self todo w =
  (Ok (set_path_dict self
         (foldl (λ d x, <[x := subfolder_of self x]> d) (_path_dict self) todo)),
   mkWorld (files w) (yaml_docs w)
           (trace w ++ (EvMakedirs ∘ subfolder_of self <$> todo)) (logged w)).
Proof.
  revert self w. induction todo as [|x todo IH]; intros self w.
  - simpl. rewrite set_path_dict_same, app_nil_r. by destruct w.
  - cbn [make_folders]. unfold mbind, M_bind, os_makedirs, emit.
    rewrite IH. simpl. by rewrite <- app_assoc.
Qed.

Lemma collect_rows_spec self todo (l : list Row) :
  _recon_images self = range_index l →
  collect_rows self todo
  = set_recon_images self (range_index (l ++ (recon_row self <$> todo))).
Proof.
  revert self l. induction todo as [|x todo IH]; intros self l Hl.
  - simpl. rewrite app_nil_r, <- Hl. by destruct self.
  - cbn [collect_rows].
    rewrite (IH _ (l ++ [recon_row self x])%list).
    + rewrite <- app_assoc. by destruct self.
    + simpl. by rewrite Hl, rows_range_index.
Qed.

Lemma _get_internal_metadata_spec p mc sp w :
  _get_internal_metadata (blank p mc sp) w
  = (Ok (catalogued p mc sp),
     mkWorld (files w) (yaml_docs w)
             (trace w ++ (EvMakedirs ∘ catalog_folder sp <$> process_list sp))
             (logged w)).
Proof.
  unfold _get_internal_metadata. unfold mbind, M_bind at 1.
  rewrite make_folders_spec. simpl.
  unfold mret, M_ret. f_equal. f_equal.
  rewrite (collect_rows_spec _ _ []) by done. reflexivity.
Qed.

Lemma path_dict_lookup (sp : SystemParams) (d : gmap Z string) todo x :
  x ∈ todo →
  foldl (λ d x, <[x := catalog_folder sp x]> d) d todo !! x
  = Some (catalog_folder sp x).
Proof.
  revert d. induction todo as [|y todo IH] using rev_ind; intros d Hx.
  - by apply elem_of_nil in Hx.
  - rewrite foldl_app. simpl. destruct (decide (x = y)) as [->|Hne].
    + by rewrite lookup_insert_eq.
    + rewrite lookup_insert_ne by done. apply IH.
      apply elem_of_app in Hx as [?|Hx]; [done|].
      by apply list_elem_of_singleton in Hx.
Qed.

Lemma catalog_rows_NoDup sp :
  NoDup (process_list sp) → NoDup (catalog_row sp <$> process_list sp).
Proof.
  apply NoDup_fmap_2_strong. intros x y _ _ Heq.
  by apply (f_equal ts) in Heq.
Qed.

End Catalogue.

(* ===================================================================== *)
(** ** Reconciliation on aligned inputs *)
(* ===================================================================== *)

Section Reconciliation.

Import Pandas.

Lemma common_columns_missing_specified mc todo :
  todo ≠ [] →
  common_columns columns (missing_specified_columns mc todo) = columns.
Proof.
  intros Hne. unfold common_columns.
  assert (∀ c, c ∈ columns → c ∈ missing_specified_columns mc todo) as Hall.
  { unfold missing_specified_columns. intros c Hc.
    destruct todo as [|x todo] using rev_ind; [done|].
    rewrite foldl_app. simpl. apply union_columns_incl. by right. }
  unfold columns in *.
  rewrite !filter_cons_True, filter_nil; [done|apply Hall..];
    rewrite !elem_of_cons; tauto.
Qed.

Lemma missing_specified_columns_nil mc : missing_specified_columns mc [] = mc.
Proof. done. Qed.

Lemma prune_record_spec self (f : Frame) w :
  NoDup (process_list (params self)) →
  NoDup (rows f) →
  range_indexed f →
  (process_list (params self) = [] →
   common_columns columns (meta_columns self) ≠ []) →
  ∃ w', prune_record self f w
        = (Ok (loc (survives (isfile w) (process_list (params self))) f), w')
        ∧ only_logged w w'.
Proof.
  intros Hids Hnd Hidx Hkeys. unfold prune_record.
  case_bool_decide as Hlen.
  2:{ exists w. destruct f; [|simpl in Hlen; lia]. by split. }
  set (todo := process_list (params self)) in *.
  set (_missing := loc (λ r, negb (isfile w (recon_output r))) f).
  set (ms := missing_specified todo _missing).
  assert (NoDup ms) as Hms.
  { apply missing_specified_NoDup; [done|].
    eapply rows_NoDup_sublist; [apply loc_sublist|done]. }
  assert (∃ on, on ≠ [] ∧
            common_columns columns (missing_specified_columns (meta_columns self) todo) = on
            ∧ merge_left_only on (rows f) ms
              = (λ l, bool_decide (l ∉ ms)) <$> rows f) as (on & Hon & Hcc & Hmask).
  { destruct (decide (todo = [])) as [Hnil|Hnil].
    - exists (common_columns columns (meta_columns self)).
      split; [by apply Hkeys|]. split; [by rewrite Hnil|].
      assert (ms = []) as -> by (unfold ms; by rewrite Hnil).
      rewrite merge_left_only_nil. apply list_fmap_ext. intros _ l _.
      symmetry. apply bool_decide_eq_true_2. apply not_elem_of_nil.
    - exists columns. split; [done|].
      split; [by apply common_columns_missing_specified|].
      by apply merge_left_only_NoDup. }
  assert (loc (λ l, bool_decide (l ∉ ms)) f = loc (survives (isfile w) todo) f) as Hloc.
  { unfold loc. apply filter_ext_in. intros [i r] Hr. simpl.
    assert (r ∈ rows f) by (apply list_elem_of_fmap; by exists (i, r)).
    unfold survives. rewrite orb_True, !bool_decide_spec.
    unfold ms. rewrite elem_of_missing_specified.
    unfold _missing. rewrite elem_of_rows_loc, negb_true_iff.
    rewrite Is_true_true.
    destruct (isfile w (recon_output r)); [naive_solver|].
    destruct (decide (ts r ∈ todo)); naive_solver. }
  unfold mbind, M_bind, isfile_now, lift, merge_indicator.
  fold todo. fold _missing. fold ms.
  rewrite Hcc. destruct on as [|c on]; [done|].
  rewrite Hmask, getitem_bool_range, Hloc by done.
  case_bool_decide; simpl; eexists; (split; [reflexivity|by repeat split]).
Qed.

End Reconciliation.

Section WorkList.

Import Pandas.

Lemma set_no_processes_same self :
  set_no_processes self (no_processes self) = self.
Proof. by destruct self. Qed.

Lemma prune_work_spec self w :
  NoDup (rows (_recon_images self)) →
  range_indexed (_recon_images self) →
  let images := _recon_images self in
  let remaining := loc (unrecorded (meta_out self)) images in
  let ignored :=
    loc (λ r, isin (recon_output r) (recon_output <$> rows (meta_out self)))
        images in
  ∃ w', prune_work self w
        = (Ok (set_process_list
                 (set_recon_images
                    (set_no_processes self
                       (bool_decide (length ignored = length images)
                        || no_processes self))
                    remaining)
                 (unique (sort_values (ts <$> rows remaining)))), w')
        ∧ only_logged w w'.
Proof.
  intros Hnd Hidx images remaining ignored. unfold prune_work.
  fold images. fold ignored.
  assert (merge_indicator columns columns (rows images) (rows ignored)
          = Ok (unrecorded (meta_out self) <$> rows images)) as Hmask.
  { unfold merge_indicator. rewrite common_columns_self.
    change columns with ("ts" :: ["align_output"; "recon_output"]) at 1.
    cbv iota. f_equal.
    rewrite merge_left_only_NoDup
      by (eapply rows_NoDup_sublist; [apply loc_sublist|done]).
    apply list_fmap_ext. intros k r Hk. unfold unrecorded, ignored.
    assert (r ∈ rows images) by by eapply list_elem_of_lookup_2.
    apply eq_true_iff_eq. rewrite bool_decide_eq_true, negb_true_iff.
    rewrite elem_of_rows_loc.
    destruct (isin _ _); naive_solver. }
  assert (getitem_bool images (unrecorded (meta_out self) <$> rows images)
          = Ok remaining) as Hget by by apply getitem_bool_range.
  clearbody images remaining ignored.
  destruct (bool_decide (0 < length ignored)
            && bool_decide (length ignored < length images)) eqn:E1.
  - apply andb_true_iff in E1 as [_ E1%bool_decide_eq_true].
    rewrite bool_decide_eq_false_2 by lia.
    mstep. rewrite Hmask. mstep. rewrite Hget. mstep.
    rewrite orb_false_l, set_no_processes_same.
    eexists. split; [reflexivity|by repeat split].
  - destruct (decide (length ignored = length images)) as [E2|E2].
    + rewrite !(bool_decide_eq_true_2 (length ignored = length images)) by done.
      mstep. rewrite Hmask. mstep. rewrite Hget. mstep.
      eexists. split; [reflexivity|by repeat split].
    + rewrite !(bool_decide_eq_false_2 (length ignored = length images)) by done.
      mstep. rewrite Hmask. mstep. rewrite Hget. mstep.
      rewrite orb_false_l, set_no_processes_same.
      eexists. split; [reflexivity|by repeat split].
Qed.

End WorkList.

Section CheckReconned.

Import Pandas.

Lemma only_logged_refl w : only_logged w w.
Proof. by repeat split. Qed.

Lemma only_logged_trans w1 w2 w3 :
  only_logged w1 w2 → only_logged w2 w3 → only_logged w1 w3.
Proof. unfold only_logged. intros (-> & -> & ->) (-> & -> & ->). done. Qed.

Lemma only_logged_isfile w w' : only_logged w w' → isfile w' = isfile w.
Proof. unfold isfile. intros (-> & -> & _). done. Qed.

Lemma _check_reconned_images_spec self w :
  NoDup (process_list (params self)) →
  (isfile w (record_file self) = true →
   is_Some (yaml_docs w !! record_file self)) →
  range_indexed (loaded_record (proj_name self) w) →
  (process_list (params self) = [] →
   common_columns columns (meta_columns self) ≠ []) →
  NoDup (rows (_recon_images self)) →
  range_indexed (_recon_images self) →
  ∃ w', _check_reconned_images self w = (Ok (checked self w), w')
        ∧ only_logged w w'.
Proof.
  intros Hids Hparse Hnum Hkeys Hnd Hidx.
  assert (∃ doc, (if isfile w (record_file self)
                  then read_md_yaml (record_file self) else mret []) w
                 = (Ok doc, w)
                 ∧ drop_duplicates doc = loaded_record (proj_name self) w)
    as (doc & Hload & Hdoc).
  { unfold loaded_record. change (record_name (proj_name self))
      with (record_file self) in *.
    destruct (isfile w (record_file self)) eqn:E.
    - destruct Hparse as [doc Hdoc]; [done|]. exists doc.
      unfold read_md_yaml. by rewrite Hdoc.
    - exists []. split; [done|]. unfold isfile in E.
      apply orb_false_iff in E as [E _]. apply bool_decide_eq_false in E.
      destruct (yaml_docs w !! record_file self) eqn:E'; [|done].
      exfalso. apply E. by eexists. }
  destruct (prune_record_spec self (loaded_record (proj_name self) w) w)
    as (w1 & Hp & Hw1); [done|apply drop_duplicates_NoDup|done|done|].
  destruct (prune_work_spec
              (set_meta_out self
                 (loc (survives (isfile w) (process_list (params self)))
                    (loaded_record (proj_name self) w))) w1)
    as (w2 & Hq & Hw2); [done|done|].
  exists w2. split; [|by eapply only_logged_trans].
  unfold _check_reconned_images. mstep. mstep in Hload.
  rewrite Hload. mstep. rewrite Hdoc, Hp. mstep. rewrite Hq.
  reflexivity.
Qed.

End CheckReconned.

Section Construction.

Import Pandas.

Lemma catalogued_images_NoDup p mc sp :
  NoDup (process_list sp) → NoDup (rows (_recon_images (catalogued p mc sp))).
Proof.
  intros Hnd. simpl. rewrite rows_range_index. by apply catalog_rows_NoDup.
Qed.

Lemma catalogued_images_numbered p mc sp :
  range_indexed (_recon_images (catalogued p mc sp)).
Proof.
  unfold range_indexed. simpl.
  by rewrite index_range_index, length_range_index.
Qed.

(** [__init__] on aligned inputs: the object it returns, and what it
    does to the world. *)
Lemma __init___spec p mc sp w :
  aligned_inputs p mc sp w →
  ∃ w', __init__ p mc sp w = (Ok (reconciled p mc sp w), w')
        ∧ files w' = files w ∧ yaml_docs w' = yaml_docs w
        ∧ trace w' = (trace w ++ (EvMakedirs ∘ catalog_folder sp <$> process_list sp))%list.
Proof.
  intros [Hids Hparse Hnum Hkeys].
  set (w1 := mkWorld (files w) (yaml_docs w)
               (trace w ++ (EvMakedirs ∘ catalog_folder sp <$> process_list sp))
               (logged w)).
  destruct (_check_reconned_images_spec
              (set_process_list (catalogued p mc sp) (process_list sp)) w1)
    as (w2 & Hc & Hw2 & Hw2' & Hw2''); try done.
  - by apply catalogued_images_NoDup.
  - apply catalogued_images_numbered.
  - exists w2. split; [|by rewrite Hw2, Hw2', Hw2''].
    unfold __init__. mstep. rewrite _get_internal_metadata_spec. mstep.
    exact Hc.
Qed.

End Construction.

Section Inert.

Lemma same_fs_refl w : same_fs w w.
Proof. by split. Qed.

Lemma same_fs_trans w1 w2 w3 : same_fs w1 w2 → same_fs w2 w3 → same_fs w1 w3.
Proof. unfold same_fs. intros [-> ->] [-> ->]. by split. Qed.

Lemma same_fs_sym w1 w2 : same_fs w1 w2 → same_fs w2 w1.
Proof. unfold same_fs. intros [-> ->]. by split. Qed.

Lemma same_fs_isfile w w' : same_fs w w' → isfile w = isfile w'.
Proof. unfold isfile. intros [-> ->]. done. Qed.

Lemma inert_ret {A} (a : A) : inert (mret a).
Proof. split; [intros w; apply same_fs_refl | done]. Qed.

Lemma inert_lift {A} (r : Res A) : inert (lift r).
Proof. split; [intros w; apply same_fs_refl | done]. Qed.

Lemma inert_logObj msg : inert (logObj msg).
Proof. split; [intros w; by split | done]. Qed.

Lemma inert_emit e : inert (emit e).
Proof. split; [intros w; by split | done]. Qed.

Lemma inert_isfile_now : inert isfile_now.
Proof.
  split; [intros w; apply same_fs_refl|].
  intros w w' H. simpl. f_equal. by apply same_fs_isfile.
Qed.

Lemma inert_read_md_yaml name : inert (read_md_yaml name).
Proof.
  split; unfold read_md_yaml.
  - intros w. destruct (yaml_docs w !! name); apply same_fs_refl.
  - intros w w' [_ H]. rewrite H. by destruct (yaml_docs w' !! name).
Qed.

Lemma inert_bind {A B} (c : M A) (k : A → M B) :
  inert c → (∀ a, inert (k a)) → inert (c ≫= k).
Proof.
  intros [Hq Hs] Hk. split.
  - intros w. mstep. specialize (Hq w). destruct (c w) as [[a|e] w1]; [|done].
    eapply same_fs_trans; [exact Hq|]. apply (Hk a).
  - intros w w' Hw. mstep.
    pose proof (Hs w w' Hw) as Hr. pose proof (Hq w) as H1.
    pose proof (Hq w') as H2.
    destruct (c w) as [r w1], (c w') as [r' w1']. simpl in *. subst r'.
    destruct r as [a|e]; [|reflexivity]. apply (Hk a).
    eapply same_fs_trans; [apply same_fs_sym, H1|].
    exact (same_fs_trans _ _ _ Hw H2).
Qed.

Lemma inert_if {A} (b : bool) (c1 c2 : M A) :
  inert c1 → inert c2 → inert (if b then c1 else c2).
Proof. by destruct b. Qed.

Lemma inert_make_folders self todo : inert (make_folders self todo).
Proof.
  split; intros w; [|intros w' [Hf Hd]]; rewrite !make_folders_spec; done.
Qed.

Ltac inert :=
  repeat first
    [ apply inert_bind | apply inert_if | apply inert_ret | apply inert_lift
    | apply inert_logObj | apply inert_emit | apply inert_isfile_now
    | apply inert_read_md_yaml | apply inert_make_folders | intro ].

Lemma inert_prune_record self f : inert (prune_record self f).
Proof. unfold prune_record. inert. Qed.

Lemma inert_prune_work self : inert (prune_work self).
Proof. unfold prune_work. inert. Qed.

Lemma inert__check_reconned_images self : inert (_check_reconned_images self).
Proof.
  unfold _check_reconned_images.
  repeat first [apply inert_prune_record | apply inert_prune_work | inert].
Qed.

Lemma inert___init__ p mc sp : inert (__init__ p mc sp).
Proof.
  unfold __init__, _get_internal_metadata.
  repeat first [apply inert__check_reconned_images | inert].
Qed.

Lemma inert_again {A} (c : M A) w : inert c → (c (c w).2).1 = (c w).1.
Proof. intros [Hq Hs]. symmetry. apply Hs, Hq. Qed.

End Inert.

(* ===================================================================== *)
(** ** Whatever the inputs: what a returned object looks like *)
(* ===================================================================== *)

Section AnyResult.

Import Pandas.

Lemma same_config_refl s : same_config s s.
Proof. by repeat split. Qed.

Lemma same_config_trans s1 s2 s3 :
  same_config s1 s2 → same_config s2 s3 → same_config s1 s3.
Proof.
  unfold same_config. intros (-> & -> & -> & -> & -> & ->) H. exact H.
Qed.

Lemma prune_record_ok self (f g : Frame) w w' :
  prune_record self f w = (Ok g, w') → sublist g f ∧ only_logged w w'.
Proof.
  unfold prune_record. case_bool_decide.
  2:{ intros [= <- <-]. split; [done|apply only_logged_refl]. }
  mstep. destruct (merge_indicator _ _ _ _) as [mask|]; [|done].
  destruct (getitem_bool f mask) as [kept|] eqn:E; [|done].
  apply getitem_bool_sublist in E.
  case_bool_decide; intros [= <- <-]; (split; [done|by repeat split]).
Qed.

Lemma prune_work_ok self s w w' :
  prune_work self w = (Ok s, w') →
  sublist (_recon_images s) (_recon_images self)
  ∧ _process_list s = unique (sort_values (ts <$> rows (_recon_images s)))
  ∧ meta_out s = meta_out self
  ∧ same_config self s
  ∧ only_logged w w'.
Proof.
  unfold prune_work.
  set (images := _recon_images self). set (ignored := loc _ images).
  destruct (bool_decide (0 < length ignored)
            && bool_decide (length ignored < length images)); mstep.
  2: destruct (bool_decide (length ignored = length images)); mstep.
  all: destruct (merge_indicator _ _ _ _) as [mask|]; [|done].
  all: destruct (getitem_bool images mask) as [kept|] eqn:E; [|done].
  all: apply getitem_bool_sublist in E.
  all: intros [= <- <-]; simpl; by repeat split.
Qed.

Lemma _check_reconned_images_ok self s w w' :
  _check_reconned_images self w = (Ok s, w') →
  NoDup (rows (meta_out s))
  ∧ sublist (_recon_images s) (_recon_images self)
  ∧ _process_list s = unique (sort_values (ts <$> rows (_recon_images s)))
  ∧ same_config self s
  ∧ only_logged w w'.
Proof.
  unfold _check_reconned_images. mstep.
  destruct ((if isfile w (record_file self)
             then read_md_yaml (record_file self) else _) w)
    as [[loaded|] w0] eqn:Hl; [|done].
  assert (only_logged w w0) as H0.
  { destruct (isfile w (record_file self)).
    - unfold read_md_yaml in Hl.
      destruct (yaml_docs w !! record_file self); [|done].
      injection Hl as _ <-. apply only_logged_refl.
    - injection Hl as _ <-. apply only_logged_refl. }
  destruct (prune_record self (drop_duplicates loaded) w0) as [[pruned|] w1] eqn:Hp;
    [|done].
  apply prune_record_ok in Hp as [Hsub H1].
  intros (Hi & Hl' & Hm & Hc & H2)%prune_work_ok. simpl in *.
  split; [|split; [done|split; [done|split; [done|]]]].
  - rewrite Hm. eapply rows_NoDup_sublist; [done|]. apply drop_duplicates_NoDup.
  - eapply only_logged_trans; [|done]. by eapply only_logged_trans.
Qed.

Lemma __init___ok p mc sp s w w' :
  __init__ p mc sp w = (Ok s, w') →
  NoDup (rows (meta_out s))
  ∧ sublist (_recon_images s)
            (range_index (catalog_row sp <$> process_list sp))
  ∧ _process_list s = unique (sort_values (ts <$> rows (_recon_images s)))
  ∧ same_config (catalogued p mc sp) s
  ∧ files w' = files w ∧ yaml_docs w' = yaml_docs w
  ∧ trace w' = (trace w ++ (EvMakedirs ∘ catalog_folder sp <$> process_list sp))%list.
Proof.
  unfold __init__. mstep. rewrite _get_internal_metadata_spec. mstep.
  intros H. apply _check_reconned_images_ok in H
    as (Hnd & Hsub & Hpl & Hc & Hf & Hd & Ht).
  simpl in *. split; [done|split; [done|split; [done|split; [exact Hc|done]]]].
Qed.

(** Every id of the work list was requested, so its folder is known. *)
Lemma __init___work_list_requested p mc sp s w w' x :
  __init__ p mc sp w = (Ok s, w') →
  x ∈ _process_list s → x ∈ process_list sp.
Proof.
  intros H. apply __init___ok in H as (_ & Hsub & -> & _).
  rewrite elem_of_unique, elem_of_sort_values.
  intros (r & -> & Hr)%list_elem_of_fmap.
  apply rows_sublist in Hsub. rewrite rows_range_index in Hsub.
  eapply sublist_subseteq in Hr; [|exact Hsub].
  apply list_elem_of_fmap in Hr as (y & -> & Hy). exact Hy.
Qed.

End AnyResult.

(* ===================================================================== *)
(** ** The execution loop *)
(* ===================================================================== *)

Section Loop.

Import Pandas.

Variable cpu_count : nat.
Variable tool : World → list string → ToolOutcome.
Variable il : string → string → string.

Lemma runs_app t1 t2 : runs (t1 ++ t2) = (runs t1 ++ runs t2)%list.
Proof.
  induction t1 as [|[] t1 IH]; simpl; [done|..]; by rewrite IH.
Qed.

Lemma dumps_app t1 t2 : dumps (t1 ++ t2) = (dumps t1 ++ dumps t2)%list.
Proof.
  induction t1 as [|[] t1 IH]; simpl; [done|..]; by rewrite IH.
Qed.

(** One turn of the loop, whatever the tool reports. *)
Lemma recon_loop_cons self x todo w location :
  _path_dict self !! x = Some location →
  let cmd := brt_command cpu_count (rootname self) x location in
  let o := tool w cmd in
  let w_run := (subprocess_run tool il cmd w).2 in
  let record :=
    drop_duplicates
      (append_ignore_index (meta_out self)
         (loc (λ r, isfile w_run (recon_output r)) (_recon_images self))) in
  recon_loop cpu_count tool il self (x :: todo) w
  = recon_loop cpu_count tool il
      (set_meta_out
         (set_recon_images
            (set_stdout self (Some (il (to_stdout o) (to_stderr o))))
            (loc (λ r, negb (isfile w_run (recon_output r))) (_recon_images self)))
         record)
      todo
      (mkWorld (files_after o)
               (<[record_file self := record]> (yaml_docs w))
               (trace w ++ [EvRun cmd; EvDump (record_file self) record])
               (logged w)).
Proof.
  intros Hloc. cbn [recon_loop]. unfold _get_brt_recon_command.
  rewrite Hloc. mstep. cbn [subprocess_run cp_stderr truthy].
  unfold update_recon_metadata, export_metadata. mstep.
  cbn [meta_out _recon_images set_meta_out set_recon_images set_stdout
       files yaml_docs trace logged record_file proj_name].
  rewrite <- app_assoc. reflexivity.
Qed.

(** What the loop maintains, when it returns. *)
Lemma recon_loop_ok self todo w s w' :
  recon_loop cpu_count tool il self todo w = (Ok s, w') →
  same_config self s
  ∧ (NoDup (rows (meta_out self)) → NoDup (rows (meta_out s)))
  ∧ ∃ new, dumps (trace w') = (dumps (trace w) ++ new)%list
           ∧ Forall (λ d, NoDup (rows d)) new.
Proof.
  revert self w. induction todo as [|x todo IH]; intros self w.
  - intros [= <- <-]. split; [apply same_config_refl|]. split; [done|].
    exists []. by rewrite app_nil_r.
  - destruct (_path_dict self !! x) as [location|] eqn:Hloc.
    2:{ cbn [recon_loop]. unfold _get_brt_recon_command. rewrite Hloc.
        mstep. done. }
    rewrite (recon_loop_cons _ _ _ _ _ Hloc).
    intros (Hc & Hnd & new & Hd & Hnew)%IH. split; [|split].
    + eapply same_config_trans; [|exact Hc]. by repeat split.
    + intros _. apply Hnd. simpl. apply drop_duplicates_NoDup.
    + simpl in Hd. rewrite dumps_app in Hd. simpl in Hd.
      eexists. rewrite Hd, <- app_assoc. split; [reflexivity|].
      simpl. constructor; [apply drop_duplicates_NoDup|done].
Qed.

(** The loop never raises once every folder is known: the test on the
    tool's error stream cannot succeed, since that stream was merged
    into the output. *)
Lemma recon_loop_total self todo w :
  (∀ x, x ∈ todo → is_Some (_path_dict self !! x)) →
  ∃ s w', recon_loop cpu_count tool il self todo w = (Ok s, w')
          ∧ runs (trace w')
            = (runs (trace w)
               ++ ((λ x, brt_command cpu_count (rootname self) x
                           (default "" (_path_dict self !! x))) <$> todo))%list.
Proof.
  revert self w. induction todo as [|x todo IH]; intros self w Hp.
  - exists self, w. simpl. by rewrite app_nil_r.
  - destruct (Hp x) as [location Hloc]; [apply elem_of_cons; by left|].
    rewrite (recon_loop_cons _ _ _ _ _ Hloc).
    match goal with
    | |- ∃ s w', recon_loop _ _ _ ?s1 _ ?w1 = _ ∧ _ =>
        destruct (IH s1 w1) as (s & w' & Hl & Hr)
    end.
    + intros y Hy. simpl. apply Hp. apply elem_of_cons. by right.
    + exists s, w'. split; [exact Hl|].
      rewrite Hr. simpl. rewrite runs_app. simpl.
      rewrite Hloc. simpl. by rewrite <- app_assoc.
Qed.

End Loop.

(* ===================================================================== *)
(** ** The naming convention tells ids apart *)
(* ===================================================================== *)

Section Naming.

Lemma to_uint_nonnil n : N.to_uint n ≠ Decimal.Nil.
Proof.
  rewrite <- (DecimalN.Unsigned.of_to n) at 1.
  rewrite DecimalN.Unsigned.to_of. apply DecimalFacts.unorm_nonnil.
Qed.

Lemma digits_nil_empty n :
  PyStr.digits n = NilEmpty.string_of_uint (N.to_uint n).
Proof.
  unfold PyStr.digits, NilZero.string_of_uint.
  pose proof (to_uint_nonnil n). by destruct (N.to_uint n).
Qed.

Lemma zeros_string_of_uint k u :
  PyStr.zeros k +:+ NilEmpty.string_of_uint u
  = NilEmpty.string_of_uint (Nat.iter k Decimal.D0 u).
Proof.
  induction k as [|k IH]; [done|].
  change (PyStr.zeros (S k) +:+ NilEmpty.string_of_uint u)
    with (String "0" (PyStr.zeros k +:+ NilEmpty.string_of_uint u)).
  by rewrite IH.
Qed.

Lemma of_uint_iter_D0 k u :
  Z.of_uint (Nat.iter k Decimal.D0 u) = Z.of_uint u.
Proof. induction k as [|k IH]; simpl; [done|]. exact IH. Qed.

Lemma of_uint_to_uint n : Z.of_uint (N.to_uint n) = Z.of_N n.
Proof.
  unfold Z.of_uint. f_equal. apply DecimalN.Unsigned.of_to.
Qed.

(** Zero padding does not change the number that is read back. *)
Lemma read_int_format_0wd w z : read_int (PyStr.format_0wd w z) = Some z.
Proof.
  unfold read_int, PyStr.format_0wd, PyStr.zero_pad.
  destruct (Z.ltb_spec z 0) as [Hneg|Hpos];
    rewrite digits_nil_empty, zeros_string_of_uint.
  - match goal with
    | |- context [NilEmpty.string_of_uint ?u] =>
        change ("-" +:+ NilEmpty.string_of_uint u)
          with (NilEmpty.string_of_int (Decimal.Neg u))
    end.
    rewrite NilEmpty.isi. simpl.
    rewrite of_uint_iter_D0, of_uint_to_uint. f_equal. lia.
  - match goal with
    | |- context [NilEmpty.string_of_uint ?u] =>
        change (NilEmpty.string_of_uint u)
          with (NilEmpty.string_of_int (Decimal.Pos u))
    end.
    rewrite NilEmpty.isi. simpl.
    rewrite of_uint_iter_D0, of_uint_to_uint. f_equal. lia.
Qed.

Lemma format_02d_inj x y : PyStr.format_02d x = PyStr.format_02d y → x = y.
Proof.
  intros H. apply (f_equal read_int) in H.
  unfold PyStr.format_02d in H. rewrite !read_int_format_0wd in H.
  by injection H.
Qed.

Lemma string_app_cons c (a b : string) : String c a +:+ b = String c (a +:+ b).
Proof. reflexivity. Qed.

Lemma string_app_inv_head (s a b : string) : s +:+ a = s +:+ b → a = b.
Proof. apply String.app_inj. Qed.

Lemma string_length_app (a b : string) :
  String.length (a +:+ b) = String.length a + String.length b.
Proof.
  induction a as [|c a IH]; [done|].
  rewrite string_app_cons. simpl. by rewrite IH.
Qed.

Lemma string_app_inv_prefix (a b c d : string) :
  String.length a = String.length c → a +:+ b = c +:+ d → a = c.
Proof.
  revert c. induction a as [|x a IH]; intros [|y c]; simpl; try done.
  rewrite !string_app_cons. intros [= Hlen] [= -> H]. f_equal. by eapply IH.
Qed.

Lemma string_app_assoc (a b c : string) : (a +:+ b) +:+ c = a +:+ b +:+ c.
Proof.
  induction a as [|x a IH]; [done|]. rewrite !string_app_cons. by rewrite IH.
Qed.

(** Two ids never share a reconstruction path. *)
Lemma recon_output_inj basis root suff x y :
  recon_output (series_of basis root suff x)
  = recon_output (series_of basis root suff y) →
  x = y.
Proof.
  unfold series_of, subfolder_name. simpl. rewrite !string_app_assoc.
  intros H. do 4 apply string_app_inv_head in H.
  apply format_02d_inj. eapply string_app_inv_prefix; [|exact H].
  apply (f_equal String.length) in H.
  repeat (rewrite !string_length_app in H; simpl in H). lia.
Qed.

End Naming.

(* ===================================================================== *)
(** ** Reconciliation: the properties of the specification *)
(* ===================================================================== *)

Section ReconciliationClaims.

Import Pandas.

Lemma reconciled_meta_out p mc sp w :
  meta_out (reconciled p mc sp w)
  = loc (survives (isfile w) (process_list sp)) (loaded_record p w).
Proof. reflexivity. Qed.

Lemma reconciled_recon_images p mc sp w :
  _recon_images (reconciled p mc sp w)
  = loc (unrecorded (meta_out (reconciled p mc sp w)))
        (range_index (catalog_row sp <$> process_list sp)).
Proof. reflexivity. Qed.

Lemma reconciled_process_list p mc sp w :
  _process_list (reconciled p mc sp w)
  = unique (sort_values (ts <$> rows (_recon_images (reconciled p mc sp w)))).
Proof. reflexivity. Qed.

Lemma elem_of_reconciled_meta_out p mc sp w r :
  r ∈ rows (meta_out (reconciled p mc sp w))
  ↔ r ∈ rows (loaded_record p w)
    ∧ (isfile w (recon_output r) = true ∨ ts r ∉ process_list sp).
Proof.
  rewrite reconciled_meta_out, elem_of_rows_loc. unfold survives.
  rewrite orb_true_iff, bool_decide_eq_true. done.
Qed.

(** A requested id stays in the work list exactly when its
    reconstruction path is not a recorded one. *)
Lemma elem_of_reconciled_process_list p mc sp w x :
  x ∈ process_list sp →
  x ∈ _process_list (reconciled p mc sp w)
  ↔ recon_output (catalog_row sp x)
      ∉ recon_output <$> rows (meta_out (reconciled p mc sp w)).
Proof.
  intros Hx. rewrite reconciled_process_list, elem_of_unique, elem_of_sort_values.
  rewrite reconciled_recon_images. split.
  - intros (r & -> & Hr)%list_elem_of_fmap.
    apply elem_of_rows_loc in Hr as [Hr Hun].
    rewrite rows_range_index in Hr.
    apply list_elem_of_fmap in Hr as (y & -> & Hy). simpl.
    unfold unrecorded, isin in Hun.
    apply negb_true_iff, bool_decide_eq_false in Hun. exact Hun.
  - intros Hun. apply list_elem_of_fmap. exists (catalog_row sp x).
    split; [done|]. apply elem_of_rows_loc. split.
    + rewrite rows_range_index. apply list_elem_of_fmap. by exists x.
    + unfold unrecorded, isin. by apply negb_true_iff, bool_decide_eq_false.
Qed.

(** No double-processing where the masks line up: on aligned inputs, a
    requested item whose two output files exist and whose two output
    paths are held by a row of the loaded record is absent from the
    work list reconciliation returns. *)
Theorem no_double_processing p mc sp w x :
  aligned_inputs p mc sp w →
  x ∈ process_list sp →
  isfile w (align_output (catalog_row sp x)) = true →
  isfile w (recon_output (catalog_row sp x)) = true →
  (∃ r, r ∈ rows (loaded_record p w)
        ∧ align_output r = align_output (catalog_row sp x)
        ∧ recon_output r = recon_output (catalog_row sp x)) →
  ∃ s w', __init__ p mc sp w = (Ok s, w') ∧ x ∉ _process_list s.
Proof.
  intros Hal Hx _ Hrec (r & Hr & _ & Hpath).
  destruct (__init___spec p mc sp w Hal) as (w' & Hinit & _).
  exists (reconciled p mc sp w), w'. split; [done|].
  rewrite elem_of_reconciled_process_list by done.
  intros Hnot. apply Hnot. apply list_elem_of_fmap. exists r.
  split; [done|]. apply elem_of_reconciled_meta_out.
  split; [done|]. left. by rewrite Hpath.
Qed.

(** C3, as amended: on aligned inputs, a requested item is dropped from
    the work list exactly when its reconstruction path equals the
    [recon_output] of a row of the pruned record; the aligned path is
    not looked at. *)
Theorem satisfied_by_recon_path p mc sp w :
  aligned_inputs p mc sp w →
  ∃ s w', __init__ p mc sp w = (Ok s, w')
          ∧ ∀ x, x ∈ process_list sp →
                 (x ∉ _process_list s
                  ↔ recon_output (catalog_row sp x)
                      ∈ recon_output <$> rows (meta_out s)).
Proof.
  intros Hal. destruct (__init___spec p mc sp w Hal) as (w' & Hinit & _).
  exists (reconciled p mc sp w), w'. split; [done|]. intros x Hx.
  rewrite elem_of_reconciled_process_list by done.
  split; [apply dec_stable | tauto].
Qed.

(** C1, as amended: on aligned inputs, Pass 1 drops from the loaded
    record exactly the rows whose reconstruction file is missing and
    whose id is requested; rows of ids that are not requested stay, in
    their order.  When the rows of the record hold the reconstruction
    paths derived for their ids, the id of every dropped row is back in
    the work list. *)
Theorem stale_rows_of_requested_ids_pruned p mc sp w :
  aligned_inputs p mc sp w →
  ∃ s w', __init__ p mc sp w = (Ok s, w')
    ∧ (∀ r, r ∈ rows (meta_out s)
            ↔ r ∈ rows (loaded_record p w)
              ∧ ¬ (isfile w (recon_output r) = false ∧ ts r ∈ process_list sp))
    ∧ sublist (meta_out s) (loaded_record p w)
    ∧ ((∀ r, r ∈ rows (loaded_record p w) →
             recon_output r = recon_output (catalog_row sp (ts r))) →
       ∀ r, r ∈ rows (loaded_record p w) →
            isfile w (recon_output r) = false →
            ts r ∈ process_list sp →
            ts r ∈ _process_list s).
Proof.
  intros Hal. destruct (__init___spec p mc sp w Hal) as (w' & Hinit & _).
  exists (reconciled p mc sp w), w'. split; [done|]. split; [|split].
  - intros r. rewrite elem_of_reconciled_meta_out.
    destruct (isfile w (recon_output r)),
      (decide (ts r ∈ process_list sp)); naive_solver.
  - rewrite reconciled_meta_out. apply loc_sublist.
  - intros Hnamed r Hr Hgone Hreq.
    rewrite elem_of_reconciled_process_list by done.
    intros (r' & Heq & Hr')%list_elem_of_fmap.
    apply elem_of_reconciled_meta_out in Hr' as [Hr' Hkeep].
    assert (ts r' = ts r) as Hsame.
    { rewrite (Hnamed r' Hr') in Heq. symmetry.
      by eapply recon_output_inj. }
    rewrite <- (Hnamed r Hr) in Heq.
    destruct Hkeep as [Hthere|Hout].
    + rewrite <- Heq in Hthere. congruence.
    + apply Hout. by rewrite Hsame.
Qed.

End ReconciliationClaims.

Section RerunClaims.

Import Pandas.

(** C5 (idempotence of reconciliation): with the requested ids, the
    record file and the files on disk left as they are, running the
    reconciliation a second time, in the world the first run leaves,
    gives the same outcome as the first run: the same object, hence the
    same pruned record and the same work list.  This holds for
    [_check_reconned_images] started from the same object and for the
    whole construction. *)
Theorem reconciliation_idempotent :
  (∀ self w,
     (_check_reconned_images self (_check_reconned_images self w).2).1
     = (_check_reconned_images self w).1)
  ∧ (∀ p mc sp w,
       (__init__ p mc sp (__init__ p mc sp w).2).1 = (__init__ p mc sp w).1).
Proof.
  split; intros.
  - apply inert_again, inert__check_reconned_images.
  - apply inert_again, inert___init__.
Qed.

Lemma loc_nothing (f : Frame) : loc (λ _, false) f = [].
Proof. unfold loc. induction f as [|x f IH]; [done|]. by rewrite filter_cons. Qed.

Lemma loc_everything (f : Frame) : loc (λ _, true) f = f.
Proof.
  unfold loc. induction f as [|x f IH]; [done|].
  rewrite filter_cons_True by done. by rewrite IH.
Qed.

Lemma _check_reconned_images_first_run self w :
  isfile w (record_file self) = false →
  _check_reconned_images self w = prune_work (set_meta_out self []) w.
Proof.
  intros Hnone. unfold _check_reconned_images. mstep. rewrite Hnone. mstep.
  reflexivity.
Qed.

Lemma prune_work_first_run self w :
  meta_out self = [] →
  range_indexed (_recon_images self) →
  ∃ w', prune_work self w
        = (Ok (set_process_list
                 (set_no_processes self
                    (bool_decide (_recon_images self = []) || no_processes self))
                 (unique (sort_values (ts <$> rows (_recon_images self))))), w')
        ∧ only_logged w w'.
Proof.
  intros Hrec Hidx. unfold prune_work. rewrite Hrec.
  set (images := _recon_images self) in *.
  assert (loc (λ r, isin (recon_output r) (recon_output <$> rows [])) images = [])
    as ->.
  { etrans; [|apply (loc_nothing images)]. unfold loc. apply list_filter_iff.
    intros [i r]. unfold isin. cbn [rows fmap list_fmap snd].
    rewrite bool_decide_eq_false_2 by apply not_elem_of_nil. done. }
  assert (merge_indicator columns columns (rows images) (rows [])
          = Ok ((λ _, true) <$> rows images)) as Hmask.
  { unfold merge_indicator. rewrite common_columns_self.
    change columns with ("ts" :: ["align_output"; "recon_output"]) at 1.
    cbv iota. by rewrite merge_left_only_nil. }
  assert (getitem_bool images ((λ _, true) <$> rows images) = Ok images) as Hget.
  { by rewrite getitem_bool_range, loc_everything. }
  assert (∀ b, set_recon_images (set_no_processes self b) images
               = set_no_processes self b) as Hsame
    by (intros b; by destruct self).
  change (length []) with 0.
  rewrite (bool_decide_eq_false_2 (0 < 0)) by lia. cbn [andb].
  destruct (decide (images = [])) as [Hnil|Hnil].
  - rewrite (bool_decide_eq_true_2 (0 = length images))
      by (by rewrite Hnil).
    rewrite (bool_decide_eq_true_2 (images = [])) by done.
    mstep. rewrite Hmask. mstep. rewrite Hget. mstep. rewrite Hsame.
    eexists. split; [reflexivity|by repeat split].
  - rewrite (bool_decide_eq_false_2 (0 = length images))
      by (destruct images; [done|simpl; lia]).
    rewrite (bool_decide_eq_false_2 (images = [])) by done.
    mstep. rewrite Hmask. mstep. rewrite Hget. mstep.
    rewrite <- (Hsame (false || no_processes self)).
    rewrite orb_false_l, set_no_processes_same.
    eexists. split; [reflexivity|apply only_logged_refl].
Qed.

Lemma __init___first_run p mc sp w :
  isfile w (record_name p) = false →
  ∃ w', __init__ p mc sp w
        = (Ok (mkRecon p sp mc (basis_of sp) (rootname_of sp) (suffix_of sp)
                 (foldl (λ d x, <[x := catalog_folder sp x]> d) ∅ (process_list sp))
                 (range_index (catalog_row sp <$> process_list sp))
                 [] (bool_decide (process_list sp = []))
                 (unique (sort_values (process_list sp))) None), w')
        ∧ files w' = files w ∧ yaml_docs w' = yaml_docs w
        ∧ trace w' = (trace w ++ (EvMakedirs ∘ catalog_folder sp <$> process_list sp))%list.
Proof.
  intros Hnone. unfold __init__. mstep.
  rewrite _get_internal_metadata_spec. mstep.
  rewrite _check_reconned_images_first_run by exact Hnone.
  match goal with
  | |- ∃ w', prune_work ?s ?w1 = _ ∧ _ =>
      destruct (prune_work_first_run s w1) as (w' & Hw & Hf & Hd & Ht);
        [done|apply catalogued_images_numbered|]
  end.
  exists w'. simpl in Hf, Hd, Ht. split; [|by rewrite Hf, Hd, Ht].
  rewrite Hw. unfold catalogued. simpl.
  rewrite rows_range_index, <- list_fmap_compose, orb_false_r.
  assert (ts ∘ catalog_row sp <$> process_list sp = process_list sp) as ->
    by apply list_fmap_id.
  rewrite (bool_decide_ext
             (range_index (catalog_row sp <$> process_list sp) = [])
             (process_list sp = [])); [reflexivity|].
  unfold range_index. destruct (process_list sp); simpl; split; done.
Qed.

End RerunClaims.

Section NamingClaims.

Lemma endswith_app_char s c : PyStr.endswith (s +:+ String c "") c = true.
Proof.
  induction s as [|a s IH]; simpl.
  - apply Ascii.eqb_refl.
  - destruct (s +:+ String c "") eqn:E; [by destruct s|]. exact IH.
Qed.

Lemma drop_last_app_char s c : PyStr.drop_last (s +:+ String c "") = s.
Proof.
  induction s as [|a s IH]; simpl; [done|].
  destruct (s +:+ String c "") eqn:E; [by destruct s|]. by rewrite IH.
Qed.

(** Exactly one trailing separator goes, whatever precedes it. *)
Lemma strip_trailing_app_char s c :
  PyStr.strip_trailing c (s +:+ String c "") = s.
Proof.
  unfold PyStr.strip_trailing.
  by rewrite endswith_app_char, drop_last_app_char.
Qed.

Lemma strip_trailing_with_trailing b s c :
  PyStr.endswith s c = false →
  PyStr.strip_trailing c (with_trailing b s c) = s.
Proof.
  intros H. destruct b; simpl.
  - apply strip_trailing_app_char.
  - unfold PyStr.strip_trailing. by rewrite H.
Qed.

Lemma foldl_insert_ext (f g : Z → string) (l : list Z) (d : gmap Z string) :
  (∀ x, f x = g x) →
  foldl (λ d x, <[x := f x]> d) d l = foldl (λ d x, <[x := g x]> d) d l.
Proof.
  intros Hfg. revert d. induction l as [|x l IH]; intros d; simpl; [done|].
  rewrite Hfg. apply IH.
Qed.

(** C10, as amended: the configured output path loses one trailing
    ['/'], the root name and the suffix one trailing ['_'], and no more,
    before any path is composed; so a configuration whose components do
    not end in their separator and its variants with one such separator
    appended derive, for every id, the same folder and the same two
    file paths, and [_get_internal_metadata] builds the same path
    dictionary and the same catalogue and creates the same folders. *)
Theorem trailing_separator_irrelevant
    (bp rn sf : string) (ids : list Z) (b1 b2 b3 : bool) p mc w :
  PyStr.endswith bp "/" = false →
  PyStr.endswith rn "_" = false →
  PyStr.endswith sf "_" = false →
  let sp := mkSystem bp rn sf ids in
  let sp' := mkSystem (with_trailing b1 bp "/") (with_trailing b2 rn "_")
               (with_trailing b3 sf "_") ids in
  (∀ s c, PyStr.strip_trailing c (s +:+ String c "") = s)
  ∧ (∀ x, catalog_folder sp' x = subfolder_name bp rn sf x
          ∧ catalog_row sp' x = series_of bp rn sf x)
  ∧ ∃ r r' w1,
      _get_internal_metadata (blank p mc sp) w = (Ok r, w1)
      ∧ _get_internal_metadata (blank p mc sp') w = (Ok r', w1)
      ∧ _path_dict r' = _path_dict r
      ∧ _recon_images r' = _recon_images r
      ∧ (∀ x, subfolder_of r' x = subfolder_of r x
              ∧ recon_row r' x = recon_row r x).
Proof.
  intros Hbp Hrn Hsf sp sp'.
  assert (basis_of sp' = bp ∧ rootname_of sp' = rn ∧ suffix_of sp' = sf)
    as (Eb & Er & Es).
  { unfold basis_of, rootname_of, suffix_of, sp'. simpl.
    by rewrite !strip_trailing_with_trailing. }
  assert (basis_of sp = bp ∧ rootname_of sp = rn ∧ suffix_of sp = sf)
    as (Eb' & Er' & Es').
  { unfold basis_of, rootname_of, suffix_of, sp, PyStr.strip_trailing. simpl.
    by rewrite Hbp, Hrn, Hsf. }
  split; [apply strip_trailing_app_char|]. split.
  - intros x. unfold catalog_folder, catalog_row. by rewrite Eb, Er, Es.
  - rewrite !_get_internal_metadata_spec.
    assert (∀ x, catalog_folder sp' x = catalog_folder sp x) as Hf.
    { intros x. unfold catalog_folder. by rewrite Eb, Er, Es, Eb', Er', Es'. }
    assert (∀ x, catalog_row sp' x = catalog_row sp x) as Hr.
    { intros x. unfold catalog_row. by rewrite Eb, Er, Es, Eb', Er', Es'. }
    assert ((EvMakedirs ∘ catalog_folder sp' <$> ids)
            = (EvMakedirs ∘ catalog_folder sp <$> ids)) as Hev.
    { apply list_fmap_ext. intros _ x _. simpl. by rewrite Hf. }
    assert (∀ d : gmap Z string,
              foldl (λ d x, <[x := catalog_folder sp' x]> d) d ids
              = foldl (λ d x, <[x := catalog_folder sp x]> d) d ids) as Hd.
    { intros d. by apply foldl_insert_ext. }
    exists (catalogued p mc sp), (catalogued p mc sp'). eexists.
    split; [reflexivity|]. split; [|split; [|split]].
    + simpl process_list. by rewrite Hev.
    + simpl. apply Hd.
    + simpl. f_equal. apply list_fmap_ext. intros _ x _. apply Hr.
    + intros x. unfold subfolder_of, recon_row. simpl.
      by rewrite Eb, Er, Es, Eb', Er', Es'.
Qed.

End NamingClaims.

Section LoopClaims.

Import Pandas.

Variable cpu_count : nat.
Variable tool : World → list string → ToolOutcome.
Variable il : string → string → string.

(** One turn of the loop on a record and a work list that are free of
    duplicates and share no reconstruction path. *)
Lemma recon_loop_turn self x todo w location :
  _path_dict self !! x = Some location →
  NoDup (rows (meta_out self)) →
  NoDup (rows (_recon_images self)) →
  (∀ r, r ∈ rows (_recon_images self) → unrecorded (meta_out self) r = true) →
  let cmd := brt_command cpu_count (rootname self) x location in
  let w_run := (subprocess_run tool il cmd w).2 in
  ∃ self1 w1,
    recon_loop cpu_count tool il self (x :: todo) w
    = recon_loop cpu_count tool il self1 todo w1
    ∧ same_config self self1
    ∧ rows (meta_out self1)
      = (rows (meta_out self)
         ++ rows (loc (λ r, isfile w_run (recon_output r)) (_recon_images self)))%list
    ∧ _recon_images self1
      = loc (λ r, negb (isfile w_run (recon_output r))) (_recon_images self)
    ∧ yaml_docs w1 !! record_file self = Some (meta_out self1)
    ∧ files w1 = files w_run
    ∧ trace w1
      = (trace w ++ [EvRun cmd; EvDump (record_file self) (meta_out self1)])%list
    ∧ NoDup (rows (meta_out self1))
    ∧ range_indexed (meta_out self1)
    ∧ NoDup (rows (_recon_images self1))
    ∧ (∀ r, r ∈ rows (_recon_images self1) → unrecorded (meta_out self1) r = true).
Proof.
  intros Hloc Hrec Himg Hclear cmd w_run.
  set (found := loc (λ r, isfile w_run (recon_output r)) (_recon_images self)).
  assert (NoDup (rows (meta_out self) ++ rows found)) as Hnd.
  { apply NoDup_app. split; [done|]. split.
    - intros r Hr Hf. apply elem_of_rows_loc in Hf as [Hf _].
      apply Hclear in Hf. unfold unrecorded, isin in Hf.
      apply negb_true_iff, bool_decide_eq_false in Hf. apply Hf.
      apply list_elem_of_fmap. by exists r.
    - eapply rows_NoDup_sublist; [apply loc_sublist|done]. }
  assert (drop_duplicates (append_ignore_index (meta_out self) found)
          = range_index (rows (meta_out self) ++ rows found)) as Hrecord.
  { rewrite drop_duplicates_id; unfold append_ignore_index;
      by rewrite ?rows_range_index. }
  assert (rows (drop_duplicates (append_ignore_index (meta_out self) found))
          = (rows (meta_out self) ++ rows found)%list) as Hrows
    by by rewrite Hrecord, rows_range_index.
  eexists _, _. split; [by apply recon_loop_cons|].
  split; [by repeat split|].
  cbn [meta_out _recon_images set_meta_out set_recon_images set_stdout
       yaml_docs files trace].
  fold cmd. fold w_run. fold found.
  split; [exact Hrows|]. split; [done|].
  split; [by rewrite lookup_insert_eq|]. split; [done|]. split; [done|].
  split; [rewrite Hrows; exact Hnd|].
  split.
  { rewrite Hrecord. unfold range_indexed.
    by rewrite index_range_index, length_range_index. }
  split; [eapply rows_NoDup_sublist; [apply loc_sublist|done]|].
  intros r [Hr Hgone]%elem_of_rows_loc.
  unfold unrecorded, isin. apply negb_true_iff, bool_decide_eq_false.
  rewrite Hrows, fmap_app, elem_of_app. intros [Hin|Hin].
  - apply Hclear in Hr. unfold unrecorded, isin in Hr.
    by apply negb_true_iff, bool_decide_eq_false in Hr.
  - apply list_elem_of_fmap in Hin as (r' & Heq & Hr').
    apply elem_of_rows_loc in Hr' as [_ Hthere].
    apply negb_true_iff in Hgone. congruence.
Qed.


(** From such a state the loop runs to its end, and every document it
    writes is duplicate-free and numbered [0 .. n-1]: a record written
    by one run is an aligned input of the next. *)
Lemma recon_loop_keeps_records_numbered self todo w :
  (∀ x, x ∈ todo → is_Some (_path_dict self !! x)) →
  NoDup (rows (meta_out self)) →
  NoDup (rows (_recon_images self)) →
  (∀ r, r ∈ rows (_recon_images self) → unrecorded (meta_out self) r = true) →
  ∃ s w' new,
    recon_loop cpu_count tool il self todo w = (Ok s, w')
    ∧ dumps (trace w') = (dumps (trace w) ++ new)%list
    ∧ Forall (λ d, range_indexed d ∧ NoDup (rows d)) new
    ∧ (todo ≠ [] → yaml_docs w' !! record_file self = Some (meta_out s)
                   ∧ range_indexed (meta_out s))
    ∧ NoDup (rows (meta_out s)).
Proof.
  revert self w. induction todo as [|x todo IH]; intros self w Hp Hrec Himg Hclear.
  - exists self, w, []. simpl. rewrite app_nil_r. by repeat split.
  - destruct (Hp x) as [location Hloc]; [apply elem_of_cons; by left|].
    destruct (recon_loop_turn self x todo w location Hloc Hrec Himg Hclear)
      as (self1 & w1 & Hstep & Hcfg & _ & _ & Hdoc & _ & Htrace & Hrec1 & Hnum1
          & Himg1 & Hclear1).
    assert (record_file self1 = record_file self) as Hfile.
    { unfold record_file. by destruct Hcfg as (-> & _). }
    destruct (IH self1 w1) as (s & w' & new & Hloop & Hdumps & Hnew & Hlast & Hnd);
      [|done|done|done|].
    { intros y Hy. destruct Hcfg as (_ & _ & _ & _ & _ & ->).
      apply Hp. apply elem_of_cons. by right. }
    exists s, w', (meta_out self1 :: new).
    split; [by rewrite Hstep|]. split; [|split; [|split; [|done]]].
    + rewrite Hdumps, Htrace, dumps_app. simpl. by rewrite <- app_assoc.
    + by constructor.
    + intros _. destruct todo as [|y todo'].
      * injection Hloop as <- <-. by split.
      * rewrite <- Hfile. by apply Hlast.
Qed.


End LoopClaims.

(* ===================================================================== *)
(** ** A whole run on aligned inputs *)
(* ===================================================================== *)

Section WholeRun.

Import Pandas.

Variable cpu_count : nat.
Variable tool : World → list string → ToolOutcome.
Variable il : string → string → string.

(** Reconciliation hands the loop a record and a work list free of
    duplicates that share no reconstruction path. *)
Lemma reconciled_ready p mc sp w :
  NoDup (process_list sp) →
  NoDup (rows (meta_out (reconciled p mc sp w)))
  ∧ NoDup (rows (_recon_images (reconciled p mc sp w)))
  ∧ (∀ r, r ∈ rows (_recon_images (reconciled p mc sp w)) →
          unrecorded (meta_out (reconciled p mc sp w)) r = true).
Proof.
  intros Hids. split; [|split].
  - rewrite reconciled_meta_out.
    eapply rows_NoDup_sublist; [apply loc_sublist|apply drop_duplicates_NoDup].
  - rewrite reconciled_recon_images.
    eapply rows_NoDup_sublist; [apply loc_sublist|].
    rewrite rows_range_index. by apply catalog_rows_NoDup.
  - intros r. rewrite reconciled_recon_images at 1.
    by intros [_ Hr]%elem_of_rows_loc.
Qed.

(** On aligned inputs construction and the loop both return; when there
    was work to do, the record file then holds the final record, which
    is duplicate-free and numbered [0 .. n-1]. *)
Lemma aligned_run_leaves_aligned_record p mc sp w :
  aligned_inputs p mc sp w →
  ∃ s w1 s' w2,
    __init__ p mc sp w = (Ok s, w1)
    ∧ recon_stack cpu_count tool il s w1 = (Ok s', w2)
    ∧ NoDup (rows (meta_out s'))
    ∧ (_process_list s ≠ [] →
       yaml_docs w2 !! record_name p = Some (meta_out s')
       ∧ range_indexed (meta_out s')).
Proof.
  intros Hal. pose proof (ids_once _ _ _ _ Hal) as Hids.
  destruct (__init___spec p mc sp w Hal) as (w1 & Hinit & _).
  destruct (reconciled_ready p mc sp w Hids) as (Hrec & Himg & Hclear).
  exists (reconciled p mc sp w), w1.
  unfold recon_stack, _get_adoc. mstep.
  match goal with
  | |- ∃ s' w2, _ ∧ recon_loop _ _ _ ?s ?todo ?w1' = _ ∧ _ =>
      destruct (recon_loop_keeps_records_numbered cpu_count tool il s todo w1')
        as (s' & w2 & new & Hloop & _ & _ & Hlast & Hnd); [|done|done|done|]
  end.
  - intros x Hx. exists (catalog_folder sp x).
    apply (path_dict_lookup sp ∅ (process_list sp) x).
    by eapply __init___work_list_requested.
  - exists s', w2. split; [done|]. split; [done|]. split; [done|]. exact Hlast.
Qed.

End WholeRun.

(* ===================================================================== *)
(** ** The claims on concrete runs *)
(* ===================================================================== *)

Section Runs.

Import Pandas Scenario Outcome.

Ltac by_computation :=
  match goal with
  | |- ?P => apply (@bool_decide_unpack P _); vm_compute; exact I
  end.

(** Alignment of a concrete input is settled by evaluation. *)
Ltac aligned_by_computation :=
  split;
  [ by_computation
  | intros _; eexists; vm_compute; reflexivity
  | vm_compute; reflexivity
  | intros H; discriminate H ].

Lemma aligned_done2 : aligned_inputs "p" ["ts"] sp123 w_done2.
Proof. aligned_by_computation. Defined.

Lemma aligned_lost2 : aligned_inputs "p" ["ts"] sp123 w_lost2.
Proof. aligned_by_computation. Defined.

Lemma aligned_half1 : aligned_inputs "p" ["ts"] sp1 w_half1.
Proof. aligned_by_computation. Defined.

(** Scenario B of the specification. *)
Example scenario_B :
  ∃ s w', __init__ "p" ["ts"] sp123 w_done2 = (Ok s, w')
          ∧ _process_list s = [1; 3]%Z
          ∧ rows (meta_out s) = [row 2].
Proof. eexists _, _. split; [vm_compute; reflexivity|]. split; reflexivity. Qed.

(** Scenario C of the specification. *)
Example scenario_C :
  ∃ s w', __init__ "p" ["ts"] sp123 w_lost2 = (Ok s, w')
          ∧ _process_list s = [1; 2; 3]%Z
          ∧ meta_out s = [].
Proof. eexists _, _. split; [vm_compute; reflexivity|]. split; reflexivity. Qed.

(** Scenario A of the specification. *)
Example scenario_A :
  ∃ s w', run tool_ok sp123 w_fresh = (Ok s, w')
          ∧ length (runs (trace w')) = 3
          ∧ rows (meta_out s) = [row 1; row 2; row 3]
          ∧ yaml_docs w' !! "p_recon_mdout.yaml" = Some (meta_out s).
Proof.
  eexists _, _. split; [vm_compute; reflexivity|].
  split; [reflexivity|]. split; [reflexivity|]. vm_compute. reflexivity.
Qed.

(** Off the aligned inputs the masks of lines 128 and 142 no longer fit
    the frames they filter.  A repeated row early in the record leaves a
    gap in the labels, and line 128 raises. *)
Example repeated_row_breaks_the_mask :
  (__init__ "p" ["ts"] sp123 w_twice2_then3).1 = Raise IndexingError.
Proof. vm_compute. reflexivity. Qed.

(** A repeated id makes the merged frame longer than the record: the
    mask shifts, the row of series 2 is dropped with that of series 1,
    and series 2 is queued again although its output is there. *)
Example repeated_id_shifts_the_mask :
  ∃ s w', __init__ "p" ["ts"] sp112 w_lost1_done2 = (Ok s, w')
          ∧ meta_out s = []
          ∧ _process_list s = [1; 2]%Z
          ∧ isfile w_lost1_done2 (recon_output (row 2)) = true.
Proof.
  eexists _, _. split; [vm_compute; reflexivity|].
  split; [reflexivity|]. split; reflexivity.
Qed.

(** The same on a concrete aligned input: series 2 is on disk and in the
    record. *)
Lemma no_double_processing_done2 :
  aligned_inputs "p" ["ts"] sp123 w_done2
  ∧ ∃ s w', __init__ "p" ["ts"] sp123 w_done2 = (Ok s, w')
            ∧ 2%Z ∉ _process_list s.
Proof.
  split; [exact aligned_done2|].
  apply (no_double_processing "p" ["ts"] sp123 w_done2 2 aligned_done2).
  - by_computation.
  - vm_compute. reflexivity.
  - vm_compute. reflexivity.
  - exists (row 2). split; [by_computation|]. split; reflexivity.
Defined.

(** Counterexample to C3 as stated: series 1 is dropped from the work
    list although its aligned path is nowhere in the record. *)
Lemma half_recorded_item_dropped :
  ∃ s w', __init__ "p" ["ts"] sp1 w_half1 = (Ok s, w')
          ∧ 1%Z ∈ process_list sp1
          ∧ (1%Z ∉ _process_list s)
          ∧ align_output (catalog_row sp1 1)
              ∉ (align_output <$> rows (meta_out s)).
Proof.
  eexists _, _. split; [vm_compute; reflexivity|].
  split; [by_computation|]. split; by_computation.
Qed.

(** Witness of C3 as amended. *)
Lemma satisfied_by_recon_path_half1 :
  aligned_inputs "p" ["ts"] sp1 w_half1
  ∧ ∃ s w', __init__ "p" ["ts"] sp1 w_half1 = (Ok s, w')
          ∧ ∀ x, x ∈ process_list sp1 →
                 (x ∉ _process_list s
                  ↔ recon_output (catalog_row sp1 x)
                      ∈ recon_output <$> rows (meta_out s)).
Proof.
  split; [exact aligned_half1|].
  exact (satisfied_by_recon_path "p" ["ts"] sp1 w_half1 aligned_half1).
Defined.

(** Counterexample to C1 as stated: only series 1 is requested; the
    record's row for series 2 has lost its file and stays in the record
    all the same. *)
Lemma stale_row_of_unrequested_id_kept :
  ∃ s w', __init__ "p" ["ts"] sp1 w_lost2 = (Ok s, w')
          ∧ row 2 ∈ rows (loaded_record "p" w_lost2)
          ∧ isfile w_lost2 (recon_output (row 2)) = false
          ∧ row 2 ∈ rows (meta_out s).
Proof.
  eexists _, _. split; [vm_compute; reflexivity|].
  split; [by_computation|]. split; [reflexivity|by_computation].
Qed.

(** Witness of C1 as amended: all three series are requested; the row
    of series 2, whose file has gone, leaves the record and series 2 is
    in the work list again. *)
Lemma stale_rows_pruned_lost2 :
  aligned_inputs "p" ["ts"] sp123 w_lost2
  ∧ ∃ s w', __init__ "p" ["ts"] sp123 w_lost2 = (Ok s, w')
            ∧ row 2 ∈ rows (loaded_record "p" w_lost2)
            ∧ (row 2 ∉ rows (meta_out s))
            ∧ 2%Z ∈ _process_list s.
Proof.
  split; [exact aligned_lost2|].
  destruct (stale_rows_of_requested_ids_pruned "p" ["ts"] sp123 w_lost2
              aligned_lost2)
    as (s & w' & Hinit & Hrows & _ & Hback).
  exists s, w'. split; [exact Hinit|].
  assert (row 2 ∈ rows (loaded_record "p" w_lost2)) as Hin by by_computation.
  split; [exact Hin|]. split.
  - intros [_ Hkeep]%Hrows. apply Hkeep. split; [reflexivity|by_computation].
  - apply (Hback) with (r := row 2); [|exact Hin|reflexivity|by_computation].
    intros r Hr. change (rows (loaded_record "p" w_lost2)) with [row 2] in Hr.
    apply list_elem_of_singleton in Hr. subst r. reflexivity.
Defined.

(** Counterexample to C9 as stated: an empty request and a negative id
    both pass construction; the negative id even gets its folder. *)
Lemma empty_request_constructs :
  (∃ s w', __init__ "p" ["ts"] sp_none w_fresh = (Ok s, w')
           ∧ process_list sp_none = []
           ∧ no_processes s = true)
  ∧ (∃ s w', __init__ "p" ["ts"] sp_negative w_fresh = (Ok s, w')
             ∧ process_list sp_negative = [-1]%Z
             ∧ trace w' = [EvMakedirs "out/ts_-1"]).
Proof.
  split; eexists _, _; (split; [vm_compute; reflexivity|]); split; reflexivity.
Qed.

(** Counterexample to C10 as stated: two root names that differ in one
    trailing underscore only, [ts_] and [ts__], give different folders
    and files, since a single underscore is stripped from each. *)
Lemma second_trailing_separator_stays :
  ∃ r r' w1 w1',
    _get_internal_metadata (blank "p" ["ts"] sp1) w_fresh = (Ok r, w1)
    ∧ _get_internal_metadata (blank "p" ["ts"] sp1_twice_underscored) w_fresh
      = (Ok r', w1')
    ∧ output_rootname sp1_twice_underscored = output_rootname sp1 +:+ "_"
    ∧ subfolder_of r 1 = "out/ts_01"
    ∧ subfolder_of r' 1 = "out/ts__01"
    ∧ recon_output <$> rows (_recon_images r) = ["out/ts_01/ts_01_rec.mrc"]
    ∧ recon_output <$> rows (_recon_images r') = ["out/ts__01/ts__01_rec.mrc"].
Proof.
  eexists _, _, _, _. split; [vm_compute; reflexivity|].
  split; [vm_compute; reflexivity|]. repeat split.
Qed.

(** Witness of C10 as amended. *)
Lemma trailing_separator_irrelevant_out_ts :
  PyStr.endswith "out" "/" = false
  ∧ PyStr.endswith "ts" "_" = false
  ∧ PyStr.endswith "" "_" = false
  ∧ catalog_row (mkSystem "out/" "ts_" "_" [1; 2]%Z) 7
    = series_of "out" "ts" "" 7.
Proof.
  split; [reflexivity|]. split; [reflexivity|]. split; [reflexivity|].
  apply (trailing_separator_irrelevant "out" "ts" "" [1; 2]%Z true true true
           "p" ["ts"] w_fresh); reflexivity.
Defined.


(** C2 (code bug): [subprocess_run] never reports an error stream, so
    the loop's test on it cannot fire.  On the run below the tool fails
    on series 2 (status 1, a message on its error stream); the loop
    neither raises nor stops: series 3 is processed afterwards, and
    series 2, whose file exists, is recorded and persisted. *)
Theorem tool_failure_goes_unnoticed :
  (∀ tool il cmd w,
     ∃ completed, (subprocess_run tool il cmd w).1 = Ok completed
                  ∧ truthy (cp_stderr completed) = false)
  ∧ ∃ s w' cmd2,
      run tool_fails_on_2 sp123 w_fresh = (Ok s, w')
      ∧ runs (trace w') !! 1 = Some cmd2
      ∧ (∀ w, exit_status (tool_fails_on_2 w cmd2) = 1%Z
              ∧ to_stderr (tool_fails_on_2 w cmd2) = "ERROR: tilt.com failed")
      ∧ length (runs (trace w')) = 3
      ∧ ts <$> rows (meta_out s) = [1; 2; 3]%Z
      ∧ yaml_docs w' !! "p_recon_mdout.yaml" = Some (meta_out s).
Proof.
  split; [intros; eexists; split; reflexivity|].
  eexists _, _, _. split; [vm_compute; reflexivity|].
  split; [reflexivity|]. split; [intros w; split; reflexivity|].
  split; [reflexivity|]. split; [reflexivity|]. vm_compute. reflexivity.
Qed.

End Runs.

(* ===================================================================== *)
(** ** Further properties of the code *)
(* ===================================================================== *)

Section Paths.

Import Pandas.

Lemma subfolder_name_inj basis root suff x y :
  subfolder_name basis root suff x = subfolder_name basis root suff y → x = y.
Proof.
  unfold subfolder_name. intros H. do 4 apply string_app_inv_head in H.
  apply format_02d_inj. eapply string_app_inv_prefix; [|exact H].
  apply (f_equal String.length) in H.
  rewrite !string_length_app in H. lia.
Qed.

Lemma align_output_inj basis root suff x y :
  align_output (series_of basis root suff x)
  = align_output (series_of basis root suff y) →
  x = y.
Proof.
  unfold series_of, subfolder_name. simpl. rewrite !string_app_assoc.
  intros H. do 4 apply string_app_inv_head in H.
  apply format_02d_inj. eapply string_app_inv_prefix; [|exact H].
  apply (f_equal String.length) in H.
  repeat (rewrite !string_length_app in H; simpl in H). lia.
Qed.

Lemma align_output_not_recon_output basis root suff x y :
  align_output (series_of basis root suff x)
  ≠ recon_output (series_of basis root suff y).
Proof.
  unfold series_of, subfolder_name. simpl. rewrite !string_app_assoc.
  intros H. do 4 apply string_app_inv_head in H.
  assert (PyStr.format_02d x = PyStr.format_02d y) as Hxy.
  { eapply string_app_inv_prefix; [|exact H].
    apply (f_equal String.length) in H.
    repeat (rewrite !string_length_app in H; simpl in H). lia. }
  rewrite Hxy in H. do 7 apply string_app_inv_head in H. discriminate H.
Qed.

(** X1: in the catalogue [_get_internal_metadata] builds, two rows that
    share a reconstruction path or an aligned-stack path are the same
    row, no aligned-stack path is a reconstruction path, and two
    requested ids never share a folder: [{curr_ts:02d}] can be read
    back, whatever the configured names and whatever the sign or size
    of the ids. *)
Theorem derived_paths_distinct p mc sp w :
  ∃ s w', _get_internal_metadata (blank p mc sp) w = (Ok s, w')
    ∧ (∀ a b, a ∈ rows (_recon_images s) → b ∈ rows (_recon_images s) →
         recon_output a = recon_output b ∨ align_output a = align_output b →
         a = b)
    ∧ (∀ a b, a ∈ rows (_recon_images s) → b ∈ rows (_recon_images s) →
         align_output a ≠ recon_output b)
    ∧ (∀ x y, x ∈ process_list sp → y ∈ process_list sp →
         _path_dict s !! x = _path_dict s !! y → x = y).
Proof.
  eexists _, _. split; [apply _get_internal_metadata_spec|].
  cbn [_recon_images _path_dict catalogued]. rewrite rows_range_index.
  split; [|split].
  - intros a b (x & -> & _)%list_elem_of_fmap (y & -> & _)%list_elem_of_fmap [H|H];
      f_equal; [by eapply recon_output_inj | by eapply align_output_inj].
  - intros a b (x & -> & _)%list_elem_of_fmap (y & -> & _)%list_elem_of_fmap.
    apply align_output_not_recon_output.
  - intros x y Hx Hy. rewrite !path_dict_lookup by done.
    intros [= H]. by eapply subfolder_name_inj.
Qed.

End Paths.

Section Command.

Import Pandas.

Variable cpu_count : nat.

Lemma path_dict_lookup_None (sp : SystemParams) (d : gmap Z string) todo x :
  x ∉ todo → d !! x = None →
  foldl (λ d x, <[x := catalog_folder sp x]> d) d todo !! x = None.
Proof.
  revert d. induction todo as [|y todo IH]; intros d Hx Hd; [done|].
  simpl. apply not_elem_of_cons in Hx as [Hne Hx].
  apply IH; [done|]. by rewrite lookup_insert_ne.
Qed.

(** X2: on any object construction returns,
    [_get_brt_recon_command] builds the command line for exactly the
    requested ids, with the root name and folder derived for the id,
    and raises [KeyError] on every other id
    ([self._path_dict[curr_ts]]); the ids of the work list are all
    requested ones, so the loop never meets that error. *)
Theorem command_for_requested_ids_only p mc sp w s w1 :
  __init__ p mc sp w = (Ok s, w1) →
  (∀ x w',
     _get_brt_recon_command cpu_count s x w'
     = (if bool_decide (x ∈ process_list sp)
        then Ok (brt_command cpu_count (rootname_of sp) x (catalog_folder sp x))
        else Raise (KeyError x), w'))
  ∧ (∀ x, x ∈ _process_list s → x ∈ process_list sp).
Proof.
  intros H. split.
  - apply __init___ok in H as (_ & _ & _ & Hc & _).
    destruct Hc as (_ & _ & _ & Hroot & _ & Hdict). simpl in Hroot, Hdict.
    intros x w'. unfold _get_brt_recon_command. rewrite Hdict, Hroot.
    case_bool_decide as Hx.
    + by rewrite path_dict_lookup.
    + by rewrite path_dict_lookup_None.
  - intros x. by eapply __init___work_list_requested.
Qed.

End Command.

Section Quiet.

Import Pandas.

Lemma quiet_ret {A} (a : A) : quiet (mret a).
Proof. intros w. split; [apply only_logged_refl|done]. Qed.

Lemma quiet_lift {A} (r : Res A) : quiet (lift r).
Proof. intros w. split; [apply only_logged_refl|done]. Qed.

Lemma quiet_logObj msg : quiet (logObj msg).
Proof. intros w. split; [by repeat split|]. simpl. by apply prefix_app_r. Qed.

Lemma quiet_isfile_now : quiet isfile_now.
Proof. intros w. split; [apply only_logged_refl|done]. Qed.

Lemma quiet_read_md_yaml name : quiet (read_md_yaml name).
Proof.
  intros w. unfold read_md_yaml.
  destruct (yaml_docs w !! name); (split; [apply only_logged_refl|done]).
Qed.

Lemma quiet_bind {A B} (c : M A) (k : A → M B) :
  quiet c → (∀ a, quiet (k a)) → quiet (c ≫= k).
Proof.
  intros Hc Hk w. unfold mbind, M_bind.
  destruct (Hc w) as [H1 H1']. destruct (c w) as [[a|e] w1]; [|done].
  destruct (Hk a w1) as [H2 H2']. simpl in *. split.
  - by eapply only_logged_trans.
  - by etrans.
Qed.

Lemma quiet_if {A} (b : bool) (c1 c2 : M A) :
  quiet c1 → quiet c2 → quiet (if b then c1 else c2).
Proof. by destruct b. Qed.

Ltac quiet :=
  repeat first
    [ apply quiet_ret | apply quiet_lift | apply quiet_logObj
    | apply quiet_isfile_now | apply quiet_read_md_yaml
    | apply quiet_if | apply quiet_bind; [|intros ?] ].

Lemma quiet_prune_record self f : quiet (prune_record self f).
Proof. unfold prune_record. quiet. Qed.

Lemma quiet_prune_work self : quiet (prune_work self).
Proof. unfold prune_work. quiet. Qed.

Lemma quiet__check_reconned_images self : quiet (_check_reconned_images self).
Proof.
  unfold _check_reconned_images. quiet.
Qed.

(** X3: whether [__init__] returns or raises, it changes no file and no
    document and only adds lines to the log; and when it returns, its
    one other effect is the creation of one folder per mention of an id
    in the request, in request order. *)
Theorem construction_only_makes_folders p mc sp w :
  files (__init__ p mc sp w).2 = files w
  ∧ yaml_docs (__init__ p mc sp w).2 = yaml_docs w
  ∧ logged w `prefix_of` logged (__init__ p mc sp w).2
  ∧ ∀ s w',
      __init__ p mc sp w = (Ok s, w') →
      trace w'
      = (trace w ++ (EvMakedirs ∘ catalog_folder sp <$> process_list sp))%list.
Proof.
  split; [|split; [|split]].
  4:{ intros s w' H. by apply __init___ok in H as (_ & _ & _ & _ & _ & _ & Ht). }
  all: unfold __init__; cbv zeta; unfold mbind, M_bind;
    rewrite _get_internal_metadata_spec; cbv beta iota;
    match goal with
    | |- context [_check_reconned_images ?s ?w1] =>
        destruct (quiet__check_reconned_images s w1) as [(Hf & Hd & Ht) Hl]
    end; simpl in *; done.
Qed.

End Quiet.

Section Provenance.

Import Pandas.

Lemma load_record_ok self w (loaded : Frame) w0 :
  (if isfile w (record_file self)
   then read_md_yaml (record_file self) else mret []) w = (Ok loaded, w0) →
  w0 = w ∧ drop_duplicates loaded = loaded_record (proj_name self) w.
Proof.
  unfold loaded_record.
  change (record_name (proj_name self)) with (record_file self).
  destruct (isfile w (record_file self)) eqn:E.
  - unfold read_md_yaml. destruct (yaml_docs w !! record_file self); [|done].
    by intros [= -> ->].
  - intros [= <- <-]. split; [done|]. unfold isfile in E.
    apply orb_false_iff in E as [E _]. apply bool_decide_eq_false in E.
    destruct (yaml_docs w !! record_file self); [|done].
    exfalso. apply E. by eexists.
Qed.

Lemma _check_reconned_images_record self s w w' :
  _check_reconned_images self w = (Ok s, w') →
  sublist (meta_out s) (loaded_record (proj_name self) w).
Proof.
  unfold _check_reconned_images. mstep.
  destruct ((if isfile w (record_file self)
             then read_md_yaml (record_file self) else _) w)
    as [[loaded|] w0] eqn:Hl; [|done].
  apply load_record_ok in Hl as [-> <-].
  destruct (prune_record self (drop_duplicates loaded) w) as [[pruned|] w1] eqn:Hp;
    [|done].
  apply prune_record_ok in Hp as [Hsub _].
  intros (_ & _ & Hm & _)%prune_work_ok. simpl in Hm. by rewrite Hm.
Qed.

Lemma loaded_record_only_logged p w w' :
  yaml_docs w' = yaml_docs w → loaded_record p w' = loaded_record p w.
Proof. unfold loaded_record. by intros ->. Qed.

(** X4: whatever construction returns was there before.  The record
    it keeps is a sub-frame of the loaded, de-duplicated record file
    (rows in their order, with their labels), the pending items are a
    sub-frame of the catalogue, and the work list holds exactly the ids
    of the pending items, all of them requested. *)
Theorem reconciliation_invents_nothing p mc sp w s w' :
  __init__ p mc sp w = (Ok s, w') →
  sublist (meta_out s) (loaded_record p w)
  ∧ sublist (_recon_images s)
            (range_index (catalog_row sp <$> process_list sp))
  ∧ (∀ x, x ∈ _process_list s ↔ x ∈ ts <$> rows (_recon_images s))
  ∧ (∀ x, x ∈ _process_list s → x ∈ process_list sp).
Proof.
  intros H. split; [|split; [|split]].
  - unfold __init__ in H. mstep in H.
    rewrite _get_internal_metadata_spec in H. mstep in H.
    apply _check_reconned_images_record in H. simpl in H.
    erewrite loaded_record_only_logged in H; done.
  - by apply __init___ok in H as (_ & Hsub & _).
  - apply __init___ok in H as (_ & _ & -> & _). intros x.
    by rewrite elem_of_unique, elem_of_sort_values.
  - intros x. by eapply __init___work_list_requested.
Qed.

End Provenance.

Section WorkListExact.

Import Pandas.

Lemma work_list_exact p mc sp w :
  aligned_inputs p mc sp w →
  follows_naming sp (loaded_record p w) →
  ∃ s w',
    __init__ p mc sp w = (Ok s, w')
    ∧ ∀ x, x ∈ _process_list s
           ↔ x ∈ process_list sp
             ∧ ¬ (recon_output (catalog_row sp x)
                    ∈ recon_output <$> rows (loaded_record p w)
                  ∧ isfile w (recon_output (catalog_row sp x)) = true).
Proof.
  intros Hal Hnamed.
  destruct (__init___spec p mc sp w Hal) as (w' & Hinit & _).
  exists (reconciled p mc sp w), w'. split; [exact Hinit|].
  intros x. split.
  - intros Hx.
    assert (x ∈ process_list sp) as Hreq
      by by eapply __init___work_list_requested.
    split; [done|]. intros [(r & Hpath & Hr)%list_elem_of_fmap Hfile].
    apply (elem_of_reconciled_process_list p mc sp w x Hreq) in Hx.
    apply Hx. apply list_elem_of_fmap. exists r. split; [done|].
    apply elem_of_reconciled_meta_out. split; [done|]. left. by rewrite <- Hpath.
  - intros [Hreq Hnot].
    apply (elem_of_reconciled_process_list p mc sp w x Hreq).
    intros (r & Hpath & Hr)%list_elem_of_fmap.
    apply elem_of_reconciled_meta_out in Hr as [Hr Hkeep].
    apply Hnot. split; [apply list_elem_of_fmap; by exists r|].
    destruct Hkeep as [Hfile|Hts]; [by rewrite Hpath|].
    exfalso. apply Hts. rewrite (Hnamed r Hr) in Hpath.
    apply recon_output_inj in Hpath. by rewrite <- Hpath.
Qed.

(** X5: on aligned inputs whose record rows hold the reconstruction
    path derived for their own id, the work list construction returns
    is exactly the requested ids whose reconstruction is not both
    listed in the record and present on disk. *)
Theorem work_list_is_requested_minus_done p mc sp w :
  aligned_inputs p mc sp w →
  follows_naming sp (loaded_record p w) →
  ∃ s w',
    __init__ p mc sp w = (Ok s, w')
    ∧ ∀ x, x ∈ _process_list s
           ↔ x ∈ process_list sp
             ∧ ¬ (recon_output (catalog_row sp x)
                    ∈ recon_output <$> rows (loaded_record p w)
                  ∧ isfile w (recon_output (catalog_row sp x)) = true).
Proof. apply work_list_exact. Qed.

Lemma unique_seen_nil seen l : unique_seen seen l = [] → ∀ x, x ∈ l → x ∈ seen.
Proof.
  revert seen. induction l as [|y l IH]; intros seen H x Hx.
  - by apply elem_of_nil in Hx.
  - simpl in H. case_bool_decide as Hy; [|done].
    apply elem_of_cons in Hx as [->|Hx]; [done|]. by eapply IH.
Qed.

Lemma unique_nil l : unique l = [] → l = [].
Proof.
  intros H. destruct l as [|x l]; [done|].
  pose proof (unique_seen_nil [] (x :: l) H x) as Hx.
  exfalso. eapply not_elem_of_nil, Hx. by left.
Qed.

Lemma sort_values_nil l : sort_values l = [] → l = [].
Proof.
  intros H. destruct l as [|x l]; [done|].
  assert (x ∈ sort_values (x :: l)) as Hx by (apply elem_of_sort_values; by left).
  rewrite H in Hx. by apply elem_of_nil in Hx.
Qed.

Lemma loc_partition_nil (keep : Row → bool) (f : Frame) :
  loc (λ r, negb (keep r)) f = [] ↔ length (loc keep f) = length f.
Proof.
  unfold loc. induction f as [|[i r] f IH]; [done|].
  destruct (keep r) eqn:E.
  - rewrite (filter_cons_True (λ x : nat * Row, keep x.2)) by (simpl; rewrite E; simpl; tauto).
    rewrite (filter_cons_False (λ x : nat * Row, negb (keep x.2)))
      by (simpl; rewrite E; simpl; tauto).
    simpl. rewrite IH. lia.
  - rewrite (filter_cons_False (λ x : nat * Row, keep x.2)) by (simpl; rewrite E; simpl; tauto).
    rewrite (filter_cons_True (λ x : nat * Row, negb (keep x.2)))
      by (simpl; rewrite E; simpl; tauto).
    split; [intros H; discriminate H|]. intros H. simpl in H.
    pose proof (length_filter (λ x : nat * Row, keep x.2) f). lia.
Qed.

Lemma flag_iff_work_list_empty p mc sp w s w' :
  NoDup (process_list sp) →
  __init__ p mc sp w = (Ok s, w') →
  no_processes s = true ↔ _process_list s = [].
Proof.
  intros Hids. unfold __init__. mstep.
  rewrite _get_internal_metadata_spec. mstep.
  unfold _check_reconned_images. mstep.
  match goal with
  | |- context [(if ?b then read_md_yaml ?n else ?c) ?w1] =>
      destruct ((if b then read_md_yaml n else c) w1) as [[loaded|] w2]; [|done]
  end.
  match goal with
  | |- context [prune_record ?s ?f w2] =>
      destruct (prune_record s f w2) as [[pruned|] w3]; [|done]
  end.
  match goal with
  | |- prune_work ?s1 w3 = _ → _ =>
      destruct (prune_work_spec s1 w3) as (w4 & Hq & _)
  end.
  { simpl. rewrite rows_range_index. by apply catalog_rows_NoDup. }
  { apply catalogued_images_numbered. }
  rewrite Hq. intros [= <- _]. simpl. rewrite orb_false_r.
  rewrite bool_decide_eq_true. split.
  - intros Hall. apply loc_partition_nil in Hall.
    unfold unrecorded. by rewrite Hall.
  - intros Hnil. apply unique_nil, sort_values_nil, fmap_nil_inv in Hnil.
    apply fmap_nil_inv in Hnil. apply loc_partition_nil. exact Hnil.
Qed.

(** X6: when no id is requested twice, construction sets
    [no_processes] exactly when the work list it leaves is empty. *)
Theorem nothing_to_do_iff_flagged p mc sp w s w' :
  NoDup (process_list sp) →
  __init__ p mc sp w = (Ok s, w') →
  no_processes s = true ↔ _process_list s = [].
Proof. apply flag_iff_work_list_empty. Qed.

End WorkListExact.

Section Failures.

Import Pandas.

Lemma getitem_bool_raise_inv (f : Frame) mask e :
  getitem_bool f mask = Raise e →
  e = IndexingError ∧ ∃ i, i ∈ index f ∧ (length mask ≤ i)%nat.
Proof.
  induction f as [|[i r] f IH]; [done|]. cbn [getitem_bool].
  destruct (mask !! i) as [b|] eqn:E.
  - unfold mbind, Res_bind. destruct (getitem_bool f mask) as [g|e']; [done|].
    intros [= ->]. destruct IH as (-> & j & Hj & Hlen); [done|].
    split; [done|]. exists j. split; [|done]. unfold index in *.
    rewrite fmap_cons. by right.
  - intros [= <-]. split; [done|]. exists i. split.
    + unfold index. rewrite fmap_cons. by left.
    + by apply lookup_ge_None.
Qed.

Lemma getitem_bool_raise (f : Frame) mask i :
  i ∈ index f → (length mask ≤ i)%nat → getitem_bool f mask = Raise IndexingError.
Proof.
  intros Hi Hlen. destruct (getitem_bool f mask) as [g|e] eqn:E.
  - exfalso. revert g E. induction f as [|[j r] f IH]; intros g.
    + by apply elem_of_nil in Hi.
    + cbn [getitem_bool]. destruct (mask !! j) as [b|] eqn:Ej; [|done].
      unfold mbind, Res_bind.
      destruct (getitem_bool f mask) as [g'|]; [|done]. intros _.
      unfold index in Hi. rewrite fmap_cons in Hi.
      apply elem_of_cons in Hi as [->|Hi]; [|by eapply IH].
      apply lookup_lt_Some in Ej. simpl in Hlen. lia.
  - by apply getitem_bool_raise_inv in E as [-> _].
Qed.

(** The mask Pass 1 builds has one entry per row of the record, as long
    as no id is requested twice. *)
Lemma pass1_mask self (f : Frame) (exists_now : string → bool) :
  NoDup (process_list (params self)) →
  NoDup (rows f) →
  (process_list (params self) = [] →
   common_columns columns (meta_columns self) ≠ []) →
  ∃ mask,
    merge_indicator columns
      (missing_specified_columns (meta_columns self) (process_list (params self)))
      (rows f)
      (missing_specified (process_list (params self))
         (loc (λ r, negb (exists_now (recon_output r))) f))
    = Ok mask
    ∧ length mask = length f.
Proof.
  intros Hids Hnd Hkeys. unfold merge_indicator.
  set (todo := process_list (params self)) in *.
  set (ms := missing_specified todo _).
  destruct (decide (todo = [])) as [Hnil|Hnil].
  - assert (ms = []) as -> by (unfold ms; by rewrite Hnil).
    rewrite Hnil, missing_specified_columns_nil.
    destruct (common_columns columns (meta_columns self)) as [|c on] eqn:E;
      [by destruct Hkeys|].
    eexists. split; [reflexivity|].
    by rewrite merge_left_only_nil, length_fmap, length_rows.
  - rewrite common_columns_missing_specified by done.
    eexists. split; [reflexivity|].
    rewrite merge_left_only_NoDup.
    + by rewrite length_fmap, length_rows.
    + apply missing_specified_NoDup; [done|].
      eapply rows_NoDup_sublist; [apply loc_sublist|done].
Qed.

Lemma prune_work_raise_inv self w e :
  (prune_work self w).1 = Raise e → e = IndexingError.
Proof.
  unfold prune_work.
  set (images := _recon_images self). set (ignored := loc _ images).
  unfold merge_indicator. rewrite common_columns_self.
  change columns with ("ts" :: ["align_output"; "recon_output"]) at 1.
  cbv iota.
  destruct (bool_decide (0 < length ignored)
            && bool_decide (length ignored < length images)); mstep.
  2: destruct (bool_decide (length ignored = length images)); mstep.
  all: destruct (getitem_bool images _) as [kept|e'] eqn:E; [done|].
  all: apply getitem_bool_raise_inv in E as [-> _]; by intros [= <-].
Qed.

(** Pass 2 on the catalogue of a request without repeated ids returns. *)
Lemma prune_work_catalogue p mc sp (f : Frame) b l w :
  NoDup (process_list sp) →
  ∃ s, (prune_work
          (set_meta_out
             (set_process_list (set_no_processes (catalogued p mc sp) b) l) f)
          w).1 = Ok s.
Proof.
  intros Hids.
  match goal with
  | |- ∃ s, (prune_work ?s1 w).1 = _ =>
      destruct (prune_work_spec s1 w) as (w' & Hq & _)
  end.
  - simpl. rewrite rows_range_index. by apply catalog_rows_NoDup.
  - apply catalogued_images_numbered.
  - rewrite Hq. by eexists.
Qed.

(** X7: when no id is requested twice (and [md_in] shares a column with
    the record when nothing is requested), construction raises the
    pandas [IndexingError] of line 128 exactly when the loaded record,
    once its duplicates are dropped, keeps a row whose label is not
    below the number of rows left. *)
Theorem construction_raises_indexing_error_iff_label_gap p mc sp w :
  NoDup (process_list sp) →
  (process_list sp = [] → common_columns columns mc ≠ []) →
  (__init__ p mc sp w).1 = Raise IndexingError
  ↔ ∃ i, i ∈ index (loaded_record p w) ∧ (length (loaded_record p w) ≤ i)%nat.
Proof.
  intros Hids Hkeys. unfold __init__. cbv zeta. unfold mbind, M_bind at 1.
  rewrite _get_internal_metadata_spec. cbv beta iota.
  set (w1 := mkWorld _ _ _ _).
  assert (loaded_record p w1 = loaded_record p w) as Hsame by done.
  rewrite <- Hsame. clearbody w1. clear Hsame.
  unfold _check_reconned_images. mstep.
  match goal with
  | |- context [(if ?b then read_md_yaml ?n else ?c) w1] =>
      destruct ((if b then read_md_yaml n else c) w1) as [[loaded|e] w2] eqn:Hl
  end.
  2:{ assert (loaded_record p w1 = []) as ->.
      { unfold loaded_record.
        change (record_name p) with (record_file (catalogued p mc sp)).
        simpl in Hl. unfold read_md_yaml in Hl.
        destruct (isfile w1 _); [|done].
        by destruct (yaml_docs w1 !! _). }
      assert (e = YAMLError) as ->.
      { simpl in Hl. unfold read_md_yaml in Hl.
        destruct (isfile w1 _); [|done].
        destruct (yaml_docs w1 !! _); [done|]. by injection Hl as <- _. }
      split; [done|]. intros (i & Hi & _). by apply elem_of_nil in Hi. }
  apply load_record_ok in Hl as [-> Hl]. simpl in Hl. rewrite <- Hl.
  assert (NoDup (rows (drop_duplicates loaded))) as Hnd
    by apply drop_duplicates_NoDup.
  set (f := drop_duplicates loaded) in *. clearbody f.
  unfold prune_record at 1. case_bool_decide as Hlen.
  2:{ mstep. destruct f; [|simpl in Hlen; lia].
      destruct (prune_work_catalogue p mc sp [] false (process_list sp) w1 Hids)
        as [s Hs].
      cbn [params set_no_processes catalogued] in *.
      destruct (prune_work _ w1) as [r w3]. simpl in Hs. subst r. simpl.
      split; [done|]. intros (i & Hi & _). by apply elem_of_nil in Hi. }
  mstep.
  destruct (pass1_mask
              (set_process_list (set_no_processes (catalogued p mc sp) false)
                 (process_list sp)) f (isfile w1))
    as (mask & Hmask & Hlenm); [done|done|done|].
  cbn [params meta_columns set_process_list set_no_processes catalogued] in *.
  rewrite Hmask, <- Hlenm.
  destruct (getitem_bool f mask) as [kept|e] eqn:Hg.
  - destruct (prune_work_catalogue p mc sp kept false (process_list sp)
                (if bool_decide
                      (0 < length
                             (missing_specified (process_list sp)
                                (loc (λ r, negb (isfile w1 (recon_output r))) f)))
                 then (logObj ("Info: "
                        +:+ PyRepr.str_int
                              (Z.of_nat
                                 (length
                                    (missing_specified (process_list sp)
                                       (loc (λ r, negb (isfile w1 (recon_output r))) f))))
                        +:+ " images in record missing in folder. Will be added back for processing.") w1).2
                 else w1) Hids)
      as [s Hs].
    split.
    + case_bool_decide; mstep; mstep in Hs;
        destruct (prune_work _ _) as [r w3]; simpl in Hs; by subst r.
    + intros (i & Hi & Hge). by rewrite (getitem_bool_raise f mask i) in Hg.
  - apply getitem_bool_raise_inv in Hg as [-> Hgap]. done.
Qed.

End Failures.

Section MergeFailure.

Import Pandas.

Lemma prune_record_raise_inv self (f : Frame) w e :
  (prune_record self f w).1 = Raise e →
  e = IndexingError
  ∨ (e = MergeError ∧ process_list (params self) = [] ∧ f ≠ []
     ∧ common_columns columns (meta_columns self) = []).
Proof.
  unfold prune_record. case_bool_decide as Hlen; [|done]. mstep.
  unfold merge_indicator.
  destruct (common_columns columns
              (missing_specified_columns (meta_columns self)
                 (process_list (params self)))) as [|c on] eqn:Hon.
  - intros [= <-]. right. split; [done|].
    destruct (decide (process_list (params self) = [])) as [Hnil|Hnil].
    + rewrite Hnil, missing_specified_columns_nil in Hon.
      split; [done|]. split; [|done]. intros ->. simpl in Hlen. lia.
    + by rewrite common_columns_missing_specified in Hon.
  - destruct (getitem_bool f _) as [kept|e'] eqn:Hg.
    + by case_bool_decide.
    + apply getitem_bool_raise_inv in Hg as [-> _]. intros [= <-]. by left.
Qed.

Lemma prune_record_merge_error self (f : Frame) w :
  process_list (params self) = [] → f ≠ [] →
  common_columns columns (meta_columns self) = [] →
  (prune_record self f w).1 = Raise MergeError.
Proof.
  intros Hnil Hf Hon. unfold prune_record.
  rewrite bool_decide_eq_true_2 by (destruct f; [done|simpl; lia]).
  mstep. unfold merge_indicator.
  by rewrite Hnil, missing_specified_columns_nil, Hon.
Qed.

(** X8: construction raises the pandas [MergeError] of line 127
    exactly when nothing is requested, the loaded record is not empty
    and [md_in] has none of the record's columns. *)
Theorem construction_raises_merge_error_iff p mc sp w :
  (__init__ p mc sp w).1 = Raise MergeError
  ↔ process_list sp = []
    ∧ loaded_record p w ≠ []
    ∧ common_columns columns mc = [].
Proof.
  unfold __init__. cbv zeta. unfold mbind, M_bind at 1.
  rewrite _get_internal_metadata_spec. cbv beta iota.
  set (w1 := mkWorld _ _ _ _).
  assert (loaded_record p w1 = loaded_record p w) as Hsame by done.
  rewrite <- Hsame. clearbody w1. clear Hsame.
  set (self := set_process_list _ _).
  assert (process_list (params self) = process_list sp) as Hpl by done.
  assert (meta_columns self = mc) as Hmc by done.
  assert (proj_name self = p) as Hp by done.
  clearbody self. rewrite <- Hpl, <- Hmc, <- Hp.
  unfold _check_reconned_images. mstep.
  destruct ((if isfile w1 (record_file self)
             then read_md_yaml (record_file self) else _) w1)
    as [[loaded|e] w2] eqn:Hl.
  2:{ assert (loaded_record (proj_name self) w1 = [] ∧ e = YAMLError) as [-> ->].
      { unfold loaded_record.
        change (record_name (proj_name self)) with (record_file self).
        unfold read_md_yaml in Hl. destruct (isfile w1 _); [|done].
        destruct (yaml_docs w1 !! _); [done|]. by injection Hl as <- _. }
      split; [done|]. by intros (_ & ? & _). }
  apply load_record_ok in Hl as [-> <-].
  set (f := drop_duplicates loaded). clearbody f.
  destruct (prune_record self f w1) as [[pruned|e] w3] eqn:Hr.
  - split.
    + intros He. apply prune_work_raise_inv in He. discriminate He.
    + intros (Hnil & Hf & Hon).
      pose proof (prune_record_merge_error self f w1 Hnil Hf Hon) as He.
      rewrite Hr in He. discriminate He.
  - simpl. split.
    + intros [= ->].
      destruct (prune_record_raise_inv self f w1 MergeError) as [|(_ & H)];
        [by rewrite Hr|done|done].
    + intros (Hnil & Hf & Hon).
      pose proof (prune_record_merge_error self f w1 Hnil Hf Hon) as He.
      rewrite Hr in He. simpl in He. injection He as ->. reflexivity.
Qed.

End MergeFailure.

Section Update.

Import Pandas.

Lemma rows_append_ignore_index (a b : Frame) :
  rows (append_ignore_index a b) = (rows a ++ rows b)%list.
Proof. unfold append_ignore_index. by rewrite rows_range_index. Qed.

(** X9: [update_recon_metadata] never fails and leaves the world
    alone.  Afterwards the record holds, without repetition, the rows
    it held plus the pending rows whose reconstruction file exists now;
    the pending rows left are those whose file does not exist, in their
    order; the work list, the flag and the configuration are as
    before. *)
Theorem update_moves_items_whose_file_exists self w :
  ∃ s,
    update_recon_metadata self w = (Ok s, w)
    ∧ (∀ r, r ∈ rows (meta_out s)
            ↔ r ∈ rows (meta_out self)
              ∨ (r ∈ rows (_recon_images self)
                 ∧ isfile w (recon_output r) = true))
    ∧ (∀ r, r ∈ rows (_recon_images s)
            ↔ r ∈ rows (_recon_images self)
              ∧ isfile w (recon_output r) = false)
    ∧ sublist (_recon_images s) (_recon_images self)
    ∧ NoDup (rows (meta_out s))
    ∧ same_config self s
    ∧ _process_list s = _process_list self
    ∧ no_processes s = no_processes self.
Proof.
  eexists. split; [reflexivity|].
  cbn [meta_out _recon_images set_meta_out set_recon_images
       _process_list no_processes].
  split; [|split; [|split; [|split; [|split; [|split]]]]].
  - intros r. rewrite elem_of_drop_duplicates, rows_append_ignore_index.
    by rewrite elem_of_app, elem_of_rows_loc.
  - intros r. rewrite elem_of_rows_loc, negb_true_iff. done.
  - apply loc_sublist.
  - apply drop_duplicates_NoDup.
  - by repeat split.
  - done.
  - done.
Qed.

Lemma loc_loc_disjoint (keep : Row → bool) (f : Frame) :
  loc keep (loc (λ r, negb (keep r)) f) = [].
Proof.
  unfold loc. induction f as [|[i r] f IH]; [done|].
  destruct (keep r) eqn:E.
  - rewrite (filter_cons_False (λ x : nat * Row, negb (keep x.2)))
      by (simpl; rewrite E; simpl; tauto).
    exact IH.
  - rewrite (filter_cons_True (λ x : nat * Row, negb (keep x.2)))
      by (simpl; rewrite E; simpl; tauto).
    rewrite (filter_cons_False (λ x : nat * Row, keep x.2))
      by (simpl; rewrite E; simpl; tauto).
    exact IH.
Qed.

Lemma loc_idemp (keep : Row → bool) (f : Frame) :
  loc keep (loc keep f) = loc keep f.
Proof.
  unfold loc. induction f as [|[i r] f IH]; [done|].
  destruct (keep r) eqn:E.
  - rewrite !(filter_cons_True (λ x : nat * Row, keep x.2))
      by (simpl; rewrite E; simpl; tauto).
    by rewrite IH.
  - rewrite (filter_cons_False (λ x : nat * Row, keep x.2))
      by (simpl; rewrite E; simpl; tauto).
    exact IH.
Qed.

(** X10: with the files unchanged, a second [update_recon_metadata]
    moves nothing: the record keeps its rows and the pending items stay
    the same; the record is then numbered [0 .. n-1]. *)
Theorem update_twice_is_update_once self w :
  ∃ s1 s2,
    update_recon_metadata self w = (Ok s1, w)
    ∧ update_recon_metadata s1 w = (Ok s2, w)
    ∧ rows (meta_out s2) = rows (meta_out s1)
    ∧ _recon_images s2 = _recon_images s1
    ∧ range_indexed (meta_out s2).
Proof.
  eexists _, _. split; [reflexivity|]. split; [reflexivity|].
  cbn [meta_out _recon_images set_meta_out set_recon_images].
  rewrite loc_loc_disjoint, loc_idemp.
  set (m1 := drop_duplicates (append_ignore_index (meta_out self) _)).
  assert (NoDup (rows m1)) as Hnd by apply drop_duplicates_NoDup.
  clearbody m1.
  assert (drop_duplicates (append_ignore_index m1 []) = range_index (rows m1))
    as ->.
  { unfold append_ignore_index. simpl. rewrite app_nil_r.
    apply drop_duplicates_id. by rewrite rows_range_index. }
  rewrite rows_range_index. split; [done|]. split; [done|].
  unfold range_indexed. by rewrite index_range_index, length_range_index.
Qed.

End Update.

Section LoopEnd.

Import Pandas.

Variable cpu_count : nat.
Variable tool : World → list string → ToolOutcome.
Variable il : string → string → string.

(** One turn from a ready state, with the state and the world it leads
    to. *)
Lemma recon_loop_turn_exact self x todo w location :
  _path_dict self !! x = Some location →
  ready self →
  let cmd := brt_command cpu_count (rootname self) x location in
  let o := tool w cmd in
  let w_run := (subprocess_run tool il cmd w).2 in
  let record :=
    range_index
      (rows (meta_out self)
       ++ rows (loc (λ r, isfile w_run (recon_output r)) (_recon_images self))) in
  let self1 :=
    set_meta_out
      (set_recon_images
         (set_stdout self (Some (il (to_stdout o) (to_stderr o))))
         (loc (λ r, negb (isfile w_run (recon_output r))) (_recon_images self)))
      record in
  recon_loop cpu_count tool il self (x :: todo) w
  = recon_loop cpu_count tool il self1 todo
      (mkWorld (files_after o)
               (<[record_file self := record]> (yaml_docs w))
               (trace w ++ [EvRun cmd; EvDump (record_file self) record])
               (logged w))
  ∧ ready self1.
Proof.
  intros Hloc (Hrec & Himg & Hclear) cmd o w_run record self1.
  set (found := loc (λ r, isfile w_run (recon_output r)) (_recon_images self)).
  assert (NoDup (rows (meta_out self) ++ rows found)) as Hnd.
  { apply NoDup_app. split; [done|]. split.
    - intros r Hr Hf. apply elem_of_rows_loc in Hf as [Hf _].
      apply Hclear in Hf. unfold unrecorded, isin in Hf.
      apply negb_true_iff, bool_decide_eq_false in Hf. apply Hf.
      apply list_elem_of_fmap. by exists r.
    - eapply rows_NoDup_sublist; [apply loc_sublist|done]. }
  assert (drop_duplicates (append_ignore_index (meta_out self) found) = record)
    as Hrecord.
  { rewrite drop_duplicates_id; unfold append_ignore_index;
      by rewrite ?rows_range_index. }
  split.
  - rewrite (recon_loop_cons _ _ _ _ _ _ _ _ Hloc).
    fold cmd. fold o. fold w_run. fold found. by rewrite Hrecord.
  - unfold ready, self1.
    cbn [meta_out _recon_images set_meta_out set_recon_images set_stdout].
    unfold record. fold found. rewrite rows_range_index.
    split; [done|].
    split; [eapply rows_NoDup_sublist; [apply loc_sublist|done]|].
    intros r [Hr Hgone]%elem_of_rows_loc.
    unfold unrecorded, isin. apply negb_true_iff, bool_decide_eq_false.
    rewrite rows_range_index, fmap_app, elem_of_app. intros [Hin|Hin].
    + apply Hclear in Hr. unfold unrecorded, isin in Hr.
      by apply negb_true_iff, bool_decide_eq_false in Hr.
    + apply list_elem_of_fmap in Hin as (r' & Heq & Hr').
      apply elem_of_rows_loc in Hr' as [_ Hthere].
      apply negb_true_iff in Hgone. congruence.
Qed.

Lemma isfile_insert_ne w files' name doc t l q :
  q ≠ name →
  isfile (mkWorld files' (<[name := doc]> (yaml_docs w)) t l) q
  = isfile (mkWorld files' (yaml_docs w) t l) q.
Proof. intros Hq. unfold isfile. simpl. by rewrite lookup_insert_ne. Qed.

(** The whole loop from a ready state. *)
Lemma recon_loop_end self todo w :
  (∀ x, x ∈ todo → is_Some (_path_dict self !! x)) →
  ready self →
  ∃ s w' docs,
    recon_loop cpu_count tool il self todo w = (Ok s, w')
    ∧ same_config self s
    ∧ ready s
    ∧ length docs = length todo
    ∧ trace w'
      = (trace w
         ++ turns (λ x, brt_command cpu_count (rootname self) x
                          (default "" (_path_dict self !! x)))
              (record_file self) todo docs)%list
    ∧ growing (rows (meta_out self)) docs
    ∧ rows (meta_out self) `prefix_of` rows (meta_out s)
    ∧ sublist (_recon_images s) (_recon_images self)
    ∧ (∀ r, r ∈ rows (_recon_images self) →
            r ∈ rows (meta_out s) ∨ r ∈ rows (_recon_images s))
    ∧ (∀ r, r ∈ rows (meta_out s) →
            r ∈ rows (meta_out self) ∨ r ∈ rows (_recon_images self))
    ∧ (todo = [] → s = self ∧ w' = w)
    ∧ (todo ≠ [] →
       last docs = Some (meta_out s)
       ∧ yaml_docs w' !! record_file self = Some (meta_out s)
       ∧ range_indexed (meta_out s)
       ∧ ∀ r, r ∈ rows (_recon_images s) →
              recon_output r ≠ record_file self →
              isfile w' (recon_output r) = false).
Proof.
  revert self w. induction todo as [|x todo IH]; intros self w Hp Hready.
  - exists self, w, []. unfold turns. simpl. rewrite app_nil_r.
    split; [done|]. split; [apply same_config_refl|].
    repeat (split; [by auto|]). done.
  - destruct (Hp x) as [location Hloc]; [apply elem_of_cons; by left|].
    destruct (recon_loop_turn_exact self x todo w location Hloc Hready)
      as [Hstep Hready1].
    cbv zeta in Hstep, Hready1.
    set (cmd := brt_command cpu_count (rootname self) x location) in *.
    set (w_run := (subprocess_run tool il cmd w).2) in *.
    set (found := loc (λ r, isfile w_run (recon_output r)) (_recon_images self)) in *.
    set (record := range_index (rows (meta_out self) ++ rows found)) in *.
    set (pending := loc (λ r, negb (isfile w_run (recon_output r)))
                      (_recon_images self)) in *.
    set (self1 := set_meta_out _ record) in *.
    set (w1 := mkWorld _ _ _ _) in *.
    assert (same_config self self1) as Hcfg by by repeat split.
    assert (record_file self1 = record_file self) as Hfile by done.
    destruct (IH self1 w1)
      as (s & w' & docs & Hloop & Hc & Hrs & Hlen & Htrace & Hgrow & Hpre
          & Hsub & Hpart & Hfrom & Hnil & Hlast);
      [|done|].
    { intros y Hy. apply Hp. apply elem_of_cons. by right. }
    assert (rows (meta_out self1) = (rows (meta_out self) ++ rows found)%list)
      as Hrows1 by (simpl; apply rows_range_index).
    exists s, w', (record :: docs).
    split; [by rewrite Hstep|].
    split; [by eapply same_config_trans|].
    split; [done|].
    split; [simpl; by rewrite Hlen|].
    split.
    { rewrite Htrace. unfold turns. simpl. rewrite Hloc. simpl.
      by rewrite <- app_assoc. }
    split.
    { simpl. split; [|exact Hgrow].
      change (rows record) with (rows (meta_out self1)). rewrite Hrows1.
      by apply prefix_app_r. }
    split.
    { etrans; [|exact Hpre]. rewrite Hrows1. by apply prefix_app_r. }
    split.
    { etrans; [exact Hsub|]. apply loc_sublist. }
    split.
    { intros r Hr. destruct (isfile w_run (recon_output r)) eqn:E.
      - left. eapply elem_of_prefix; [|exact Hpre].
        rewrite Hrows1, elem_of_app. right. by apply elem_of_rows_loc.
      - apply Hpart. simpl. apply elem_of_rows_loc. by rewrite E. }
    split.
    { intros r Hr. apply Hfrom in Hr as [Hr|Hr].
      - rewrite Hrows1, elem_of_app in Hr. destruct Hr as [Hr|Hr]; [by left|].
        right. by apply elem_of_rows_loc in Hr as [Hr _].
      - right. simpl in Hr. by apply elem_of_rows_loc in Hr as [Hr _]. }
    split; [done|]. intros _.
    destruct todo as [|y todo'].
    + destruct Hnil as [-> ->]; [done|].
      destruct docs; [|done]. simpl.
      split; [done|]. split; [by rewrite lookup_insert_eq|].
      split.
      { unfold range_indexed, record.
        by rewrite index_range_index, length_range_index. }
      intros r [Hr Hgone]%elem_of_rows_loc Hne.
      apply negb_true_iff in Hgone. unfold w1.
      rewrite isfile_insert_ne by done. exact Hgone.
    + destruct Hlast as (Hl & Hdoc & Hnum & Hmissing); [done|].
      rewrite <- Hfile. split; [|done].
      destruct docs; [done|]. exact Hl.
Qed.

End LoopEnd.

Section AfterConstruction.

Import Pandas.

(** With no id requested twice, whatever construction returns is a
    state the loop can start from, with a folder for every item of the
    work list. *)
Lemma __init___ready p mc sp s w w' :
  NoDup (process_list sp) →
  __init__ p mc sp w = (Ok s, w') →
  ready s
  ∧ _recon_images s
    = loc (unrecorded (meta_out s))
          (range_index (catalog_row sp <$> process_list sp)).
Proof.
  intros Hids H.
  pose proof (__init___ok _ _ _ _ _ _ H) as (Hnd & Hsub & _).
  revert H. unfold __init__. mstep.
  rewrite _get_internal_metadata_spec. mstep.
  unfold _check_reconned_images. mstep.
  match goal with
  | |- context [(if ?b then read_md_yaml ?n else ?c) ?w1] =>
      destruct ((if b then read_md_yaml n else c) w1) as [[loaded|] w2]; [|done]
  end.
  match goal with
  | |- context [prune_record ?s ?f w2] =>
      destruct (prune_record s f w2) as [[pruned|] w3]; [|done]
  end.
  match goal with
  | |- prune_work ?s1 w3 = _ → _ =>
      destruct (prune_work_spec s1 w3) as (w4 & Hq & _)
  end.
  { simpl. rewrite rows_range_index. by apply catalog_rows_NoDup. }
  { apply catalogued_images_numbered. }
  rewrite Hq. intros [= <- _]. simpl in *.
  split; [|done]. split; [done|]. split.
  - eapply rows_NoDup_sublist; [apply loc_sublist|].
    rewrite rows_range_index. by apply catalog_rows_NoDup.
  - by intros r [_ Hr]%elem_of_rows_loc.
Qed.

Lemma turns_ext (f g : Z → list string) yaml_file todo docs :
  (∀ x, x ∈ todo → f x = g x) →
  turns f yaml_file todo docs = turns g yaml_file todo docs.
Proof.
  unfold turns. revert docs.
  induction todo as [|x todo IH]; intros docs Hfg; [done|].
  destruct docs as [|d docs]; [done|]. simpl.
  rewrite Hfg by (by left). do 2 f_equal. apply IH.
  intros y Hy. apply Hfg. by right.
Qed.

End AfterConstruction.

Section RunTrace.

Import Pandas.

Variable cpu_count : nat.
Variable tool : World → list string → ToolOutcome.
Variable il : string → string → string.

(** X11: after a construction that returns, for a request without
    repeated ids, whenever [recon_stack] returns it has written the
    directive file first and then, for each item of the work list in
    turn, run the tool with the command of that item and written the
    record file.  Every document written keeps all rows of the one
    before, the first keeps all rows of the reconciled record, and the
    last is the record the object ends with, which is what the record
    file then holds. *)
Theorem run_writes_a_growing_record_after_every_item p mc sp w s w1 s' w2 :
  NoDup (process_list sp) →
  __init__ p mc sp w = (Ok s, w1) →
  recon_stack cpu_count tool il s w1 = (Ok s', w2) →
  ∃ docs,
    length docs = length (_process_list s)
    ∧ trace w2
      = (trace w1
         ++ EvWriteAdoc "./recon.adoc"
            :: turns (λ x, brt_command cpu_count (rootname_of sp) x
                             (catalog_folder sp x))
                 (record_name p) (_process_list s) docs)%list
    ∧ growing (rows (meta_out s)) docs
    ∧ rows (meta_out s) `prefix_of` rows (meta_out s')
    ∧ (_process_list s ≠ [] →
       last docs = Some (meta_out s')
       ∧ yaml_docs w2 !! record_name p = Some (meta_out s')).
Proof.
  intros Hids H.
  pose proof (__init___ready _ _ _ _ _ _ Hids H) as [Hready _].
  pose proof (__init___ok _ _ _ _ _ _ H) as (_ & _ & _ & Hc & _).
  destruct Hc as (Hp & _ & _ & Hroot & _ & Hdict). simpl in Hp, Hroot, Hdict.
  assert (∀ x, x ∈ _process_list s →
               _path_dict s !! x = Some (catalog_folder sp x)) as Hfolder.
  { intros x Hx. rewrite Hdict. apply path_dict_lookup.
    by eapply __init___work_list_requested. }
  unfold recon_stack, _get_adoc. mstep.
  match goal with
  | |- recon_loop _ _ _ _ _ ?w1' = _ → _ =>
      destruct (recon_loop_end cpu_count tool il s (_process_list s) w1')
        as (s0 & w0 & docs & Hloop & _ & _ & Hlen & Htrace & Hgrow & Hpre
            & _ & _ & _ & _ & Hlast)
  end.
  { intros x Hx. rewrite Hfolder by done. by eexists. }
  { done. }
  rewrite Hloop. intros [= <- <-].
  exists docs. split; [done|].
  assert (record_file s = record_name p) as Hfile
    by (unfold record_file, record_name; by rewrite Hp).
  split.
  { rewrite Htrace. simpl. rewrite <- app_assoc. simpl. do 2 f_equal.
    rewrite Hfile. apply turns_ext. intros x Hx.
    by rewrite Hroot, Hfolder. }
  split; [done|]. split; [done|].
  intros Hne. destruct (Hlast Hne) as (Hl & Hdoc & _).
  rewrite <- Hfile. by split.
Qed.

End RunTrace.

Section FileNames.

Import Pandas.

Lemma endswith_app_r (a b : string) c :
  b ≠ "" → PyStr.endswith (a +:+ b) c = PyStr.endswith b c.
Proof.
  intros Hb. induction a as [|x a IH]; [done|].
  rewrite string_app_cons. cbn [PyStr.endswith].
  destruct (a +:+ b) as [|y t] eqn:E; [|exact IH].
  destruct a; [|discriminate E]. by destruct Hb.
Qed.

Lemma endswith_app_true (a b : string) c :
  PyStr.endswith b c = true → PyStr.endswith (a +:+ b) c = true.
Proof.
  intros Hb. rewrite endswith_app_r; [done|]. by intros ->.
Qed.

Lemma recon_output_not_record_name sp x p :
  recon_output (catalog_row sp x) ≠ record_name p.
Proof.
  assert (PyStr.endswith (recon_output (catalog_row sp x)) "c" = true) as Hc.
  { unfold catalog_row, series_of. cbn [recon_output].
    do 6 apply endswith_app_true. reflexivity. }
  assert (PyStr.endswith (record_name p) "c" = false) as Hl.
  { unfold record_name. by rewrite endswith_app_r. }
  intros H. rewrite H in Hc. congruence.
Qed.

Lemma record_name_not_adoc p : record_name p ≠ "./recon.adoc".
Proof.
  assert (PyStr.endswith (record_name p) "l" = true) as Hl.
  { unfold record_name. by apply endswith_app_true. }
  intros H. rewrite H in Hl. discriminate Hl.
Qed.

End FileNames.

Section Rerun.

Import Pandas.

Variable cpu_count : nat.
Variable tool : World → list string → ToolOutcome.
Variable il : string → string → string.

(** On aligned inputs whose record rows are named after their ids the
    model of a whole run returns, and what it leaves behind is again
    such an input, with every requested reconstruction that exists
    listed in the record. *)
Lemma aligned_run_leaves_aligned_inputs p mc sp w :
  aligned_inputs p mc sp w →
  follows_naming sp (loaded_record p w) →
  ∃ s w1 s' w2,
    __init__ p mc sp w = (Ok s, w1)
    ∧ recon_stack cpu_count tool il s w1 = (Ok s', w2)
    ∧ aligned_inputs p mc sp w2
    ∧ follows_naming sp (loaded_record p w2)
    ∧ ∀ x, x ∈ process_list sp →
           isfile w2 (recon_output (catalog_row sp x)) = true →
           recon_output (catalog_row sp x)
             ∈ recon_output <$> rows (loaded_record p w2).
Proof.
  intros Hal Hnamed. pose proof (ids_once _ _ _ _ Hal) as Hids.
  destruct (__init___spec p mc sp w Hal) as (w1 & Hinit & Hf1 & Hd1 & _).
  pose proof (__init___ready _ _ _ _ _ _ Hids Hinit) as [Hready Himgs].
  pose proof (__init___ok _ _ _ _ _ _ Hinit) as (_ & Hcat & _).
  set (s := reconciled p mc sp w) in *.
  assert (record_file s = record_name p) as Hfile by reflexivity.
  assert (∀ r, r ∈ rows (meta_out s) → r ∈ rows (loaded_record p w)) as Hold.
  { intros r Hr. by apply elem_of_reconciled_meta_out in Hr as [Hr _]. }
  assert (∃ s' w2,
            recon_stack cpu_count tool il s w1 = (Ok s', w2)
            ∧ aligned_inputs p mc sp w2
            ∧ follows_naming sp (loaded_record p w2)
            ∧ ∀ x, x ∈ process_list sp →
                   isfile w2 (recon_output (catalog_row sp x)) = true →
                   recon_output (catalog_row sp x)
                     ∈ recon_output <$> rows (loaded_record p w2))
    as (s' & w2 & Hstack & Hal2 & Hnamed2 & Hrec2).
  { unfold recon_stack, _get_adoc. mstep.
    match goal with
    | |- ∃ s' w2, recon_loop _ _ _ _ _ ?w1' = _ ∧ _ =>
        set (w1a := w1');
        destruct (recon_loop_end cpu_count tool il s (_process_list s) w1a)
          as (s' & w2 & docs & Hloop & _ & Hready' & _ & _ & _ & Hpre
              & _ & Hpart & Hfrom & Hnil & Hlast)
    end.
    { intros x Hx. exists (catalog_folder sp x).
      apply (path_dict_lookup sp ∅ (process_list sp) x).
      by eapply __init___work_list_requested. }
    { done. }
    exists s', w2. split; [done|].
    destruct (decide (_process_list s = [])) as [Hempty|Hne].
    - destruct (Hnil Hempty) as [-> ->].
      assert (loaded_record p w1a = loaded_record p w) as Hsame
        by (unfold loaded_record; simpl; by rewrite Hd1).
      rewrite Hsame. split; [|split; [done|]].
      + split; [done| |rewrite Hsame; apply Hal|apply Hal].
        intros Hthere. simpl. rewrite Hd1. apply (record_parses _ _ _ _ Hal).
        unfold isfile in *. simpl in Hthere. rewrite Hd1, Hf1 in Hthere.
        rewrite (proj2 (String.eqb_neq _ _) (record_name_not_adoc p)) in Hthere.
        exact Hthere.
      + intros x Hx _.
        destruct (decide (recon_output (catalog_row sp x)
                            ∈ recon_output <$> rows (meta_out s))) as [Hin|Hout].
        * apply list_elem_of_fmap in Hin as (r & Heq & Hr).
          apply list_elem_of_fmap. exists r. split; [done|by apply Hold].
        * apply (elem_of_reconciled_process_list p mc sp w x Hx) in Hout.
          fold s in Hout. rewrite Hempty in Hout. by apply elem_of_nil in Hout.
    - destruct (Hlast Hne) as (_ & Hdoc & Hnum & Hmissing).
      destruct Hready' as (Hnd' & _).
      assert (loaded_record p w2 = meta_out s') as Hloaded.
      { unfold loaded_record. rewrite <- Hfile, Hdoc. simpl.
        by apply drop_duplicates_id. }
      rewrite Hloaded. split; [|split].
      + split; [done| |by rewrite Hloaded|apply Hal].
        intros _. by rewrite <- Hfile, Hdoc.
      + intros r Hr. apply Hfrom in Hr as [Hr|Hr]; [by apply Hnamed, Hold|].
        apply rows_sublist in Hcat. rewrite rows_range_index in Hcat.
        eapply sublist_subseteq in Hr; [|exact Hcat].
        by apply list_elem_of_fmap in Hr as (y & -> & _).
      + intros x Hx Hthere.
        destruct (decide (recon_output (catalog_row sp x)
                            ∈ recon_output <$> rows (meta_out s))) as [Hin|Hout].
        * apply list_elem_of_fmap in Hin as (r & Heq & Hr).
          apply list_elem_of_fmap. exists r. split; [done|].
          by eapply elem_of_prefix.
        * assert (catalog_row sp x ∈ rows (_recon_images s)) as Hpending.
          { rewrite Himgs. apply elem_of_rows_loc. split.
            - rewrite rows_range_index. apply list_elem_of_fmap. by exists x.
            - unfold unrecorded, isin.
              by apply negb_true_iff, bool_decide_eq_false. }
          apply Hpart in Hpending as [Hdone|Hleft].
          -- apply list_elem_of_fmap. by exists (catalog_row sp x).
          -- apply Hmissing in Hleft; [congruence|].
             rewrite Hfile. apply recon_output_not_record_name. }
  by exists s, w1, s', w2.
Qed.

(** X12: resuming.  On aligned inputs whose record rows hold the path
    derived for their own id, whenever construction and [recon_stack]
    return, the world they leave is again such an input: the record
    file parses and, once duplicates are dropped, is numbered
    [0 .. n-1] and named after its ids.  Whenever a second construction
    with the same request returns in that world, its work list is
    exactly the requested ids whose reconstruction file is missing
    there, and it sets [no_processes] exactly when none is missing. *)
Theorem rerun_retries_exactly_the_missing p mc sp w s w1 s' w2 :
  aligned_inputs p mc sp w →
  follows_naming sp (loaded_record p w) →
  __init__ p mc sp w = (Ok s, w1) →
  recon_stack cpu_count tool il s w1 = (Ok s', w2) →
  aligned_inputs p mc sp w2
  ∧ follows_naming sp (loaded_record p w2)
  ∧ ∀ s2 w3,
      __init__ p mc sp w2 = (Ok s2, w3) →
      (∀ x, x ∈ _process_list s2
            ↔ x ∈ process_list sp
              ∧ isfile w2 (recon_output (catalog_row sp x)) = false)
      ∧ (no_processes s2 = true
         ↔ ∀ x, x ∈ process_list sp →
                isfile w2 (recon_output (catalog_row sp x)) = true).
Proof.
  intros Hal Hnamed Hinit Hstack.
  pose proof (ids_once _ _ _ _ Hal) as Hids.
  destruct (aligned_run_leaves_aligned_inputs p mc sp w Hal Hnamed)
    as (s0 & w0 & s0' & w0' & Hinit0 & Hstack0 & Hal2 & Hnamed2 & Hrec2).
  rewrite Hinit in Hinit0. injection Hinit0 as <- <-.
  rewrite Hstack in Hstack0. injection Hstack0 as <- <-.
  split; [exact Hal2|]. split; [exact Hnamed2|].
  intros s2 w3 Hinit2.
  destruct (work_list_exact p mc sp w2 Hal2 Hnamed2) as (s2' & w3' & Hinit2' & Hiff).
  rewrite Hinit2 in Hinit2'. injection Hinit2' as <- <-.
  assert (∀ x, x ∈ _process_list s2
               ↔ x ∈ process_list sp
                 ∧ isfile w2 (recon_output (catalog_row sp x)) = false) as Hwork.
  { intros x. rewrite Hiff. split.
    - intros [Hx Hnot]. split; [done|].
      destruct (isfile w2 (recon_output (catalog_row sp x))) eqn:E; [|done].
      exfalso. apply Hnot. split; [by apply Hrec2|done].
    - intros [Hx Hgone]. split; [done|]. intros [_ Hthere]. congruence. }
  split; [exact Hwork|].
  rewrite (flag_iff_work_list_empty p mc sp w2 s2 w3 Hids Hinit2). split.
  - intros Hnil x Hx.
    destruct (isfile w2 (recon_output (catalog_row sp x))) eqn:E; [done|].
    assert (x ∈ _process_list s2) as Hin by by apply Hwork.
    rewrite Hnil in Hin. by apply elem_of_nil in Hin.
  - intros Hall. destruct (_process_list s2) as [|y l] eqn:E; [done|].
    assert (y ∈ y :: l) as Hy by by left.
    apply Hwork in Hy as [Hy Hgone]. rewrite Hall in Hgone; done.
Qed.

End Rerun.

Section UnknownId.

Import Pandas.

Variable cpu_count : nat.
Variable tool : World → list string → ToolOutcome.
Variable il : string → string → string.

Lemma recon_loop_app self pre rest w :
  recon_loop cpu_count tool il self (pre ++ rest) w
  = match recon_loop cpu_count tool il self pre w with
    | (Ok s, w') => recon_loop cpu_count tool il s rest w'
    | (Raise e, w') => (Raise e, w')
    end.
Proof.
  revert self w. induction pre as [|x pre IH]; intros self w; [done|].
  rewrite <- app_comm_cons.
  destruct (_path_dict self !! x) as [location|] eqn:Hloc.
  - rewrite !(recon_loop_cons _ _ _ _ _ _ _ _ Hloc). apply IH.
  - cbn [recon_loop]. unfold _get_brt_recon_command. rewrite Hloc. by mstep.
Qed.

(** X13: the loop stops at the first id that has no folder in
    [_path_dict].  The items before it are processed and recorded as
    usual (one tool run and one write of the record each), then
    [KeyError] is raised for that id before any tool is started for it,
    and the items after it are not touched. *)
Theorem loop_stops_at_an_id_without_folder self pre x post w :
  (∀ y, y ∈ pre → is_Some (_path_dict self !! y)) →
  _path_dict self !! x = None →
  ∃ s w',
    recon_loop cpu_count tool il self pre w = (Ok s, w')
    ∧ recon_loop cpu_count tool il self (pre ++ x :: post) w
      = (Raise (KeyError x), w')
    ∧ length (runs (trace w')) = length (runs (trace w)) + length pre
    ∧ length (dumps (trace w')) = length (dumps (trace w)) + length pre.
Proof.
  intros Hpre Hx.
  assert (∀ todo self w,
            (∀ y, y ∈ todo → is_Some (_path_dict self !! y)) →
            ∃ s w',
              recon_loop cpu_count tool il self todo w = (Ok s, w')
              ∧ _path_dict s = _path_dict self
              ∧ length (runs (trace w')) = length (runs (trace w)) + length todo
              ∧ length (dumps (trace w')) = length (dumps (trace w)) + length todo)
    as Hloop.
  { clear. induction todo as [|y todo IH]; intros self w Hp.
    - exists self, w. simpl. by rewrite !Nat.add_0_r.
    - destruct (Hp y) as [location Hloc]; [by left|].
      rewrite (recon_loop_cons _ _ _ _ _ _ _ _ Hloc).
      match goal with
      | |- ∃ s w', recon_loop _ _ _ ?s1 _ ?w1 = _ ∧ _ =>
          destruct (IH s1 w1) as (s & w' & Hl & Hd & Hr & Hw)
      end.
      { intros z Hz. simpl. apply Hp. by right. }
      exists s, w'. split; [done|]. split; [done|].
      rewrite Hr, Hw. simpl. rewrite runs_app, dumps_app, !List.length_app.
      simpl. lia. }
  destruct (Hloop pre self w Hpre) as (s & w' & Hl & Hd & Hr & Hw).
  exists s, w'. split; [done|]. split; [|done].
  rewrite recon_loop_app, Hl. cbn [recon_loop].
  unfold _get_brt_recon_command. rewrite Hd, Hx. by mstep.
Qed.

End UnknownId.

(* ===================================================================== *)
(** ** The further properties on concrete runs *)
(* ===================================================================== *)

Section FurtherRuns.

Import Pandas Scenario Outcome.

Ltac by_computation :=
  match goal with
  | |- ?P => apply (@bool_decide_unpack P _); vm_compute; exact I
  end.

Lemma ids_once_123 : NoDup (process_list sp123).
Proof. by_computation. Defined.

Lemma init_done2 : __init__ "p" ["ts"] sp123 w_done2 = (Ok s_done2, w_done2').
Proof. vm_compute. reflexivity. Defined.

Lemma named_done2 : follows_naming sp123 (loaded_record "p" w_done2).
Proof.
  intros r Hr.
  assert (rows (loaded_record "p" w_done2) = [row 2]) as E
    by (vm_compute; reflexivity).
  rewrite E in Hr. apply list_elem_of_singleton in Hr as ->.
  vm_compute. reflexivity.
Defined.

(** Off the hypothesis of X6: series 1 is requested twice and done.
    Pass 2 then pairs every catalogue row with both rows of series 1:
    the mask shifts, series 2 leaves the work list although it was
    never reconstructed, and [no_processes] stays unset. *)
Example repeated_id_hides_a_pending_item :
  ∃ s w',
    __init__ "p" ["ts"] sp112
      (world [recon_output (row 1)] (Some [(0, row 1)])) = (Ok s, w')
    ∧ _process_list s = []
    ∧ no_processes s = false
    ∧ rows (meta_out s) = [row 1].
Proof.
  eexists _, _. split; [vm_compute; reflexivity|].
  split; [reflexivity|]. split; reflexivity.
Qed.

(** Witness of X2: construction when series 2 is already done. *)
Lemma command_for_requested_ids_only_done2 :
  __init__ "p" ["ts"] sp123 w_done2 = (Ok s_done2, w_done2')
  ∧ (∀ x w',
       _get_brt_recon_command 2 s_done2 x w'
       = (if bool_decide (x ∈ process_list sp123)
          then Ok (brt_command 2 (rootname_of sp123) x (catalog_folder sp123 x))
          else Raise (KeyError x), w'))
  ∧ (∀ x, x ∈ _process_list s_done2 → x ∈ process_list sp123).
Proof.
  split; [exact init_done2|].
  exact (command_for_requested_ids_only 2 "p" ["ts"] sp123 w_done2
           s_done2 w_done2' init_done2).
Defined.

(** Witness of X4. *)
Lemma reconciliation_invents_nothing_done2 :
  __init__ "p" ["ts"] sp123 w_done2 = (Ok s_done2, w_done2')
  ∧ sublist (meta_out s_done2) (loaded_record "p" w_done2)
  ∧ sublist (_recon_images s_done2)
            (range_index (catalog_row sp123 <$> process_list sp123))
  ∧ (∀ x, x ∈ _process_list s_done2 ↔ x ∈ ts <$> rows (_recon_images s_done2))
  ∧ (∀ x, x ∈ _process_list s_done2 → x ∈ process_list sp123).
Proof.
  split; [exact init_done2|].
  exact (reconciliation_invents_nothing "p" ["ts"] sp123 w_done2
           s_done2 w_done2' init_done2).
Defined.

(** Witness of X5: series 2 is recorded and on disk, series 1 and 3 are
    not. *)
Lemma work_list_is_requested_minus_done_done2 :
  aligned_inputs "p" ["ts"] sp123 w_done2
  ∧ follows_naming sp123 (loaded_record "p" w_done2)
  ∧ ∃ s w',
      __init__ "p" ["ts"] sp123 w_done2 = (Ok s, w')
      ∧ ∀ x, x ∈ _process_list s
             ↔ x ∈ process_list sp123
               ∧ ¬ (recon_output (catalog_row sp123 x)
                      ∈ recon_output <$> rows (loaded_record "p" w_done2)
                    ∧ isfile w_done2 (recon_output (catalog_row sp123 x)) = true).
Proof.
  split; [exact aligned_done2|]. split; [exact named_done2|].
  exact (work_list_is_requested_minus_done "p" ["ts"] sp123 w_done2
           aligned_done2 named_done2).
Defined.

(** Witness of X6. *)
Lemma nothing_to_do_iff_flagged_done2 :
  NoDup (process_list sp123)
  ∧ __init__ "p" ["ts"] sp123 w_done2 = (Ok s_done2, w_done2')
  ∧ (no_processes s_done2 = true ↔ _process_list s_done2 = []).
Proof.
  split; [exact ids_once_123|]. split; [exact init_done2|].
  exact (nothing_to_do_iff_flagged "p" ["ts"] sp123 w_done2 s_done2 w_done2'
           ids_once_123 init_done2).
Defined.

(** Witness of X7: the record lists series 2 twice, then series 3; the
    row of series 3 keeps label 2 when two rows are left. *)
Lemma indexing_error_on_repeated_row :
  NoDup (process_list sp123)
  ∧ (2 ∈ index (loaded_record "p" w_twice2_then3)
     ∧ (length (loaded_record "p" w_twice2_then3) ≤ 2)%nat)
  ∧ (__init__ "p" ["ts"] sp123 w_twice2_then3).1 = Raise IndexingError.
Proof.
  assert (2 ∈ index (loaded_record "p" w_twice2_then3)
          ∧ (length (loaded_record "p" w_twice2_then3) ≤ 2)%nat) as Hgap.
  { split; [by_computation|]. vm_compute. reflexivity. }
  split; [exact ids_once_123|]. split; [exact Hgap|].
  apply (construction_raises_indexing_error_iff_label_gap
           "p" ["ts"] sp123 w_twice2_then3 ids_once_123).
  - intros H. discriminate H.
  - exists 2. exact Hgap.
Defined.

(** Witness of X11: a run with a tool that writes its reconstruction. *)
Lemma run_writes_a_growing_record_done2 :
  NoDup (process_list sp123)
  ∧ __init__ "p" ["ts"] sp123 w_done2 = (Ok s_done2, w_done2')
  ∧ ∃ s' w2 docs,
      recon_stack 2 tool_ok merged_streams s_done2 w_done2' = (Ok s', w2)
      ∧ length docs = length (_process_list s_done2)
      ∧ trace w2
        = (trace w_done2'
           ++ EvWriteAdoc "./recon.adoc"
              :: turns (λ x, brt_command 2 (rootname_of sp123) x
                               (catalog_folder sp123 x))
                   (record_name "p") (_process_list s_done2) docs)%list
      ∧ growing (rows (meta_out s_done2)) docs
      ∧ rows (meta_out s_done2) `prefix_of` rows (meta_out s')
      ∧ (_process_list s_done2 ≠ [] →
         last docs = Some (meta_out s')
         ∧ yaml_docs w2 !! record_name "p" = Some (meta_out s')).
Proof.
  split; [exact ids_once_123|]. split; [exact init_done2|].
  assert (∃ s' w2,
            recon_stack 2 tool_ok merged_streams s_done2 w_done2' = (Ok s', w2))
    as (s' & w2 & Hstack) by (eexists _, _; vm_compute; reflexivity).
  destruct (run_writes_a_growing_record_after_every_item
              2 tool_ok merged_streams "p" ["ts"] sp123 w_done2
              s_done2 w_done2' s' w2 ids_once_123 init_done2 Hstack)
    as (docs & Hdocs).
  exists s', w2, docs. split; [exact Hstack|]. exact Hdocs.
Defined.

(** Witness of X12: after that run all three reconstructions are there,
    and a second construction finds nothing to do. *)
Lemma rerun_retries_exactly_the_missing_done2 :
  aligned_inputs "p" ["ts"] sp123 w_done2
  ∧ follows_naming sp123 (loaded_record "p" w_done2)
  ∧ ∃ s' w2 s2 w3,
      __init__ "p" ["ts"] sp123 w_done2 = (Ok s_done2, w_done2')
      ∧ recon_stack 2 tool_ok merged_streams s_done2 w_done2' = (Ok s', w2)
      ∧ aligned_inputs "p" ["ts"] sp123 w2
      ∧ __init__ "p" ["ts"] sp123 w2 = (Ok s2, w3)
      ∧ (∀ x, x ∈ _process_list s2
              ↔ x ∈ process_list sp123
                ∧ isfile w2 (recon_output (catalog_row sp123 x)) = false)
      ∧ (no_processes s2 = true
         ↔ ∀ x, x ∈ process_list sp123 →
                isfile w2 (recon_output (catalog_row sp123 x)) = true)
      ∧ _process_list s2 = []
      ∧ no_processes s2 = true.
Proof.
  split; [exact aligned_done2|]. split; [exact named_done2|].
  assert (∃ s' w2,
            recon_stack 2 tool_ok merged_streams s_done2 w_done2' = (Ok s', w2)
            ∧ ∃ s2 w3, __init__ "p" ["ts"] sp123 w2 = (Ok s2, w3)
                       ∧ _process_list s2 = [] ∧ no_processes s2 = true)
    as (s' & w2 & Hstack & s2 & w3 & Hinit2 & Hnone & Hflag).
  { eexists _, _. split; [vm_compute; reflexivity|].
    eexists _, _. split; [vm_compute; reflexivity|]. split; reflexivity. }
  destruct (rerun_retries_exactly_the_missing 2 tool_ok merged_streams
              "p" ["ts"] sp123 w_done2 s_done2 w_done2' s' w2
              aligned_done2 named_done2 init_done2 Hstack)
    as (Hal2 & _ & Hrerun).
  destruct (Hrerun s2 w3 Hinit2) as [Hwork Hiff].
  exists s', w2, s2, w3. split; [exact init_done2|]. split; [exact Hstack|].
  split; [exact Hal2|]. split; [exact Hinit2|]. split; [exact Hwork|].
  split; [exact Hiff|]. split; [exact Hnone|exact Hflag].
Defined.

(** Witness of X13: the work list of a first run with an id slipped in
    that was never requested. *)
Lemma loop_stops_at_an_id_without_folder_7 :
  (∀ y, y ∈ [1%Z] → is_Some (_path_dict s_fresh !! y))
  ∧ _path_dict s_fresh !! 7%Z = None
  ∧ ∃ s w',
      recon_loop 2 tool_ok merged_streams s_fresh [1%Z] w_fresh = (Ok s, w')
      ∧ recon_loop 2 tool_ok merged_streams s_fresh ([1%Z] ++ 7%Z :: [2%Z]) w_fresh
        = (Raise (KeyError 7), w')
      ∧ length (runs (trace w')) = length (runs (trace w_fresh)) + length [1%Z]
      ∧ length (dumps (trace w')) = length (dumps (trace w_fresh)) + length [1%Z].
Proof.
  assert (∀ y, y ∈ [1%Z] → is_Some (_path_dict s_fresh !! y)) as Hpre.
  { intros y Hy. apply list_elem_of_singleton in Hy as ->.
    vm_compute. by eexists. }
  assert (_path_dict s_fresh !! 7%Z = None) as Hx by (vm_compute; reflexivity).
  split; [exact Hpre|]. split; [exact Hx|].
  exact (loop_stops_at_an_id_without_folder 2 tool_ok merged_streams
           s_fresh [1%Z] 7 [2%Z] w_fresh Hpre Hx).
Defined.

End FurtherRuns.

(* ===================================================================== *)
(** ** Duplicates, the order of work and unvalidated ids *)
(* ===================================================================== *)

Section Collapse.

Import Pandas.

Lemma rows_filter_ne (f : Frame) r :
  rows (filter (λ x : nat * Row, x.2 ≠ r) f) = filter (λ x, x ≠ r) (rows f).
Proof.
  unfold rows. induction f as [|[i r'] f IH]; [done|].
  rewrite fmap_cons. simpl. destruct (decide (r' = r)) as [->|Hne].
  - rewrite !filter_cons_False by (simpl; tauto). exact IH.
  - rewrite !filter_cons_True by done. rewrite fmap_cons. simpl. by rewrite IH.
Qed.

Lemma drop_duplicates_collapses (f : Frame) :
  collapses (rows f) (rows (drop_duplicates f)).
Proof.
  remember (length f) as n eqn:Hn. revert f Hn.
  induction n as [n IH] using lt_wf_ind. intros [|[i r] f] Hn.
  - constructor.
  - unfold drop_duplicates. cbn [drop_duplicates_seen].
    rewrite bool_decide_eq_false_2 by apply not_elem_of_nil.
    rewrite drop_duplicates_seen_cons.
    change (rows ((i, r) :: ?g)) with (r :: rows g).
    constructor. rewrite <- rows_filter_ne.
    apply (IH (length (filter (λ x : nat * Row, x.2 ≠ r) f))); [|done].
    simpl in Hn. pose proof (length_filter (λ x : nat * Row, x.2 ≠ r) f). lia.
Qed.

Lemma collapses_spec l d :
  collapses l d → NoDup d ∧ (∀ r, r ∈ d ↔ r ∈ l) ∧ sublist d l.
Proof.
  induction 1 as [|r l d _ (Hnd & Hin & Hsub)].
  - split; [constructor|]. split; [done|constructor].
  - split; [|split].
    + constructor; [|done]. rewrite Hin, list_elem_of_filter. tauto.
    + intros x. rewrite !elem_of_cons, Hin, list_elem_of_filter.
      destruct (decide (x = r)); naive_solver.
    + constructor. etrans; [exact Hsub|]. apply sublist_filter.
Qed.

Lemma collapses_unique l d d' : collapses l d → collapses l d' → d = d'.
Proof.
  intros H. revert d'. induction H as [|r l d _ IH]; intros d' H'.
  - by inversion H'.
  - inversion H' as [|? ? d'' Hd'']; subst. f_equal. by apply IH.
Qed.

Lemma getitem_bool_all_true (f : Frame) (l : list Row) g :
  getitem_bool f ((λ _, true) <$> l) = Ok g → g = f.
Proof.
  revert g. induction f as [|[i r] f IH]; intros g; cbn [getitem_bool].
  - by intros [= <-].
  - destruct (((λ _, true) <$> l) !! i) as [b|] eqn:E; [|done].
    rewrite list_lookup_fmap in E.
    destruct (l !! i); [|done]. injection E as <-.
    destruct (getitem_bool f _) as [g'|]; [|done]. simpl.
    intros [= <-]. f_equal. by apply IH.
Qed.

Lemma missing_specified_nil todo : missing_specified todo [] = [].
Proof. unfold missing_specified. induction todo; [done|]. simpl. done. Qed.

(** Pass 1 keeps the whole record when none of its reconstructions is
    missing. *)
Lemma prune_record_nothing_stale self (f g : Frame) w w' :
  prune_record self f w = (Ok g, w') →
  (∀ r, r ∈ rows f → isfile w (recon_output r) = true) →
  g = f.
Proof.
  intros H Hall. revert H. unfold prune_record.
  case_bool_decide; [|by intros [= <- _]]. mstep.
  assert (loc (λ r, negb (isfile w (recon_output r))) f = []) as ->.
  { rewrite <- (loc_nothing f). unfold loc. apply filter_ext_in.
    intros [i r] Hr. simpl. rewrite Hall; [done|].
    apply list_elem_of_fmap. by exists (i, r). }
  rewrite missing_specified_nil. unfold merge_indicator.
  destruct (common_columns _ _); [done|]. rewrite merge_left_only_nil.
  destruct (getitem_bool f _) as [kept|] eqn:E; [|done].
  apply getitem_bool_all_true in E as ->.
  rewrite bool_decide_eq_false_2 by (simpl; lia). by intros [= <- _].
Qed.

End Collapse.

Section NoDuplicateRows.

Import Pandas.

Variable cpu_count : nat.
Variable tool : World → list string → ToolOutcome.
Variable il : string → string → string.

Lemma _check_reconned_images_nothing_stale self s w w' :
  _check_reconned_images self w = (Ok s, w') →
  (∀ r, r ∈ rows (loaded_record (proj_name self) w) →
        isfile w (recon_output r) = true) →
  meta_out s = loaded_record (proj_name self) w.
Proof.
  unfold _check_reconned_images. mstep.
  destruct ((if isfile w (record_file self)
             then read_md_yaml (record_file self) else _) w)
    as [[loaded|] w0] eqn:Hl; [|done].
  apply load_record_ok in Hl as [-> <-].
  destruct (prune_record self (drop_duplicates loaded) w) as [[pruned|] w1] eqn:Hp;
    [|done].
  intros (_ & _ & Hm & _)%prune_work_ok Hall. simpl in Hm. rewrite Hm.
  by eapply prune_record_nothing_stale.
Qed.

(** C7 (no duplicate rows).  [drop_duplicates] keeps every row where it
    is first seen, with its label, and drops its later copies, which is
    the collapse the specification asks for: the one list without
    repetition that holds the rows of the input in the order in which
    they first appear.  On the load path the record reconciliation
    keeps is free of duplicates and is a sub-frame of the collapsed
    document (nothing is reordered or added), and it is the whole
    collapsed document when no recorded reconstruction is missing.  On
    the update path the new record is the collapse of the old rows
    followed by the pending rows whose file exists.  Through the loop
    the record and every document written stay free of duplicates. *)
Theorem no_duplicate_rows :
  (∀ i r (f : Frame),
     drop_duplicates ((i, r) :: f)
     = (i, r) :: drop_duplicates (filter (λ x, x.2 ≠ r) f))
  ∧ (∀ f, NoDup (rows (drop_duplicates f))
          ∧ collapses (rows f) (rows (drop_duplicates f)))
  ∧ (∀ l d, collapses l d →
            NoDup d ∧ (∀ r, r ∈ d ↔ r ∈ l) ∧ sublist d l
            ∧ ∀ d', collapses l d' → d' = d)
  ∧ (∀ self w s w',
       _check_reconned_images self w = (Ok s, w') →
       NoDup (rows (meta_out s))
       ∧ collapses (rows (default [] (yaml_docs w !! record_file self)))
                   (rows (loaded_record (proj_name self) w))
       ∧ sublist (meta_out s) (loaded_record (proj_name self) w)
       ∧ ((∀ r, r ∈ rows (loaded_record (proj_name self) w) →
                isfile w (recon_output r) = true) →
          meta_out s = loaded_record (proj_name self) w))
  ∧ (∀ self w,
       ∃ s, update_recon_metadata self w = (Ok s, w)
            ∧ collapses
                (rows (meta_out self)
                 ++ rows (loc (λ r, isfile w (recon_output r)) (_recon_images self)))
                (rows (meta_out s)))
  ∧ (∀ self todo w s w',
       recon_loop cpu_count tool il self todo w = (Ok s, w') →
       NoDup (rows (meta_out self)) →
       NoDup (rows (meta_out s))
       ∧ ∃ new, dumps (trace w') = (dumps (trace w) ++ new)%list
                ∧ Forall (λ d, NoDup (rows d)) new).
Proof.
  split; [|split; [|split; [|split; [|split]]]].
  - intros i r f. unfold drop_duplicates. simpl.
    by rewrite drop_duplicates_seen_cons.
  - intros f. split; [apply drop_duplicates_NoDup|apply drop_duplicates_collapses].
  - intros l d H. destruct (collapses_spec l d H) as (Hnd & Hin & Hsub).
    split; [done|]. split; [done|]. split; [done|].
    intros d' H'. by eapply collapses_unique.
  - intros self w s w' H. split; [|split; [|split]].
    + by apply _check_reconned_images_ok in H as [? _].
    + apply drop_duplicates_collapses.
    + by eapply _check_reconned_images_record.
    + by eapply _check_reconned_images_nothing_stale.
  - intros self w. eexists. split; [reflexivity|].
    cbn [meta_out set_meta_out set_recon_images].
    rewrite <- rows_append_ignore_index. apply drop_duplicates_collapses.
  - intros self todo w s w' (_ & Hnd & Hdumps)%recon_loop_ok Hself.
    split; [by apply Hnd | exact Hdumps].
Qed.

End NoDuplicateRows.

Section WorkListFollowed.

Import Pandas.

Variable cpu_count : nat.
Variable tool : World → list string → ToolOutcome.
Variable il : string → string → string.

(** C8: the work list construction leaves is strictly ascending and
    holds exactly the ids of the pending items, so it is the ascending
    list of those ids; when no id is requested twice these are the
    requested ids whose reconstruction path is not a recorded one.
    Whenever [recon_stack] returns, it has started the external tool
    once per item of that list, in that order, each time with the
    command of the item. *)
Theorem work_list_ascending_and_followed p mc sp w s w1 :
  __init__ p mc sp w = (Ok s, w1) →
  StronglySorted Z.lt (_process_list s)
  ∧ (∀ x, x ∈ _process_list s ↔ x ∈ ts <$> rows (_recon_images s))
  ∧ (NoDup (process_list sp) →
     ∀ x, x ∈ _process_list s
          ↔ x ∈ process_list sp
            ∧ recon_output (catalog_row sp x)
                ∉ recon_output <$> rows (meta_out s))
  ∧ ∀ s' w2,
      recon_stack cpu_count tool il s w1 = (Ok s', w2) →
      runs (trace w2)
      = (runs (trace w1)
         ++ ((λ x, brt_command cpu_count (rootname_of sp) x (catalog_folder sp x))
               <$> _process_list s))%list.
Proof.
  intros Hinit.
  pose proof (__init___ok _ _ _ _ _ _ Hinit)
    as (_ & _ & Hpl & (_ & _ & _ & Hroot & _ & Hdict) & _).
  simpl in Hroot, Hdict.
  assert (∀ x, x ∈ _process_list s ↔ x ∈ ts <$> rows (_recon_images s))
    as Hpending.
  { intros x. by rewrite Hpl, elem_of_unique, elem_of_sort_values. }
  split; [|split; [exact Hpending|split]].
  - rewrite Hpl. apply unique_sort_values_ascending.
  - intros Hids x.
    pose proof (__init___ready _ _ _ _ _ _ Hids Hinit) as [_ Himgs].
    rewrite Hpending, Himgs. split.
    + intros (r & -> & [Hr Hun]%elem_of_rows_loc)%list_elem_of_fmap.
      rewrite rows_range_index in Hr.
      apply list_elem_of_fmap in Hr as (y & -> & Hy). simpl.
      split; [done|]. unfold unrecorded, isin in Hun.
      by apply negb_true_iff, bool_decide_eq_false in Hun.
    + intros [Hx Hun]. apply list_elem_of_fmap. exists (catalog_row sp x).
      split; [done|]. apply elem_of_rows_loc. split.
      * rewrite rows_range_index. apply list_elem_of_fmap. by exists x.
      * unfold unrecorded, isin. by apply negb_true_iff, bool_decide_eq_false.
  - assert (∀ x, x ∈ _process_list s →
                 _path_dict s !! x = Some (catalog_folder sp x)) as Hknown.
    { intros x Hx. rewrite Hdict. apply path_dict_lookup.
      by eapply __init___work_list_requested. }
    intros s' w2. unfold recon_stack, _get_adoc. mstep.
    match goal with
    | |- recon_loop _ _ _ _ _ ?w1' = _ → _ =>
        destruct (recon_loop_total cpu_count tool il s (_process_list s) w1')
          as (s0 & w0 & Hloop & Hruns)
    end.
    { intros x Hx. rewrite Hknown by done. by eexists. }
    rewrite Hloop. intros [= <- <-]. rewrite Hruns. simpl.
    rewrite runs_app. simpl. rewrite app_nil_r. f_equal.
    apply list_fmap_ext. intros _ x Hx%list_elem_of_lookup_2.
    by rewrite Hknown, Hroot.
Qed.

End WorkListFollowed.

Section AnyIds.

Import Pandas.

(** C9, as amended: construction does not validate the requested ids.
    On a first run (no record file) an empty request makes it return
    without creating any folder; and for every list of integer ids,
    negative and repeated ones included, whenever it returns it has
    asked for one folder per mention of an id, in request order, the
    record is empty, the work list is the ascending list of the distinct
    ids, and the nothing-to-do flag is set exactly when the list is
    empty. *)
Theorem construction_accepts_any_ids p mc sp w :
  isfile w (record_name p) = false →
  (∀ s w',
     __init__ p mc sp w = (Ok s, w') →
     trace w' = (trace w ++ (EvMakedirs ∘ catalog_folder sp <$> process_list sp))%list
     ∧ meta_out s = []
     ∧ _process_list s = unique (sort_values (process_list sp))
     ∧ (no_processes s = true ↔ process_list sp = []))
  ∧ (process_list sp = [] →
     ∃ s w', __init__ p mc sp w = (Ok s, w')
             ∧ trace w' = trace w
             ∧ _process_list s = []
             ∧ no_processes s = true).
Proof.
  intros Hnone.
  destruct (__init___first_run p mc sp w Hnone) as (w0 & Hinit & _ & _ & Ht).
  split.
  - intros s w'. rewrite Hinit. intros [= <- <-]. simpl.
    split; [done|]. split; [done|]. split; [done|].
    apply bool_decide_eq_true.
  - intros Hnil. eexists _, w0. split; [exact Hinit|]. simpl.
    rewrite Ht, Hnil. simpl. rewrite app_nil_r. split; [done|].
    split; [done|]. reflexivity.
Qed.

End AnyIds.

Section ClaimRuns.

Import Pandas Scenario Outcome Misaligned.

Ltac by_computation :=
  match goal with
  | |- ?P => apply (@bool_decide_unpack P _); vm_compute; exact I
  end.

(** C4 (code bug).  The filters of lines 128 and 142 take their boolean
    mask from a merged frame, which pandas numbers afresh, and apply it
    to a frame that kept its own labels and length.  With series 1
    requested twice and its recorded reconstruction gone, the mask of
    Pass 1 is one entry longer than the record: the row of series 2 is
    dropped with that of series 1, and series 2, whose two files exist
    and whose row is in the record, is queued again.  With a record
    whose two rows are labelled 1 and 0, the mask is read crosswise: the
    stale row of series 2 stays, the good row of series 3 goes, and
    series 3 is queued again. *)
Theorem finished_item_queued_again :
  (∃ s w',
     __init__ "p" ["ts"] sp112 w_lost1_kept2 = (Ok s, w')
     ∧ 2%Z ∈ process_list sp112
     ∧ isfile w_lost1_kept2 (align_output (catalog_row sp112 2)) = true
     ∧ isfile w_lost1_kept2 (recon_output (catalog_row sp112 2)) = true
     ∧ catalog_row sp112 2 ∈ rows (loaded_record "p" w_lost1_kept2)
     ∧ 2%Z ∈ _process_list s)
  ∧ (∃ s w',
       __init__ "p" ["ts"] sp123 w_swapped_labels = (Ok s, w')
       ∧ 3%Z ∈ process_list sp123
       ∧ isfile w_swapped_labels (align_output (catalog_row sp123 3)) = true
       ∧ isfile w_swapped_labels (recon_output (catalog_row sp123 3)) = true
       ∧ catalog_row sp123 3 ∈ rows (loaded_record "p" w_swapped_labels)
       ∧ 3%Z ∈ _process_list s
       ∧ (2%Z ∉ _process_list s)
       ∧ isfile w_swapped_labels (recon_output (catalog_row sp123 2)) = false).
Proof.
  split.
  - eexists _, _. split; [vm_compute; reflexivity|].
    split; [by_computation|]. split; [vm_compute; reflexivity|].
    split; [vm_compute; reflexivity|]. split; by_computation.
  - eexists _, _. split; [vm_compute; reflexivity|].
    split; [by_computation|]. split; [vm_compute; reflexivity|].
    split; [vm_compute; reflexivity|]. split; [by_computation|].
    split; [by_computation|]. split; [by_computation|].
    vm_compute. reflexivity.
Qed.

(** The second input seen from the record: Pass 1 keeps the stale row of
    series 2 and drops the row of series 3, whose file is there. *)
Example swapped_labels_swap_the_verdicts :
  ∃ s w',
    __init__ "p" ["ts"] sp123 w_swapped_labels = (Ok s, w')
    ∧ meta_out s = [(1, row 2)]
    ∧ isfile w_swapped_labels (recon_output (row 2)) = false
    ∧ isfile w_swapped_labels (recon_output (row 3)) = true.
Proof.
  eexists _, _. split; [vm_compute; reflexivity|].
  split; [reflexivity|]. split; vm_compute; reflexivity.
Qed.

(** Witness of C7: the record lists series 2 twice and its files are
    there; the record kept is the collapsed document, one row. *)
Lemma no_duplicate_rows_twice2 :
  _check_reconned_images catalogue123 w_twice2 = (Ok s_twice2, w_twice2')
  ∧ rows (default [] (yaml_docs w_twice2 !! record_file catalogue123))
    = [row 2; row 2]
  ∧ NoDup (rows (meta_out s_twice2))
  ∧ meta_out s_twice2 = loaded_record "p" w_twice2
  ∧ rows (meta_out s_twice2) = [row 2].
Proof.
  assert (_check_reconned_images catalogue123 w_twice2 = (Ok s_twice2, w_twice2'))
    as H by (vm_compute; reflexivity).
  split; [exact H|]. split; [vm_compute; reflexivity|].
  destruct (no_duplicate_rows 2 tool_ok merged_streams)
    as (_ & _ & _ & Hcheck & _).
  destruct (Hcheck catalogue123 w_twice2 s_twice2 w_twice2' H)
    as (Hnd & _ & _ & Hwhole).
  split; [exact Hnd|]. split; [|reflexivity].
  apply Hwhole. intros r Hr.
  assert (rows (loaded_record (proj_name catalogue123) w_twice2) = [row 2]) as E
    by (vm_compute; reflexivity).
  rewrite E in Hr. apply list_elem_of_singleton in Hr as ->.
  vm_compute. reflexivity.
Defined.

(** Witness of C8: series 2 is done, series 1 and 3 are worked on, in
    that order. *)
Lemma work_list_followed_done2 :
  __init__ "p" ["ts"] sp123 w_done2 = (Ok s_done2, w_done2')
  ∧ _process_list s_done2 = [1; 3]%Z
  ∧ StronglySorted Z.lt (_process_list s_done2)
  ∧ (∀ x, x ∈ _process_list s_done2 ↔ x ∈ ts <$> rows (_recon_images s_done2))
  ∧ ∃ s' w2,
      recon_stack 2 tool_ok merged_streams s_done2 w_done2' = (Ok s', w2)
      ∧ runs (trace w2)
        = (runs (trace w_done2')
           ++ ((λ x, brt_command 2 (rootname_of sp123) x (catalog_folder sp123 x))
                 <$> _process_list s_done2))%list.
Proof.
  assert (__init__ "p" ["ts"] sp123 w_done2 = (Ok s_done2, w_done2')) as H
    by (vm_compute; reflexivity).
  destruct (work_list_ascending_and_followed 2 tool_ok merged_streams
              "p" ["ts"] sp123 w_done2 s_done2 w_done2' H)
    as (Hsorted & Hpending & _ & Hruns).
  split; [exact H|]. split; [reflexivity|]. split; [exact Hsorted|].
  split; [exact Hpending|].
  assert (∃ s' w2,
            recon_stack 2 tool_ok merged_streams s_done2 w_done2' = (Ok s', w2))
    as (s' & w2 & Hstack) by (eexists _, _; vm_compute; reflexivity).
  exists s', w2. split; [exact Hstack|]. exact (Hruns s' w2 Hstack).
Defined.

(** Witness of C9 as amended: a negative id on a first run. *)
Lemma construction_accepts_negative_id :
  isfile w_fresh (record_name "p") = false
  ∧ ∃ s w', __init__ "p" ["ts"] sp_negative w_fresh = (Ok s, w')
          ∧ trace w' = [EvMakedirs "out/ts_-1"]
          ∧ meta_out s = []
          ∧ _process_list s = [-1]%Z
          ∧ (no_processes s = true ↔ process_list sp_negative = []).
Proof.
  split; [reflexivity|].
  assert (∃ s w', __init__ "p" ["ts"] sp_negative w_fresh = (Ok s, w'))
    as (s & w' & Hinit) by (eexists _, _; vm_compute; reflexivity).
  destruct (construction_accepts_any_ids "p" ["ts"] sp_negative w_fresh eq_refl)
    as [Hany _].
  destruct (Hany s w' Hinit) as (Ht & Hrec & Hlist & Hflag).
  exists s, w'. split; [exact Hinit|]. split; [exact Ht|].
  split; [exact Hrec|]. split; [exact Hlist|]. exact Hflag.
Defined.

End ClaimRuns.
